(** * starter-go-cli: the [analise] command

    A shallow embedding of the [analise] command and of [cmd/root.go],
    together with the parts of the Go runtime the command relies on
    ([unicode/utf8], [unicode/utf16], [encoding/json], [fmt], [net/http],
    [os]) and of its flag library.  The command is a computation over a
    world (standard output and the requests received by the endpoint)
    that may end the process; the endpoint, the environment variables and
    the text of library errors are given by a host.  Line numbers refer
    to the source of the command.

    A Go [string] and a Go [[]byte] are both sequences of bytes; they are
    modelled by [string], whose characters are the 256 byte values. *)

From Stdlib Require Import ZArith NArith List String Ascii Bool Lia DecimalString.
Import ListNotations.
Open Scope string_scope.
Set Warnings "-register-all".


(** ** Bytes *)

Definition byte := ascii.
Bind Scope char_scope with byte.

Definition b2n (c : byte) : N := N_of_ascii c.
Definition n2b (n : N) : byte := ascii_of_N n.

(** The byte 0x22.  Text that contains it is written with [q], which turns
    every apostrophe of its argument into that byte. *)
Definition dquote : byte := n2b 34.

Fixpoint q (s : string) : string :=
  match s with
  | EmptyString => EmptyString
  | String c rest => String (if (c =? "'")%char then dquote else c) (q rest)
  end.

Definition newline : string := String (n2b 10) EmptyString.

Definition in_range (c : byte) (lo hi : N) : bool :=
  (lo <=? b2n c)%N && (b2n c <=? hi)%N.

Fixpoint rev_string (acc : list byte) (tail : string) : string :=
  match acc with
  | [] => tail
  | c :: acc' => rev_string acc' (String c tail)
  end.

(** ** unicode/utf8 and unicode/utf16 *)

Module Utf8.

Definition rune := N.

Definition RuneError : rune := 0xFFFD%N.
Definition MaxRune : rune := 0x10FFFF%N.
Definition RuneSelf : N := 0x80%N.

Definition surrogateMin : rune := 0xD800%N.
Definition surrogateMax : rune := 0xDFFF%N.

Definition contbits (c : byte) : N := N.land (b2n c) 0x3F.

(** [utf8.DecodeRune]: the first rune of [p] and its width in bytes;
    [(RuneError, 1)] for an encoding that is not well formed and
    [(RuneError, 0)] for the empty input. *)
Definition DecodeRune (p : string) : rune * nat :=
  match p with
  | EmptyString => (RuneError, 0)
  | String c0 p1 =>
    let b0 := b2n c0 in
    if (b0 <? 0x80)%N then (b0, 1)
    else if (b0 <? 0xC2)%N then (RuneError, 1)
    else if (b0 <? 0xE0)%N then
      match p1 with
      | String c1 _ =>
        if in_range c1 0x80 0xBF
        then (N.lor (N.shiftl (N.land b0 0x1F) 6) (contbits c1), 2)
        else (RuneError, 1)
      | _ => (RuneError, 1)
      end
    else if (b0 <? 0xF0)%N then
      let lo := if (b0 =? 0xE0)%N then 0xA0%N else 0x80%N in
      let hi := if (b0 =? 0xED)%N then 0x9F%N else 0xBF%N in
      match p1 with
      | String c1 (String c2 _) =>
        if in_range c1 lo hi && in_range c2 0x80 0xBF
        then (N.lor (N.shiftl (N.land b0 0x0F) 12)
                (N.lor (N.shiftl (contbits c1) 6) (contbits c2)), 3)
        else (RuneError, 1)
      | _ => (RuneError, 1)
      end
    else if (b0 <? 0xF5)%N then
      let lo := if (b0 =? 0xF0)%N then 0x90%N else 0x80%N in
      let hi := if (b0 =? 0xF4)%N then 0x8F%N else 0xBF%N in
      match p1 with
      | String c1 (String c2 (String c3 _)) =>
        if in_range c1 lo hi && in_range c2 0x80 0xBF && in_range c3 0x80 0xBF
        then (N.lor (N.shiftl (N.land b0 0x07) 18)
                (N.lor (N.shiftl (contbits c1) 12)
                   (N.lor (N.shiftl (contbits c2) 6) (contbits c3))), 4)
        else (RuneError, 1)
      | _ => (RuneError, 1)
      end
    else (RuneError, 1)
  end.

Definition tx (n : N) : byte := n2b (N.lor 0x80 (N.land n 0x3F)).

Definition encode3 (r : rune) : string :=
  String (n2b (N.lor 0xE0 (N.shiftr r 12)))
    (String (tx (N.shiftr r 6)) (String (tx r) EmptyString)).

(** [utf8.AppendRune] on an empty buffer. *)
Definition EncodeRune (r : rune) : string :=
  if (r <=? 0x7F)%N then String (n2b r) EmptyString
  else if (r <=? 0x7FF)%N then
    String (n2b (N.lor 0xC0 (N.shiftr r 6))) (String (tx r) EmptyString)
  else if (MaxRune <? r)%N || ((surrogateMin <=? r)%N && (r <=? surrogateMax)%N)
    then encode3 RuneError
  else if (r <=? 0xFFFF)%N then encode3 r
  else
    String (n2b (N.lor 0xF0 (N.shiftr r 18)))
      (String (tx (N.shiftr r 12))
         (String (tx (N.shiftr r 6)) (String (tx r) EmptyString))).

End Utf8.

Module Utf16.

Definition surr1 : N := 0xD800%N.
Definition surr2 : N := 0xDC00%N.
Definition surr3 : N := 0xE000%N.
Definition surrSelf : N := 0x10000%N.

Definition IsSurrogate (r : Utf8.rune) : bool :=
  (surr1 <=? r)%N && (r <? surr3)%N.

Definition DecodeRune (r1 r2 : Utf8.rune) : Utf8.rune :=
  if (surr1 <=? r1)%N && (r1 <? surr2)%N && (surr2 <=? r2)%N && (r2 <? surr3)%N
  then (N.lor (N.shiftl (r1 - surr1) 10) (r2 - surr2) + surrSelf)%N
  else Utf8.RuneError.

End Utf16.

(** ** Go slices: the nil slice is distinct from an empty slice. *)

Inductive slice (A : Type) : Type :=
| Nil
| Slice (elems : list A).
Arguments Nil {A}.
Arguments Slice {A} elems.

Definition elements {A} (s : slice A) : list A :=
  match s with
  | Nil => []
  | Slice l => l
  end.

Definition append {A} (s : slice A) (x : A) : slice A :=
  Slice (elements s ++ [x]).

(** ** encoding/json *)

Module Json.

Import Utf8.

(** A JSON text as a tree.  A [Str] holds the decoded Go string, a
    [Number] the literal as it was written. *)
Inductive value :=
| Null
| Bool (b : bool)
| Number (lit : string)
| Str (s : string)
| Array (elems : list value)
| Object (members : list (string * value)).

(** The two kinds of error [Unmarshal] reports.  The text of an error
    (its [Error()] method) is not fixed here. *)
Inductive error :=
| SyntaxError
| UnmarshalTypeError.

(** *** Decoding of string literals ([unquote]) *)

Definition hexval (c : byte) : option N :=
  if in_range c 48 57 then Some (b2n c - 48)%N
  else if in_range c 97 102 then Some (b2n c - 87)%N
  else if in_range c 65 70 then Some (b2n c - 55)%N
  else None.

(** [getu4 s]: the code unit of a [\uXXXX] escape at the start of [s]. *)
Definition getu4 (s : string) : option rune :=
  match s with
  | String c0 (String c1 (String h0 (String h1 (String h2 (String h3 _))))) =>
    if (c0 =? "\")%char && (c1 =? "u")%char then
      match hexval h0, hexval h1, hexval h2, hexval h3 with
      | Some a, Some b, Some c, Some d => Some (((a * 16 + b) * 16 + c) * 16 + d)%N
      | _, _, _, _ => None
      end
    else None
  | _ => None
  end.

Definition escaped (e : byte) : option byte :=
  if (e =? dquote)%char || (e =? "\")%char || (e =? "/")%char || (e =? "'")%char
  then Some e
  else if (e =? "b")%char then Some (n2b 8)
  else if (e =? "f")%char then Some (n2b 12)
  else if (e =? "n")%char then Some (n2b 10)
  else if (e =? "r")%char then Some (n2b 13)
  else if (e =? "t")%char then Some (n2b 9)
  else None.

Definition prepend (x : string) (o : option string) : option string :=
  match o with
  | Some t => Some (x ++ t)
  | None => None
  end.

(** [unquote copy s]: the Go string denoted by the inside [s] of a string
    literal.  [copy] counts the bytes still to be copied from a
    multi-byte rune that has been decoded already. *)
Fixpoint unquote (copy : nat) (s : string) : option string :=
  match s with
  | EmptyString => Some EmptyString
  | String c r1 =>
    match copy with
    | S k => prepend (String c EmptyString) (unquote k r1)
    | O =>
      if (c =? "\")%char then
        match r1 with
        | EmptyString => None
        | String e r2 =>
          if (e =? "u")%char then
            match r2 with
            | String _ (String _ (String _ (String _ r6))) =>
              match getu4 s with
              | None => None
              | Some rr =>
                if Utf16.IsSurrogate rr then
                  match getu4 r6, r6 with
                  | Some rr1,
                    String _ (String _ (String _ (String _ (String _ (String _ r12))))) =>
                    let dec := Utf16.DecodeRune rr rr1 in
                    if (dec =? RuneError)%N
                    then prepend (EncodeRune RuneError) (unquote 0 r6)
                    else prepend (EncodeRune dec) (unquote 0 r12)
                  | _, _ => prepend (EncodeRune RuneError) (unquote 0 r6)
                  end
                else prepend (EncodeRune rr) (unquote 0 r6)
              end
            | _ => None
            end
          else
            match escaped e with
            | Some x => prepend (String x EmptyString) (unquote 0 r2)
            | None => None
            end
        end
      else if (c =? dquote)%char || (b2n c <? 32)%N then None
      else if (b2n c <? RuneSelf)%N then prepend (String c EmptyString) (unquote 0 r1)
      else
        let (r, size) := DecodeRune s in
        if (r =? RuneError)%N && (size =? 1)%nat
        then prepend (EncodeRune RuneError) (unquote 0 r1)
        else prepend (String c EmptyString) (unquote (size - 1) r1)
    end
  end.

(** *** The scanner ([scanner.go]) *)

Definition maxNestingDepth : N := 10000%N.

(** What is being parsed at each open bracket, with the part of the
    container read so far (most recent first). *)
Inductive frame :=
| parseObjectKey (members : list (string * value)) (key : option string)
| parseObjectValue (members : list (string * value)) (key : option string)
| parseArrayValue (elems : list value).

Inductive stepfn :=
| stateBeginValueOrEmpty | stateBeginValue | stateBeginStringOrEmpty
| stateBeginString | stateEndValue | stateEndTop
| stateInString | stateInStringEsc | stateInStringEscU | stateInStringEscU1
| stateInStringEscU12 | stateInStringEscU123
| stateNeg | state1 | state0 | stateDot | stateDot0 | stateE | stateESign | stateE0
| stateT | stateTr | stateTru | stateF | stateFa | stateFal | stateFals
| stateN | stateNu | stateNul
| stateError.

(** The scanner state.  [lit] holds the bytes of the literal being read
    (most recent first; for a string, the bytes between the quotes) and
    [top] the top-level value once it is complete: the decoder reads
    both off the input as the scanner advances. *)
Record scanner := mkScanner {
  step : stepfn;
  parseState : list frame;
  endTop : bool;
  lit : list byte;
  top : option value
}.

Definition reset : scanner := mkScanner stateBeginValue [] false [] None.

Definition goto (st : stepfn) (s : scanner) : scanner :=
  mkScanner st (parseState s) (endTop s) (lit s) (top s).

Definition scanError (s : scanner) : scanner := goto stateError s.

Definition keep (st : stepfn) (c : byte) (s : scanner) : scanner :=
  mkScanner st (parseState s) (endTop s) (c :: lit s) (top s).

Definition beginLiteral (st : stepfn) (l : list byte) (s : scanner) : scanner :=
  mkScanner st (parseState s) (endTop s) l (top s).

Definition isSpace (c : byte) : bool :=
  (b2n c <=? 32)%N
  && ((c =? " ")%char || (b2n c =? 9)%N || (b2n c =? 13)%N || (b2n c =? 10)%N).

Definition isDigit (c : byte) : bool := in_range c 48 57.

Definition isHex (c : byte) : bool :=
  in_range c 48 57 || in_range c 97 102 || in_range c 65 70.

Definition pushParseState (f : frame) (st : stepfn) (s : scanner) : scanner :=
  let ps := f :: parseState s in
  if (N.of_nat (List.length ps) <=? maxNestingDepth)%N
  then mkScanner st ps (endTop s) (lit s) (top s)
  else scanError s.

(** A completed value goes to the container that is open, or becomes the
    top-level value. *)
Definition deliver (v : value) (ps : list frame) (t : option value)
  : option (list frame * option value) :=
  match ps with
  | [] => Some ([], Some v)
  | parseArrayValue es :: st => Some (parseArrayValue (v :: es) :: st, t)
  | parseObjectKey ms None :: st =>
    match v with
    | Str k => Some (parseObjectKey ms (Some k) :: st, t)
    | _ => None
    end
  | parseObjectValue ms (Some k) :: st =>
    Some (parseObjectValue ((k, v) :: ms) None :: st, t)
  | _ => None
  end.

Definition finish (v : value) (s : scanner) : scanner :=
  match deliver v (parseState s) (top s) with
  | Some (ps, t) => mkScanner stateEndValue ps (endTop s) [] t
  | None => scanError s
  end.

Definition popParseState (v : value) (s : scanner) : scanner :=
  match parseState s with
  | [] => scanError s
  | _ :: st =>
    match deliver v st (top s) with
    | Some (ps, t) =>
      match st with
      | [] => mkScanner stateEndTop ps true (lit s) t
      | _ => mkScanner stateEndValue ps (endTop s) (lit s) t
      end
    | None => scanError s
    end
  end.

Definition stepEndTop (s : scanner) (c : byte) : scanner :=
  if isSpace c then s else scanError s.

Definition stepEndValue (s : scanner) (c : byte) : scanner :=
  match parseState s with
  | [] => stepEndTop (mkScanner stateEndTop [] true (lit s) (top s)) c
  | f :: st =>
    if isSpace c then goto stateEndValue s
    else
      match f with
      | parseObjectKey ms k =>
        if (c =? ":")%char
        then mkScanner stateBeginValue (parseObjectValue ms k :: st)
               (endTop s) (lit s) (top s)
        else scanError s
      | parseObjectValue ms _ =>
        if (c =? ",")%char
        then mkScanner stateBeginString (parseObjectKey ms None :: st)
               (endTop s) (lit s) (top s)
        else if (c =? "}")%char then popParseState (Object (rev ms)) s
        else scanError s
      | parseArrayValue es =>
        if (c =? ",")%char then goto stateBeginValue s
        else if (c =? "]")%char then popParseState (Array (rev es)) s
        else scanError s
      end
  end.

Definition stepBeginValue (s : scanner) (c : byte) : scanner :=
  if isSpace c then s
  else if (c =? "{")%char
    then pushParseState (parseObjectKey [] None) stateBeginStringOrEmpty s
  else if (c =? "[")%char
    then pushParseState (parseArrayValue []) stateBeginValueOrEmpty s
  else if (c =? dquote)%char then beginLiteral stateInString [] s
  else if (c =? "-")%char then beginLiteral stateNeg [c] s
  else if (c =? "0")%char then beginLiteral state0 [c] s
  else if (c =? "t")%char then beginLiteral stateT [c] s
  else if (c =? "f")%char then beginLiteral stateF [c] s
  else if (c =? "n")%char then beginLiteral stateN [c] s
  else if in_range c 49 57 then beginLiteral state1 [c] s
  else scanError s.

Definition stepBeginString (s : scanner) (c : byte) : scanner :=
  if isSpace c then s
  else if (c =? dquote)%char then beginLiteral stateInString [] s
  else scanError s.

Definition stepBeginStringOrEmpty (s : scanner) (c : byte) : scanner :=
  if isSpace c then s
  else if (c =? "}")%char then
    match parseState s with
    | parseObjectKey ms _ :: st =>
      stepEndValue (mkScanner (step s) (parseObjectValue ms None :: st)
                      (endTop s) (lit s) (top s)) c
    | _ => scanError s
    end
  else stepBeginString s c.

Definition finishString (s : scanner) : scanner :=
  match unquote 0 (rev_string (lit s) EmptyString) with
  | Some str => finish (Str str) s
  | None => scanError s
  end.

Definition finishNumber (s : scanner) (c : byte) : scanner :=
  stepEndValue (finish (Number (rev_string (lit s) EmptyString)) s) c.

Definition stepState0 (s : scanner) (c : byte) : scanner :=
  if (c =? ".")%char then keep stateDot c s
  else if (c =? "e")%char || (c =? "E")%char then keep stateE c s
  else finishNumber s c.

Definition stepStateESign (s : scanner) (c : byte) : scanner :=
  if isDigit c then keep stateE0 c s else scanError s.

Definition expect (want : byte) (next : stepfn) (s : scanner) (c : byte) : scanner :=
  if (c =? want)%char then keep next c s else scanError s.

Definition scan_step (s : scanner) (c : byte) : scanner :=
  match step s with
  | stateBeginValue => stepBeginValue s c
  | stateBeginValueOrEmpty =>
    if isSpace c then s
    else if (c =? "]")%char then stepEndValue s c
    else stepBeginValue s c
  | stateBeginStringOrEmpty => stepBeginStringOrEmpty s c
  | stateBeginString => stepBeginString s c
  | stateEndValue => stepEndValue s c
  | stateEndTop => stepEndTop s c
  | stateInString =>
    if (c =? dquote)%char then finishString s
    else if (c =? "\")%char then keep stateInStringEsc c s
    else if (b2n c <? 32)%N then scanError s
    else keep stateInString c s
  | stateInStringEsc =>
    if (c =? "b")%char || (c =? "f")%char || (c =? "n")%char || (c =? "r")%char
       || (c =? "t")%char || (c =? "\")%char || (c =? "/")%char || (c =? dquote)%char
    then keep stateInString c s
    else if (c =? "u")%char then keep stateInStringEscU c s
    else scanError s
  | stateInStringEscU => if isHex c then keep stateInStringEscU1 c s else scanError s
  | stateInStringEscU1 => if isHex c then keep stateInStringEscU12 c s else scanError s
  | stateInStringEscU12 => if isHex c then keep stateInStringEscU123 c s else scanError s
  | stateInStringEscU123 => if isHex c then keep stateInString c s else scanError s
  | stateNeg =>
    if (c =? "0")%char then keep state0 c s
    else if in_range c 49 57 then keep state1 c s
    else scanError s
  | state1 => if isDigit c then keep state1 c s else stepState0 s c
  | state0 => stepState0 s c
  | stateDot => if isDigit c then keep stateDot0 c s else scanError s
  | stateDot0 =>
    if isDigit c then keep stateDot0 c s
    else if (c =? "e")%char || (c =? "E")%char then keep stateE c s
    else finishNumber s c
  | stateE =>
    if (c =? "+")%char || (c =? "-")%char then keep stateESign c s
    else stepStateESign s c
  | stateESign => stepStateESign s c
  | stateE0 => if isDigit c then keep stateE0 c s else finishNumber s c
  | stateT => expect "r" stateTr s c
  | stateTr => expect "u" stateTru s c
  | stateTru => if (c =? "e")%char then finish (Bool true) s else scanError s
  | stateF => expect "a" stateFa s c
  | stateFa => expect "l" stateFal s c
  | stateFal => expect "s" stateFals s c
  | stateFals => if (c =? "e")%char then finish (Bool false) s else scanError s
  | stateN => expect "u" stateNu s c
  | stateNu => expect "l" stateNul s c
  | stateNul => if (c =? "l")%char then finish Null s else scanError s
  | stateError => s
  end.

Fixpoint scan (s : scanner) (data : string) : scanner :=
  match data with
  | EmptyString => s
  | String c rest => scan (scan_step s c) rest
  end.

Definition isError (s : scanner) : bool :=
  match step s with
  | stateError => true
  | _ => false
  end.

(** [scanner.eof]: the end of the input, giving the value read. *)
Definition eof (s : scanner) : value + error :=
  if isError s then inr SyntaxError
  else
    let s' := if endTop s then s else scan_step s " "%char in
    if isError s' then inr SyntaxError
    else if endTop s' then
      match top s' with
      | Some v => inl v
      | None => inr SyntaxError
      end
    else inr SyntaxError.

(** [checkValid] together with the value the decoder then reads. *)
Definition checkValid (data : string) : value + error := eof (scan reset data).


(** *** Decoding into Go values ([decode.go])

    [Unmarshal] first checks the whole input, then stores the value in
    the target.  A JSON value of the wrong kind leaves its target as it
    is, decoding goes on, and the first such mismatch is returned at the
    end.  [null] leaves a string as it is and makes a slice nil. *)

Definition store_string (v : value) (cur : string) : string * bool :=
  match v with
  | Str s => (s, true)
  | Null => (cur, true)
  | _ => (cur, false)
  end.

Definition upper (c : byte) : byte :=
  if in_range c 97 122 then n2b (b2n c - 32) else c.

(** [foldRune] on the runes whose fold is an ASCII letter: U+017F folds
    to S and U+212A to K.  Any other rune above 0x7F folds to a rune that
    is again above 0x7F; it stands for its own fold here, which makes no
    difference to the comparison with an ASCII name. *)
Definition foldRune (r : rune) : rune :=
  if (r =? 0x17F)%N then 0x53%N
  else if (r =? 0x212A)%N then 0x4B%N
  else r.

(** [foldName drop s]; [drop] counts the bytes of a decoded rune still
    to be passed over. *)
Fixpoint foldName (drop : nat) (s : string) : string :=
  match s with
  | EmptyString => EmptyString
  | String c rest =>
    match drop with
    | S k => foldName k rest
    | O =>
      if (b2n c <? RuneSelf)%N then String (upper c) (foldName 0 rest)
      else
        let (r, n) := DecodeRune s in
        EncodeRune (foldRune r) ++ foldName (n - 1) rest
    end
  end.

(** A key selects the field tagged [name] when it is the name exactly
    or, failing that, when both fold to the same text. *)
Definition matches_field (name key : string) : bool :=
  (key =? name)%string || (foldName 0 key =? foldName 0 name)%string.

(** The members of an object stored, in their order, into a struct whose
    only field is a string tagged [name]. *)
Fixpoint object_into_field (name : string) (ms : list (string * value))
         (cur : string) : string * bool :=
  match ms with
  | [] => (cur, true)
  | (k, v) :: rest =>
    if matches_field name k then
      let (cur', ok) := store_string v cur in
      let (final, ok') := object_into_field name rest cur' in
      (final, ok && ok')
    else object_into_field name rest cur
  end.

(** [Unmarshal(data, &t)] for [t] a struct whose only field is a string
    tagged [name]; [cur] is the field before the call. *)
Definition Unmarshal_struct (name : string) (data : string) (cur : string)
  : string * option error :=
  match checkValid data with
  | inr e => (cur, Some e)
  | inl Null => (cur, None)
  | inl (Object ms) =>
    let (final, ok) := object_into_field name ms cur in
    (final, if ok then None else Some UnmarshalTypeError)
  | inl _ => (cur, Some UnmarshalTypeError)
  end.

Fixpoint array_into_strings (es : list value) : list string * bool :=
  match es with
  | [] => ([], true)
  | v :: rest =>
    let (s, ok) := store_string v EmptyString in
    let (l, ok') := array_into_strings rest in
    (s :: l, ok && ok')
  end.

(** [Unmarshal(data, &t)] for [t] of type [[]string]. *)
Definition Unmarshal_strings (data : string) (cur : slice string)
  : slice string * option error :=
  match checkValid data with
  | inr e => (cur, Some e)
  | inl Null => (Nil, None)
  | inl (Array es) =>
    let (l, ok) := array_into_strings es in
    (Slice l, if ok then None else Some UnmarshalTypeError)
  | inl _ => (cur, Some UnmarshalTypeError)
  end.

(** *** Encoding ([encode.go], [indent.go]) *)

Definition hex (n : N) : byte :=
  if (n <? 10)%N then n2b (48 + n) else n2b (87 + n).

Definition htmlSafe (c : byte) : bool :=
  in_range c 32 127
  && negb ((c =? dquote)%char || (c =? "&")%char || (c =? "<")%char
           || (c =? ">")%char || (c =? "\")%char).

(** The escape of an ASCII byte that is not written as it is.  Backspace
    and form feed have the short forms [\b] and [\f] (as Go writes them
    from version 1.22 on). *)
Definition escapeByte (c : byte) : string :=
  if (c =? "\")%char || (c =? dquote)%char then String "\" (String c EmptyString)
  else if (b2n c =? 8)%N then "\b"
  else if (b2n c =? 12)%N then "\f"
  else if (b2n c =? 10)%N then "\n"
  else if (b2n c =? 13)%N then "\r"
  else if (b2n c =? 9)%N then "\t"
  else "\u00" ++ String (hex (N.shiftr (b2n c) 4))
                   (String (hex (N.land (b2n c) 0xF)) EmptyString).

(** [appendString] with HTML escaping, without the enclosing quotes.
    [skip] counts the bytes of a decoded rune still ahead, which are
    copied when [copy] holds and passed over otherwise. *)
Fixpoint appendString (skip : nat) (copy : bool) (s : string) : string :=
  match s with
  | EmptyString => EmptyString
  | String c rest =>
    match skip with
    | S k =>
      if copy then String c (appendString k copy rest)
      else appendString k copy rest
    | O =>
      if (b2n c <? RuneSelf)%N then
        if htmlSafe c then String c (appendString 0 true rest)
        else escapeByte c ++ appendString 0 true rest
      else
        let (r, size) := DecodeRune s in
        if (r =? RuneError)%N && (size =? 1)%nat
        then "\ufffd" ++ appendString 0 true rest
        else if (r =? 0x2028)%N || (r =? 0x2029)%N
        then "\u202" ++ String (hex (N.land r 0xF)) (appendString (size - 1) false rest)
        else String c (appendString (size - 1) true rest)
    end
  end.

Definition quote (s : string) : string :=
  String dquote (appendString 0 true s ++ String dquote EmptyString).

Fixpoint join (sep : string) (l : list string) : string :=
  match l with
  | [] => EmptyString
  | [x] => x
  | x :: rest => x ++ sep ++ join sep rest
  end.

(** The compact encoding. *)
Fixpoint encode (v : value) : string :=
  match v with
  | Null => "null"
  | Bool true => "true"
  | Bool false => "false"
  | Number l => l
  | Str s => quote s
  | Array es => "[" ++ join "," (map encode es) ++ "]"
  | Object ms =>
    "{" ++ join "," (map (fun m => quote (fst m) ++ ":" ++ encode (snd m)) ms) ++ "}"
  end.

Fixpoint repeat_string (s : string) (n : nat) : string :=
  match n with
  | O => EmptyString
  | S k => s ++ repeat_string s k
  end.

Definition newline_at (prefix indent : string) (depth : nat) : string :=
  newline ++ prefix ++ repeat_string indent depth.

(** The compact encoding as [Indent] lays it out: each element and each
    member on a line of its own, one [indent] deeper than its container,
    a space after each colon; an empty container stays closed. *)
Fixpoint encode_indent (prefix indent : string) (depth : nat) (v : value) : string :=
  match v with
  | Array ((_ :: _) as es) =>
    "[" ++ newline_at prefix indent (S depth)
        ++ join ("," ++ newline_at prefix indent (S depth))
                (map (encode_indent prefix indent (S depth)) es)
        ++ newline_at prefix indent depth ++ "]"
  | Object ((_ :: _) as ms) =>
    "{" ++ newline_at prefix indent (S depth)
        ++ join ("," ++ newline_at prefix indent (S depth))
                (map (fun m => quote (fst m) ++ ": "
                               ++ encode_indent prefix indent (S depth) (snd m)) ms)
        ++ newline_at prefix indent depth ++ "}"
  | _ => encode v
  end.

(** [Marshal] and [MarshalIndent] of a value built from strings, bools,
    structs and slices: no error arises. *)
Definition Marshal (v : value) : string * option error := (encode v, None).

Definition MarshalIndent (v : value) (prefix indent : string) : string * option error :=
  (encode_indent prefix indent 0 v, None).

End Json.

(** ** fmt *)

Module Fmt.

(** [fmt.Sprintln] of operands already rendered as text: a space between
    operands and a newline at the end. *)
Definition Sprintln (operands : list string) : string :=
  Json.join " " operands ++ newline.

(** The verb [%d] on an [int]. *)
Definition decimal (z : Z) : string := NilZero.string_of_int (Z.to_int z).

(** Text of several lines, as a format string spells it with [\n]. *)
Definition lines (l : list string) : string := Json.join newline l.

End Fmt.

(** ** Flags ([pflag], as [cobra] exposes them) *)

Module Pflag.

Record Flag := mkFlag {
  Name : string;
  Shorthand : string;
  Value : string;
  Usage : string;
  Changed : bool
}.

Definition FlagSet := list Flag.

(** [StringP]: defines a string flag whose value starts as [value]. *)
Definition StringP (fs : FlagSet) (name shorthand value usage : string) : FlagSet :=
  (fs ++ [mkFlag name shorthand value usage false])%list.

Fixpoint Lookup (fs : FlagSet) (name : string) : option Flag :=
  match fs with
  | [] => None
  | f :: rest => if (Name f =? name)%string then Some f else Lookup rest name
  end.

(** [Set]: the value given on the command line replaces the flag's
    value and marks the flag as changed; an undefined flag is an
    error. *)
Fixpoint Set_ (fs : FlagSet) (name value : string) : option FlagSet :=
  match fs with
  | [] => None
  | f :: rest =>
    if (Name f =? name)%string
    then Some (mkFlag (Name f) (Shorthand f) value (Usage f) true :: rest)
    else option_map (cons f) (Set_ rest name value)
  end.

Fixpoint Parse (fs : FlagSet) (given : list (string * string)) : option FlagSet :=
  match given with
  | [] => Some fs
  | (name, value) :: rest =>
    match Set_ fs name value with
    | Some fs' => Parse fs' rest
    | None => None
    end
  end.

(** [GetString]: the value of a defined string flag, or an error. *)
Definition GetString (fs : FlagSet) (name : string) : string * option string :=
  match Lookup fs name with
  | Some f => (Value f, None)
  | None => (EmptyString, Some ("flag accessed but not defined: " ++ name))
  end.

End Pflag.

(** ** The world around the process *)

Record Request := mkRequest {
  URL : string;
  ContentType : string;
  Payload : string
}.

(** What [ioutil.ReadAll(resp.Body)] gives. *)
Inductive ReadResult :=
| ReadOK (data : string)
| ReadFailed (err : string).

Record Response := mkResponse {
  StatusCode : Z;
  Body : ReadResult
}.

(** What [http.Post] gives: an error (no connection, timeout, name not
    resolved, ...) or a response. *)
Inductive PostResult :=
| PostFailed (err : string)
| PostOK (resp : Response).

(** The surroundings of a run: the environment variables ([None] for a
    variable that is not set), the answer of the network to a request
    given the requests made before it, and the text [encoding/json] gives
    its errors. *)
Record Host := mkHost {
  environ : string -> option string;
  network : list Request -> Request -> PostResult;
  errorText : Json.error -> string
}.

(** What a run changes: the writes to standard output and the requests
    made, both oldest first. *)
Record World := mkWorld {
  stdout : list string;
  requests : list Request
}.

(** ** Computations that write, call the network and may exit *)

Inductive outcome (A : Type) : Type :=
| Return (a : A)
| Exited (code : Z).
Arguments Return {A} a.
Arguments Exited {A} code.

Definition M (A : Type) : Type := World -> outcome A * World.

Definition ret {A} (a : A) : M A := fun w => (Return a, w).

Definition bind {A B} (m : M A) (f : A -> M B) : M B :=
  fun w =>
    match m w with
    | (Return a, w') => f a w'
    | (Exited code, w') => (Exited code, w')
    end.

Notation "x <- m ;; k" := (bind m (fun x => k))
  (at level 61, m at next level, right associativity).
Notation "m ;;; k" := (bind m (fun _ => k))
  (at level 61, right associativity).

Module Os.

(** [os.Getenv]: the empty string for a variable that is not set. *)
Definition Getenv (h : Host) (name : string) : string :=
  match environ h name with
  | Some v => v
  | None => EmptyString
  end.

(** [os.Exit]: the process ends at once with this status. *)
Definition Exit {A} (code : Z) : M A := fun w => (Exited code, w).

End Os.

Definition Printf (text : string) : M unit :=
  fun w => (Return tt, mkWorld (stdout w ++ [text]) (requests w)).

Definition Println (operands : list string) : M unit :=
  Printf (Fmt.Sprintln operands).

Definition StatusOK : Z := 200.

(** [http.Post]. *)
Definition Post (h : Host) (url contentType body : string) : M PostResult :=
  fun w =>
    let r := mkRequest url contentType body in
    (Return (network h (requests w) r), mkWorld (stdout w) (requests w ++ [r])).

(** ** The [analise] command (package [cmd]) *)

Record RequestPayload := mkRequestPayload {
  Model : string;
  Prompt : string;
  Stream : bool
}.

Record ResponsePayload := mkResponsePayload {
  Response_ : string
}.

Record TranslationPayload := mkTranslationPayload {
  TranslationPayload_Model : string;
  TranslationPayload_Prompt : string;
  TranslationPayload_Stream : bool
}.

Record TranslationResponse := mkTranslationResponse {
  TranslationResponse_Translation : string
}.

Record ResultItem := mkResultItem {
  Source : string;
  Translation : string
}.

(** The JSON forms the struct tags give. *)
Definition RequestPayload_json (p : RequestPayload) : Json.value :=
  Json.Object [("model", Json.Str (Model p)); ("prompt", Json.Str (Prompt p));
               ("stream", Json.Bool (Stream p))].

Definition TranslationPayload_json (p : TranslationPayload) : Json.value :=
  Json.Object [("model", Json.Str (TranslationPayload_Model p));
               ("prompt", Json.Str (TranslationPayload_Prompt p));
               ("stream", Json.Bool (TranslationPayload_Stream p))].

Definition ResultItem_json (r : ResultItem) : Json.value :=
  Json.Object [("source", Json.Str (Source r)); ("translation", Json.Str (Translation r))].

Definition results_json (results : slice ResultItem) : Json.value :=
  match results with
  | Nil => Json.Null
  | Slice l => Json.Array (map ResultItem_json l)
  end.

Definition Unmarshal_ResponsePayload (data : string) (p : ResponsePayload)
  : ResponsePayload * option Json.error :=
  let (s, err) := Json.Unmarshal_struct "response" data (Response_ p) in
  (mkResponsePayload s, err).

Definition Unmarshal_TranslationResponse (data : string) (p : TranslationResponse)
  : TranslationResponse * option Json.error :=
  let (s, err) := Json.Unmarshal_struct "response" data (TranslationResponse_Translation p) in
  (mkTranslationResponse s, err).

(** [init]: the two flags of the command, both empty by default. *)
Definition analiseCmd_Flags : Pflag.FlagSet :=
  Pflag.StringP
    (Pflag.StringP [] "llm-host" "l" EmptyString
       "The Ollama host URL for the LLM service (default is 'http://localhost:11434/api/generate')")
    "translation-language" "t" EmptyString
    "The language for translation in locale format (default is 'en-US')".

(** Lines 48-59. *)
Definition getLlmHost (h : Host) (flags : Pflag.FlagSet) : M string :=
  let (llmHost, err) := Pflag.GetString flags "llm-host" in
  match err with
  | Some e => Println ["Error retrieving llm-host flag:"; e] ;;; Os.Exit 1
  | None =>
    if (llmHost =? EmptyString)%string then
      let llmHost := Os.Getenv h "STARTER_GO_CLI_LLM_HOST" in
      if (llmHost =? EmptyString)%string then
        let llmHost := "http://localhost:11434/api/generate" in
        Println ["Using default Ollama host:"; llmHost] ;;; ret llmHost
      else ret llmHost
    else ret llmHost
  end.

(** Lines 61-72. *)
Definition getTranslationLanguage (h : Host) (flags : Pflag.FlagSet) : M string :=
  let (translationLanguage, err) := Pflag.GetString flags "translation-language" in
  match err with
  | Some e => Println ["Error retrieving language flag:"; e] ;;; Os.Exit 1
  | None =>
    if (translationLanguage =? EmptyString)%string then
      let translationLanguage := Os.Getenv h "STARTER_GO_CLI_TRANSLATION_LANGUAGE" in
      if (translationLanguage =? EmptyString)%string then
        let translationLanguage := "en-US" in
        Println ["Using default translation language:"; translationLanguage] ;;;
        ret translationLanguage
      else ret translationLanguage
    else ret translationLanguage
  end.

(** Line 74. *)
Definition segmentationPrompt (text : string) : string :=
  Fmt.lines
    [ "Divide the text below into small sections, each representing a particular thought or idea. Use grammar as a basis and avoid creating a section with a single word. You can break a phrase into subject and predicate.";
      EmptyString;
      "Example text:";
      EmptyString;
      "Hey, kannst du mir den heutigen Mittagsmenü schicken? Ich bin gerade total eingebunden bei der Arbeit und schaffe es nicht reinzukommen.";
      EmptyString;
      "Example output:";
      EmptyString;
      "[";
      q "    'Hey',";
      q "    'kannst du mir',";
      q "    'den heutigen Mittagsmenü schicken?',";
      q "    'Ich bin gerade',";
      q "    'total eingebunden',";
      q "    'bei der Arbeit',";
      q "    'und',";
      q "    'schaffe es nicht reinzukommen.'";
      "]";
      EmptyString;
      "Actual text:";
      EmptyString;
      text;
      EmptyString;
      "Actual output:";
      EmptyString;
      "Provide only the JSON array as the output without any additional text or explanation." ].

(** Line 123. *)
Definition translationPrompt (translationLanguage section : string) : string :=
  Fmt.lines
    [ "Translate the following text to " ++ translationLanguage ++ ":";
      EmptyString;
      section;
      EmptyString;
      "Provide only the translation without any additional text or explanation." ].

(** Lines 89-118: from what the segmentation call gave to the sections. *)
Definition decodeSections (h : Host) (posted : PostResult) : M (slice string) :=
  match posted with
  | PostFailed e => Println ["Error making HTTP request:"; e] ;;; Os.Exit 1
  | PostOK resp =>
    match Body resp with
    | ReadFailed e => Println ["Error reading response body:"; e] ;;; Os.Exit 1
    | ReadOK body =>
      if negb (StatusCode resp =? StatusOK)%Z then
        Printf ("Error: received status code " ++ Fmt.decimal (StatusCode resp) ++ newline) ;;;
        Os.Exit 1
      else
        let (responsePayload, err) :=
          Unmarshal_ResponsePayload body (mkResponsePayload EmptyString) in
        match err with
        | Some e => Println ["Error parsing JSON response:"; errorText h e] ;;; Os.Exit 1
        | None =>
          let (sections, err) := Json.Unmarshal_strings (Response_ responsePayload) Nil in
          match err with
          | Some e => Println ["Error parsing response array:"; errorText h e] ;;; Os.Exit 1
          | None => ret sections
          end
        end
    end
  end.

(** Lines 76-118: the segmentation call and the two decodings of its
    answer. *)
Definition requestSections (h : Host) (llmHost text : string) : M (slice string) :=
  let prompt := segmentationPrompt text in
  let payload := mkRequestPayload "llama3" prompt false in
  let (payloadBytes, err) := Json.Marshal (RequestPayload_json payload) in
  match err with
  | Some e => Println ["Error marshalling request payload:"; errorText h e] ;;; Os.Exit 1
  | None =>
    posted <- Post h llmHost "application/json" payloadBytes ;;
    decodeSections h posted
  end.

(** Lines 137-164: from what a translation call gave to the item of the
    section. *)
Definition decodeTranslation (h : Host) (section : string) (posted : PostResult)
  : M ResultItem :=
  match posted with
  | PostFailed e => Println ["Error making HTTP request for translation:"; e] ;;; Os.Exit 1
  | PostOK translationResp =>
    match Body translationResp with
    | ReadFailed e =>
      Println ["Error reading translation response body:"; e] ;;; Os.Exit 1
    | ReadOK translationBody =>
      if negb (StatusCode translationResp =? StatusOK)%Z then
        Printf ("Error: received status code " ++ Fmt.decimal (StatusCode translationResp)
               ++ " for translation" ++ newline) ;;;
        Os.Exit 1
      else
        let (translationResponse, err) :=
          Unmarshal_TranslationResponse translationBody (mkTranslationResponse EmptyString) in
        match err with
        | Some e =>
          Println ["Error parsing translation JSON response:"; errorText h e] ;;; Os.Exit 1
        | None =>
          ret (mkResultItem section (TranslationResponse_Translation translationResponse))
        end
    end
  end.

(** Lines 123-164: the body of the loop, giving the item for one
    section. *)
Definition translate (h : Host) (llmHost translationLanguage section : string)
  : M ResultItem :=
  let translationPrompt := translationPrompt translationLanguage section in
  let translationPayload := mkTranslationPayload "llama3" translationPrompt false in
  let (translationPayloadBytes, err) :=
    Json.Marshal (TranslationPayload_json translationPayload) in
  match err with
  | Some e =>
    Println ["Error marshalling translation request payload:"; errorText h e] ;;; Os.Exit 1
  | None =>
    posted <- Post h llmHost "application/json" translationPayloadBytes ;;
    decodeTranslation h section posted
  end.

(** Lines 122-166: the loop over the sections, in their order. *)
Fixpoint translateAll (h : Host) (llmHost translationLanguage : string)
         (sections : list string) (results : slice ResultItem) : M (slice ResultItem) :=
  match sections with
  | [] => ret results
  | section :: rest =>
    result <- translate h llmHost translationLanguage section ;;
    translateAll h llmHost translationLanguage rest (append results result)
  end.

(** Lines 168-174. *)
Definition printResults (h : Host) (results : slice ResultItem) : M unit :=
  let (resultsJSON, err) := Json.MarshalIndent (results_json results) EmptyString "    " in
  match err with
  | Some e => Println ["Error marshalling final results to JSON:"; errorText h e] ;;; Os.Exit 1
  | None => Println [resultsJSON]
  end.

(** Lines 76-166: from the text to the result list. *)
Definition pipeline (h : Host) (llmHost translationLanguage text : string)
  : M (slice ResultItem) :=
  sections <- requestSections h llmHost text ;;
  translateAll h llmHost translationLanguage (elements sections) Nil.

(** [analiseCmd.Run]; [cobra.ExactArgs(1)] lets it run with one argument
    only. *)
Definition Run (h : Host) (flags : Pflag.FlagSet) (args : list string) : M unit :=
  let text := nth 0 args EmptyString in
  llmHost <- getLlmHost h flags ;;
  translationLanguage <- getTranslationLanguage h flags ;;
  results <- pipeline h llmHost translationLanguage text ;;
  printResults h results.

(** ** cmd/root.go *)

(** A command line [starter-go-cli analise ...] as [cobra] reads it: the
    flags given with their values, and the remaining arguments. *)
Record CommandLine := mkCommandLine {
  givenFlags : list (string * string);
  arguments : list string
}.

(** [Execute]: the exit status of the process and the world it leaves.
    A flag that is not defined, or a number of arguments other than one,
    is reported by [cobra] (on standard error) without running the
    command, and the status is 1.  The help that [cobra] offers by itself
    is left out. *)
Definition Execute (h : Host) (cl : CommandLine) (w : World) : Z * World :=
  match Pflag.Parse analiseCmd_Flags (givenFlags cl) with
  | None => (1%Z, w)
  | Some flags =>
    if (List.length (arguments cl) =? 1)%nat then
      match Run h flags (arguments cl) w with
      | (Return _, w') => (0%Z, w')
      | (Exited code, w') => (code, w')
      end
    else (1%Z, w)
  end.

(** ** Notions used in the statements *)

(** The world [w] after the writes [out] and the requests [reqs]. *)
Definition extend (w : World) (out : list string) (reqs : list Request) : World :=
  mkWorld (stdout w ++ out) (requests w ++ reqs).

(** The world in which nothing has been written or requested. *)
Definition start : World := mkWorld [] [].

(** The endpoint and the language lines 48-72 settle on, and what these
    lines write, read off a run of them. *)
Definition llmHostOf (h : Host) (flags : Pflag.FlagSet) : string :=
  match getLlmHost h flags start with
  | (Return v, _) => v
  | _ => EmptyString
  end.

Definition languageOf (h : Host) (flags : Pflag.FlagSet) : string :=
  match getTranslationLanguage h flags start with
  | (Return v, _) => v
  | _ => EmptyString
  end.

Definition hostNotice (h : Host) (flags : Pflag.FlagSet) : list string :=
  stdout (snd (getLlmHost h flags start)).

Definition languageNotice (h : Host) (flags : Pflag.FlagSet) : list string :=
  stdout (snd (getTranslationLanguage h flags start)).

Definition notices (h : Host) (flags : Pflag.FlagSet) : list string :=
  (hostNotice h flags ++ languageNotice h flags)%list.

(** The two notices. *)
Definition hostNoticeText : string :=
  "Using default Ollama host: http://localhost:11434/api/generate" ++ newline.

Definition languageNoticeText : string :=
  "Using default translation language: en-US" ++ newline.

(** The request of the segmentation call and the request of the
    translation call for a section. *)
Definition segmentationRequest (llmHost text : string) : Request :=
  mkRequest llmHost "application/json"
    (fst (Json.Marshal
            (RequestPayload_json (mkRequestPayload "llama3" (segmentationPrompt text) false)))).

Definition translationRequest (llmHost translationLanguage section : string) : Request :=
  mkRequest llmHost "application/json"
    (fst (Json.Marshal
            (TranslationPayload_json
               (mkTranslationPayload "llama3"
                  (translationPrompt translationLanguage section) false)))).

(** An answer with status 200 and a body that can be read. *)
Definition answers (body : string) : PostResult :=
  PostOK (mkResponse StatusOK (ReadOK body)).

(** The inner text of an envelope, when the envelope decodes. *)
Definition envelopeOf (body : string) : option string :=
  match Unmarshal_ResponsePayload body (mkResponsePayload EmptyString) with
  | (p, None) => Some (Response_ p)
  | (_, Some _) => None
  end.

(** The sections of a segmentation answer, when both decodings succeed. *)
Definition sectionsOf (body : string) : option (slice string) :=
  match envelopeOf body with
  | Some inner =>
    match Json.Unmarshal_strings inner Nil with
    | (sections, None) => Some sections
    | (_, Some _) => None
    end
  | None => None
  end.

(** The translation in a translation answer, when it decodes. *)
Definition translationOf (body : string) : option string :=
  match Unmarshal_TranslationResponse body (mkTranslationResponse EmptyString) with
  | (p, None) => Some (TranslationResponse_Translation p)
  | (_, Some _) => None
  end.

(** [AllTranslated h llmHost lang hist sections items]: after the requests
    [hist], the translation calls for [sections], made one after the
    other, are each answered with status 200 and a body that decodes, and
    [items] pairs each section with the translation received. *)
Inductive AllTranslated (h : Host) (llmHost lang : string)
  : list Request -> list string -> list ResultItem -> Prop :=
| AllTranslated_nil : forall hist, AllTranslated h llmHost lang hist [] []
| AllTranslated_cons : forall hist section rest body t items,
    network h hist (translationRequest llmHost lang section) = answers body ->
    translationOf body = Some t ->
    AllTranslated h llmHost lang
      (hist ++ [translationRequest llmHost lang section]) rest items ->
    AllTranslated h llmHost lang hist (section :: rest) (mkResultItem section t :: items).

(** The diagnostic for a translation answer whose status is not 200. *)
Definition statusDiagnostic (resp : Response) : string :=
  match Body resp with
  | ReadFailed e => Fmt.Sprintln ["Error reading translation response body:"; e]
  | ReadOK _ =>
    "Error: received status code " ++ Fmt.decimal (StatusCode resp)
      ++ " for translation" ++ newline
  end.

(** The slice the loop leaves when it has appended [items] to [results]. *)
Definition appended (results : slice ResultItem) (items : list ResultItem)
  : slice ResultItem :=
  fold_left append items results.

(** An endpoint whose answer to a request does not depend on the requests
    made before. *)
Definition deterministic (net : list Request -> Request -> PostResult) : Prop :=
  forall hist1 hist2 r, net hist1 r = net hist2 r.

(** Following the spec: the output document, a JSON array printed with an
    indentation of four spaces, one object per item with the keys
    [source] and [translation] in this order. *)
Definition spec_item (r : ResultItem) : string :=
  Fmt.lines
    [ "    {";
      q "        'source': " ++ Json.quote (Source r) ++ ",";
      q "        'translation': " ++ Json.quote (Translation r);
      "    }" ].

Definition spec_document (items : list ResultItem) : string :=
  match items with
  | [] => "[]"
  | _ => Fmt.lines ["["; Json.join ("," ++ newline) (map spec_item items); "]"]
  end.

(** Following the spec: the inner text has the syntax of a JSON array of
    strings. *)
Definition spec_array_of_strings (inner : string) : bool :=
  match Json.checkValid inner with
  | inl (Json.Array es) =>
    forallb (fun v => match v with Json.Str _ => true | _ => false end) es
  | _ => false
  end.

(** The inner texts the code takes for a list of sections: [null], and
    the arrays whose elements are strings or [null]. *)
Definition taken_as_sections (inner : string) : bool :=
  match Json.checkValid inner with
  | inl Json.Null => true
  | inl (Json.Array es) =>
    forallb (fun v => match v with Json.Str _ | Json.Null => true | _ => false end) es
  | _ => false
  end.


(** The value of a flag as [GetString] gives it. *)
Definition flagValue (flags : Pflag.FlagSet) (name : string) : string :=
  fst (Pflag.GetString flags name).

(** The value the command line gives to a flag: that of its last
    occurrence, [None] when the flag does not occur. *)
Fixpoint givenValue (given : list (string * string)) (name : string) : option string :=
  match given with
  | [] => None
  | (n, v) :: rest =>
    match givenValue rest name with
    | Some v' => Some v'
    | None => if (n =? name)%string then Some v else None
    end
  end.

(** A lookup in tiers: the first candidate that is not empty, or the
    default when all are empty.  A tier without a value counts as
    empty. *)
Fixpoint firstNonEmpty (candidates : list string) (default : string) : string :=
  match candidates with
  | [] => default
  | c :: rest => if (c =? EmptyString)%string then firstNonEmpty rest default else c
  end.

Definition orEmpty (o : option string) : string :=
  match o with
  | Some v => v
  | None => EmptyString
  end.

(** Flag sets that agree on the names and the values of their flags. *)
Definition same_values (fs1 fs2 : Pflag.FlagSet) : Prop :=
  Forall2 (fun f g => Pflag.Name f = Pflag.Name g /\ Pflag.Value f = Pflag.Value g) fs1 fs2.

(** ** Stub hosts for the concrete runs *)

(** A host without environment variables whose endpoint answers the
    successive requests with the given results, and every later request
    with [PostFailed]. *)
Definition scripted (script : list PostResult) : Host :=
  mkHost (fun _ => None)
         (fun hist _ => nth (List.length hist) script (PostFailed "connection refused"))
         (fun _ => "json: error").

(** The host [h] with the environment variables [env]. *)
Definition withEnv (env : string -> option string) (h : Host) : Host :=
  mkHost env (network h) (errorText h).

(** A host whose endpoint answers by the request alone: the sections
    [a] and [b] to the segmentation request for [text] at [llmHost], and
    the translation [T] to any other request. *)
Definition stateless (llmHost text : string) : Host :=
  mkHost (fun _ => None)
         (fun _ r =>
            if (Payload r =? Payload (segmentationRequest llmHost text))%string
            then answers (q "{'response': '[\'a\',\'b\']'}")
            else answers (q "{'response': 'T'}"))
         (fun _ => "json: error").

(** The environment that sets both variables of the command. *)
Definition bothSet (llmHost lang : string) (name : string) : option string :=
  if (name =? "STARTER_GO_CLI_LLM_HOST")%string then Some llmHost
  else if (name =? "STARTER_GO_CLI_TRANSLATION_LANGUAGE")%string then Some lang
  else None.

(** ** Further notions *)

(** The bodies the code takes for an envelope: [null], and the objects in
    which every member that selects the field [response] holds a string
    or [null]. *)
Definition taken_as_envelope (body : string) : bool :=
  match Json.checkValid body with
  | inl Json.Null => true
  | inl (Json.Object ms) =>
    forallb (fun m =>
               negb (Json.matches_field "response" (fst m))
               || match snd m with Json.Str _ | Json.Null => true | _ => false end) ms
  | _ => false
  end.

(** The sections a run goes on to translate, given what the segmentation
    call gave: those of an answer with status 200 whose body decodes, and
    none otherwise. *)
Definition detectedSections (posted : PostResult) : list string :=
  match posted with
  | PostOK resp =>
    match Body resp with
    | ReadOK body =>
      if (StatusCode resp =? StatusOK)%Z then
        match sectionsOf body with
        | Some sections => elements sections
        | None => []
        end
      else []
    | ReadFailed _ => []
    end
  | PostFailed _ => []
  end.

(** The diagnostics of the network and decoding steps. *)
Inductive Diagnostic (h : Host) : string -> Prop :=
| Diagnostic_post : forall e,
    Diagnostic h ("Error making HTTP request: " ++ e ++ newline)
| Diagnostic_read : forall e,
    Diagnostic h ("Error reading response body: " ++ e ++ newline)
| Diagnostic_status : forall code,
    Diagnostic h ("Error: received status code " ++ Fmt.decimal code ++ newline)
| Diagnostic_envelope : forall e,
    Diagnostic h ("Error parsing JSON response: " ++ errorText h e ++ newline)
| Diagnostic_array : forall e,
    Diagnostic h ("Error parsing response array: " ++ errorText h e ++ newline)
| Diagnostic_translation_post : forall e,
    Diagnostic h ("Error making HTTP request for translation: " ++ e ++ newline)
| Diagnostic_translation_read : forall e,
    Diagnostic h ("Error reading translation response body: " ++ e ++ newline)
| Diagnostic_translation_status : forall code,
    Diagnostic h ("Error: received status code " ++ Fmt.decimal code
                  ++ " for translation" ++ newline)
| Diagnostic_translation_envelope : forall e,
    Diagnostic h ("Error parsing translation JSON response: " ++ errorText h e ++ newline).

(** The kinds of JSON values, and the kind a value must have given the
    byte it starts with. *)
Inductive kind := KNull | KBool | KNumber | KStr | KArray | KObject.

Definition kindOf (v : Json.value) : kind :=
  match v with
  | Json.Null => KNull
  | Json.Bool _ => KBool
  | Json.Number _ => KNumber
  | Json.Str _ => KStr
  | Json.Array _ => KArray
  | Json.Object _ => KObject
  end.

Definition startKind (c : byte) : option kind :=
  if (c =? "{")%char then Some KObject
  else if (c =? "[")%char then Some KArray
  else if (c =? dquote)%char then Some KStr
  else if (c =? "-")%char then Some KNumber
  else if (c =? "0")%char then Some KNumber
  else if (c =? "t")%char then Some KBool
  else if (c =? "f")%char then Some KBool
  else if (c =? "n")%char then Some KNull
  else if in_range c 49 57 then Some KNumber
  else None.

(** The first byte of a text that is not white space. *)
Fixpoint firstNonSpace (s : string) : option byte :=
  match s with
  | EmptyString => None
  | String c rest => if Json.isSpace c then firstNonSpace rest else Some c
  end.

(** What the scanner is reading, when it is past the first byte of a
    value of kind [k]: the kind of the outermost open bracket, the kind of
    the literal at top level, or the kind of the value it has read. *)
Definition frameKind (f : Json.frame) : kind :=
  match f with
  | Json.parseArrayValue _ => KArray
  | _ => KObject
  end.

Fixpoint bottomKind (ps : list Json.frame) : option kind :=
  match ps with
  | [] => None
  | [f] => Some (frameKind f)
  | _ :: rest => bottomKind rest
  end.

Definition literalKind (st : Json.stepfn) : option kind :=
  match st with
  | Json.stateInString | Json.stateInStringEsc | Json.stateInStringEscU
  | Json.stateInStringEscU1 | Json.stateInStringEscU12 | Json.stateInStringEscU123 =>
    Some KStr
  | Json.stateNeg | Json.state1 | Json.state0 | Json.stateDot | Json.stateDot0
  | Json.stateE | Json.stateESign | Json.stateE0 => Some KNumber
  | Json.stateT | Json.stateTr | Json.stateTru | Json.stateF | Json.stateFa
  | Json.stateFal | Json.stateFals => Some KBool
  | Json.stateN | Json.stateNu | Json.stateNul => Some KNull
  | _ => None
  end.

Definition isContainer (k : kind) : bool :=
  match k with
  | KArray | KObject => true
  | _ => false
  end.

Definition reading (k : kind) (s : Json.scanner) : Prop :=
  Json.step s = Json.stateError
  \/ match Json.parseState s with
     | [] =>
       match Json.top s with
       | None => Json.endTop s = false /\ literalKind (Json.step s) = Some k
       | Some v =>
         kindOf v = k
         /\ (Json.step s = Json.stateEndValue /\ Json.endTop s = false
             /\ isContainer k = false
             \/ Json.step s = Json.stateEndTop /\ Json.endTop s = true)
       end
     | ps => bottomKind ps = Some k /\ Json.top s = None /\ Json.endTop s = false
     end.

(** A scanner that has read white space only. *)
Definition fresh (s : Json.scanner) : Prop :=
  Json.step s = Json.stateBeginValue /\ Json.parseState s = []
  /\ Json.top s = None /\ Json.endTop s = false.

(** ** Further notions: well-formed text *)

(** [utf8.ValidString]: the text is a sequence of well-formed encodings.
    [skip] counts the bytes of a decoded rune still ahead. *)
Fixpoint ValidString (skip : nat) (s : string) : bool :=
  match s with
  | EmptyString => true
  | String c rest =>
    match skip with
    | S k => ValidString k rest
    | O =>
      if (b2n c <? Utf8.RuneSelf)%N then ValidString 0 rest
      else
        let (r, size) := Utf8.DecodeRune s in
        if (r =? Utf8.RuneError)%N && (size =? 1)%nat then false
        else ValidString (size - 1) rest
    end
  end.

(** The text with every byte that does not begin a well-formed encoding
    replaced by U+FFFD, as the conversion [string([]rune(s))] gives it.
    [copy] counts the bytes of a decoded rune still to be copied. *)
Fixpoint toValidUTF8 (copy : nat) (s : string) : string :=
  match s with
  | EmptyString => EmptyString
  | String c rest =>
    match copy with
    | S k => String c (toValidUTF8 k rest)
    | O =>
      if (b2n c <? Utf8.RuneSelf)%N then String c (toValidUTF8 0 rest)
      else
        let (r, size) := Utf8.DecodeRune s in
        if (r =? Utf8.RuneError)%N && (size =? 1)%nat
        then Utf8.EncodeRune Utf8.RuneError ++ toValidUTF8 0 rest
        else String c (toValidUTF8 (size - 1) rest)
    end
  end.

(** Continuation bytes. *)
Definition cont (c : byte) : bool := in_range c 0x80 0xBF.

Fixpoint allCont (p : string) : bool :=
  match p with
  | EmptyString => true
  | String c rest => cont c && allCont rest
  end.

(** The bytes of [t] put on a literal that is kept most recent first. *)
Fixpoint push (t : string) (l : list byte) : list byte :=
  match t with
  | EmptyString => l
  | String c rest => push rest (c :: l)
  end.

(** All byte values. *)
Definition allBytes : list byte := map (fun n => n2b (N.of_nat n)) (seq 0 256).

(** The width of the encoding that the first byte announces. *)
Definition width (c : byte) : nat :=
  if (b2n c <? 0xC2)%N then 1
  else if (b2n c <? 0xE0)%N then 2
  else if (b2n c <? 0xF0)%N then 3
  else if (b2n c <? 0xF5)%N then 4
  else 1.

(** The runes U+2028 and U+2029, which the encoder writes as escapes. *)
Definition isLineSep (r : Utf8.rune) : bool := (r =? 0x2028)%N || (r =? 0x2029)%N.

(** [s] does not decode to U+2028 or U+2029, or it is the encoding of its
    rune. *)
Definition lineSepCheck (s : string) : bool :=
  let (r, size) := Utf8.DecodeRune s in
  negb (isLineSep r) || (Utf8.EncodeRune r =? s)%string.

(** The scanner states in which a double quote begins a string. *)
Definition beginsString (st : Json.stepfn) : bool :=
  match st with
  | Json.stateBeginValue | Json.stateBeginValueOrEmpty
  | Json.stateBeginString | Json.stateBeginStringOrEmpty => true
  | _ => false
  end.

(** An item with its two texts made well formed. *)
Definition toValidItem (r : ResultItem) : ResultItem :=
  mkResultItem (toValidUTF8 0 (Source r)) (toValidUTF8 0 (Translation r)).

(** ** Further notions: answers as the encoder writes them *)

(** The body of an answer whose [response] is [t], and the text of a list
    of sections, as [json.Marshal] writes them. *)
Definition envelope (t : string) : string :=
  Json.encode (Json.Object [("response", Json.Str t)]).

Definition arrayText (sections : list string) : string :=
  Json.encode (Json.Array (map Json.Str sections)).

(** A host without environment variables whose endpoint answers as
    [json.Marshal] writes: the list [sections] to the segmentation request
    for [text], and the translation [T s] to the translation request for
    a section [s] of the list. *)
Definition faithful (llmHost lang text : string) (sections : list string)
           (T : string -> string) : Host :=
  mkHost (fun _ => None)
         (fun _ r =>
            if (Payload r =? Payload (segmentationRequest llmHost text))%string
            then answers (envelope (arrayText sections))
            else
              match find (fun s => (Payload r
                                    =? Payload (translationRequest llmHost lang s))%string)
                         sections with
              | Some s => answers (envelope (T s))
              | None => PostFailed "connection refused"
              end)
         (fun _ => "json: error").

(** ** Further notions: what the decoder gives *)

(** The first two bytes [a], [b] of an encoding of three and of four
    bytes are in the ranges that [utf8.DecodeRune] asks for. *)
Definition lead3 (a b : byte) : bool :=
  (0xE0 <=? b2n a)%N && (b2n a <? 0xF0)%N
  && in_range b (if (b2n a =? 0xE0)%N then 0xA0%N else 0x80%N)
                (if (b2n a =? 0xED)%N then 0x9F%N else 0xBF%N).

Definition lead4 (a b : byte) : bool :=
  (0xF0 <=? b2n a)%N && (b2n a <? 0xF5)%N
  && in_range b (if (b2n a =? 0xF0)%N then 0x90%N else 0x80%N)
                (if (b2n a =? 0xF4)%N then 0x8F%N else 0xBF%N).

(** The numbers below [k]. *)
Definition below (k : nat) : list N := map N.of_nat (seq 0 k).

(** Every string of a value, keys included, is well formed; so for the
    parts of containers that the scanner holds. *)
Fixpoint validValue (v : Json.value) : bool :=
  match v with
  | Json.Str s => ValidString 0 s
  | Json.Array es => forallb validValue es
  | Json.Object ms => forallb (fun m => ValidString 0 (fst m) && validValue (snd m)) ms
  | _ => true
  end.

Definition validMember (m : string * Json.value) : bool :=
  ValidString 0 (fst m) && validValue (snd m).

Definition validKey (k : option string) : bool :=
  match k with
  | Some k => ValidString 0 k
  | None => true
  end.

Definition validFrame (f : Json.frame) : bool :=
  match f with
  | Json.parseObjectKey ms k | Json.parseObjectValue ms k =>
    forallb validMember ms && validKey k
  | Json.parseArrayValue es => forallb validValue es
  end.

Definition validTop (t : option Json.value) : bool :=
  match t with
  | Some v => validValue v
  | None => true
  end.

Definition validScanner (s : Json.scanner) : bool :=
  forallb validFrame (Json.parseState s) && validTop (Json.top s).

(** * Properties *)

(** ** The runtime on examples *)

Example utf8_two_bytes :
  Utf8.DecodeRune "ü" = (252%N, 2%nat) /\ Utf8.EncodeRune 252%N = "ü".
Proof. split; reflexivity. Qed.

Example utf8_ill_formed :
  Utf8.DecodeRune (String (n2b 0xC3) "x") = (Utf8.RuneError, 1%nat)
  /\ Utf8.DecodeRune (String (n2b 0xED) (String (n2b 0xA0) (String (n2b 0x80) EmptyString)))
     = (Utf8.RuneError, 1%nat).
Proof. split; reflexivity. Qed.

Example scan_envelope :
  Json.checkValid (q "{'response': '[\'a\',\'b\']'}")
  = inl (Json.Object [("response", Json.Str (q "['a','b']"))]).
Proof. vm_compute. reflexivity. Qed.

Example scan_nested :
  Json.checkValid (q " [1, -2.5e+3, true, null, {'k': []}] ")
  = inl (Json.Array [Json.Number "1"; Json.Number "-2.5e+3"; Json.Bool true; Json.Null;
                     Json.Object [("k", Json.Array [])]]).
Proof. vm_compute. reflexivity. Qed.

Example scan_rejects :
  map Json.checkValid
      [EmptyString; "not json"; "[1,]"; q "{'a' 1}"; "01"; "1 2"; q "'open"; "tru";
       q "'\x'"; "[1"; "nul"]
  = repeat (inr Json.SyntaxError) 11.
Proof. vm_compute. reflexivity. Qed.

Example unquote_escapes :
  Json.checkValid (q "'a\n\u00e9\ud83d\ude00\ud800z\/'")
  = inl (Json.Str ("a" ++ newline ++ "é😀" ++ Utf8.EncodeRune Utf8.RuneError ++ "z/")).
Proof. vm_compute. reflexivity. Qed.

Example unmarshal_envelope_keys :
  map (fun data => Json.Unmarshal_struct "response" data EmptyString)
      [ q "{'response': 'x'}"; q "{'RESPONSE': 'x', 'other': 1}";
        q "{'response': 'x', 'response': 'y'}"; q "{'response': null}"; "{}"; "null" ]
  = [ ("x", None); ("x", None); ("y", None); (EmptyString, None); (EmptyString, None);
      (EmptyString, None) ].
Proof. vm_compute. reflexivity. Qed.

Example unmarshal_envelope_mismatch :
  map (fun data => snd (Json.Unmarshal_struct "response" data EmptyString))
      [ q "{'response': 5}"; "[]"; q "'text'"; "7"; "{" ]
  = [ Some Json.UnmarshalTypeError; Some Json.UnmarshalTypeError;
      Some Json.UnmarshalTypeError; Some Json.UnmarshalTypeError; Some Json.SyntaxError ].
Proof. vm_compute. reflexivity. Qed.

Example unmarshal_sections :
  map (fun data => Json.Unmarshal_strings data Nil)
      [ q "['a', 'b']"; "[]"; "null"; q "['a', null]" ]
  = [ (Slice ["a"; "b"], None); (Slice [], None); (Nil, None);
      (Slice ["a"; EmptyString], None) ].
Proof. vm_compute. reflexivity. Qed.

Example unmarshal_sections_errors :
  map (fun data => snd (Json.Unmarshal_strings data Nil))
      [ "not json"; EmptyString; q "['a', 1]"; "{}"; q "'a'"; q "Here you go: ['a']" ]
  = [ Some Json.SyntaxError; Some Json.SyntaxError; Some Json.UnmarshalTypeError;
      Some Json.UnmarshalTypeError; Some Json.UnmarshalTypeError; Some Json.SyntaxError ].
Proof. vm_compute. reflexivity. Qed.

Example marshal_escapes :
  Json.encode (Json.Str (q "a'<b>&c\" ++ newline))
  = q "'a\'\u003cb\u003e\u0026c\\\n'".
Proof. vm_compute. reflexivity. Qed.

Example marshal_results :
  Json.encode_indent EmptyString "    " 0 (results_json Nil) = "null"
  /\ Json.encode_indent EmptyString "    " 0 (results_json (Slice [])) = "[]"
  /\ Json.encode_indent EmptyString "    " 0 (results_json (Slice [mkResultItem "a" "A"]))
     = Fmt.lines
         [ "[";
           "    {";
           q "        'source': 'a',";
           q "        'translation': 'A'";
           "    }";
           "]" ].
Proof. vm_compute. repeat split. Qed.

Example request_payload :
  Payload (translationRequest "http://x" "en-US" "Guten Tag")
  = q "{'model':'llama3','prompt':'Translate the following text to en-US:\n\nGuten Tag\n\nProvide only the translation without any additional text or explanation.','stream':false}".
Proof. vm_compute. reflexivity. Qed.

Example status_line :
  statusDiagnostic (mkResponse 404 (ReadOK "not found"))
  = "Error: received status code 404 for translation" ++ newline.
Proof. reflexivity. Qed.

(** ** Worlds *)

Lemma extend_nil (w : World) : extend w [] [] = w.
Proof.
  destruct w as [out reqs]. unfold extend. simpl.
  now rewrite !app_nil_r.
Qed.

Lemma extend_extend (w : World) (o1 o2 : list string) (r1 r2 : list Request) :
  extend (extend w o1 r1) o2 r2 = extend w (o1 ++ o2) (r1 ++ r2).
Proof.
  unfold extend. simpl. now rewrite !app_assoc.
Qed.

Lemma requests_extend (w : World) (out : list string) (reqs : list Request) :
  requests (extend w out reqs) = (requests w ++ reqs)%list.
Proof. reflexivity. Qed.

Lemma requests_extend_out (w : World) (out : list string) :
  requests (extend w out []) = requests w.
Proof. unfold extend. simpl. apply app_nil_r. Qed.

(** Two descriptions of a world agree once the extensions are merged. *)
Ltac same_world :=
  rewrite ?extend_extend; cbn [app]; rewrite ?app_nil_r, <- ?app_assoc; cbn [app];
  reflexivity.

(** The goal of a failing step: status 1 and one line that starts with
    [Error]. *)
Ltac exited :=
  intros [= <- <-]; split; [reflexivity|];
  eexists; split; [|reflexivity]; reflexivity.

(** ** The monad *)

Lemma bind_Return {A B} (m : M A) (f : A -> M B) (w w' : World) (a : A) :
  m w = (Return a, w') -> bind m f w = f a w'.
Proof. intros H. unfold bind. now rewrite H. Qed.

Lemma bind_Exited {A B} (m : M A) (f : A -> M B) (w w' : World) (code : Z) :
  m w = (Exited code, w') -> bind m f w = (Exited code, w').
Proof. intros H. unfold bind. now rewrite H. Qed.

Lemma ret_run {A} (a : A) (w : World) : ret a w = (Return a, extend w [] []).
Proof. now rewrite extend_nil. Qed.

Lemma Printf_Exit_run {A} (text : string) (code : Z) (w : World) :
  (Printf text ;;; @Os.Exit A code) w = (Exited code, extend w [text] []).
Proof.
  unfold bind, Printf, Os.Exit, extend. simpl. now rewrite app_nil_r.
Qed.

Lemma Println_Exit_run {A} (operands : list string) (code : Z) (w : World) :
  (Println operands ;;; @Os.Exit A code) w
  = (Exited code, extend w [Fmt.Sprintln operands] []).
Proof. apply Printf_Exit_run. Qed.

Lemma Println_ret_run {A} (operands : list string) (a : A) (w : World) :
  (Println operands ;;; ret a) w = (Return a, extend w [Fmt.Sprintln operands] []).
Proof.
  unfold bind, Println, Printf, ret, extend. simpl. now rewrite app_nil_r.
Qed.

Lemma Post_run (h : Host) (url contentType body : string) (w : World) :
  Post h url contentType body w
  = (Return (network h (requests w) (mkRequest url contentType body)),
     extend w [] [mkRequest url contentType body]).
Proof. unfold Post, extend. now rewrite app_nil_r. Qed.

(** ** Flags *)

Lemma Set_names (fs fs' : Pflag.FlagSet) (name value : string) :
  Pflag.Set_ fs name value = Some fs' ->
  map Pflag.Name fs' = map Pflag.Name fs.
Proof.
  revert fs'. induction fs as [|f rest IH]; intros fs' H; simpl in H.
  - discriminate.
  - destruct (Pflag.Name f =? name)%string.
    + injection H as <-. reflexivity.
    + destruct (Pflag.Set_ rest name value) as [rest'|]; simpl in H; [|discriminate].
      injection H as <-. simpl. f_equal. now apply IH.
Qed.

Lemma Parse_names (given : list (string * string)) (fs fs' : Pflag.FlagSet) :
  Pflag.Parse fs given = Some fs' ->
  map Pflag.Name fs' = map Pflag.Name fs.
Proof.
  revert fs. induction given as [|[name value] rest IH]; intros fs H; simpl in H.
  - now injection H as <-.
  - destruct (Pflag.Set_ fs name value) as [fs1|] eqn:E; [|discriminate].
    rewrite (IH _ H). eapply Set_names; eassumption.
Qed.

Lemma Lookup_names (fs fs' : Pflag.FlagSet) (name : string) :
  map Pflag.Name fs' = map Pflag.Name fs ->
  Pflag.Lookup fs name <> None -> Pflag.Lookup fs' name <> None.
Proof.
  revert fs'. induction fs as [|f rest IH]; intros [|f' rest'] E H; simpl in *;
    try discriminate; try congruence.
  injection E as E1 E2. rewrite E1.
  destruct (Pflag.Name f =? name)%string; [discriminate|].
  now apply IH.
Qed.

(** Both flags of the command are defined whatever the command line. *)
Lemma Parse_defined (given : list (string * string)) (flags : Pflag.FlagSet) :
  Pflag.Parse analiseCmd_Flags given = Some flags ->
  Pflag.Lookup flags "llm-host" <> None
  /\ Pflag.Lookup flags "translation-language" <> None.
Proof.
  intros H. apply Parse_names in H.
  split; (eapply Lookup_names; [exact H | discriminate]).
Qed.

(** ** Lines 48-72: endpoint and language *)

Lemma getLlmHost_run (h : Host) (flags : Pflag.FlagSet) (w : World) :
  Pflag.Lookup flags "llm-host" <> None ->
  getLlmHost h flags w = (Return (llmHostOf h flags), extend w (hostNotice h flags) []).
Proof.
  intros D. unfold llmHostOf, hostNotice, getLlmHost, Pflag.GetString.
  destruct (Pflag.Lookup flags "llm-host") as [f|]; [clear D|congruence].
  cbv zeta.
  destruct (Pflag.Value f =? EmptyString)%string.
  - destruct (Os.Getenv h "STARTER_GO_CLI_LLM_HOST" =? EmptyString)%string.
    + apply Println_ret_run.
    + apply ret_run.
  - apply ret_run.
Qed.

Lemma getTranslationLanguage_run (h : Host) (flags : Pflag.FlagSet) (w : World) :
  Pflag.Lookup flags "translation-language" <> None ->
  getTranslationLanguage h flags w
  = (Return (languageOf h flags), extend w (languageNotice h flags) []).
Proof.
  intros D. unfold languageOf, languageNotice, getTranslationLanguage, Pflag.GetString.
  destruct (Pflag.Lookup flags "translation-language") as [f|]; [clear D|congruence].
  cbv zeta.
  destruct (Pflag.Value f =? EmptyString)%string.
  - destruct (Os.Getenv h "STARTER_GO_CLI_TRANSLATION_LANGUAGE" =? EmptyString)%string.
    + apply Println_ret_run.
    + apply ret_run.
  - apply ret_run.
Qed.

(** [Run] is the pipeline and the printing of its result, after the
    notices. *)
Lemma Run_pipeline (h : Host) (flags : Pflag.FlagSet) (text : string) (w : World) :
  Pflag.Lookup flags "llm-host" <> None ->
  Pflag.Lookup flags "translation-language" <> None ->
  Run h flags [text] w
  = (results <- pipeline h (llmHostOf h flags) (languageOf h flags) text ;;
     printResults h results) (extend w (notices h flags) []).
Proof.
  intros D1 D2. unfold Run.
  erewrite bind_Return by (apply getLlmHost_run; assumption).
  erewrite bind_Return by (apply getTranslationLanguage_run; assumption).
  unfold notices. rewrite <- (app_nil_r (@nil Request)) at 3.
  now rewrite <- extend_extend.
Qed.

Lemma Execute_Run (h : Host) (given : list (string * string)) (flags : Pflag.FlagSet)
      (text : string) (w : World) :
  Pflag.Parse analiseCmd_Flags given = Some flags ->
  Execute h (mkCommandLine given [text]) w
  = match Run h flags [text] w with
    | (Return _, w') => (0%Z, w')
    | (Exited code, w') => (code, w')
    end.
Proof. intros P. unfold Execute. simpl. now rewrite P. Qed.

(** ** Lines 76-118: segmentation *)

Lemma requestSections_run (h : Host) (llmHost text : string) (w : World) :
  requestSections h llmHost text w
  = decodeSections h (network h (requests w) (segmentationRequest llmHost text))
      (extend w [] [segmentationRequest llmHost text]).
Proof.
  unfold requestSections, Json.Marshal. cbv zeta iota.
  erewrite bind_Return by apply Post_run. reflexivity.
Qed.

Lemma decodeSections_transport (h : Host) (e : string) (w : World) :
  decodeSections h (PostFailed e) w
  = (Exited 1, extend w [Fmt.Sprintln ["Error making HTTP request:"; e]] []).
Proof. apply Println_Exit_run. Qed.

Lemma decodeSections_ok (h : Host) (body : string) (sections : slice string) (w : World) :
  sectionsOf body = Some sections ->
  decodeSections h (answers body) w = (Return sections, extend w [] []).
Proof.
  unfold sectionsOf, envelopeOf, decodeSections, answers. cbn [Body StatusCode].
  rewrite Z.eqb_refl. cbn [negb].
  destruct (Unmarshal_ResponsePayload body (mkResponsePayload EmptyString)) as [p [e|]];
    [discriminate|].
  destruct (Json.Unmarshal_strings (Response_ p) Nil) as [s [e|]]; [discriminate|].
  intros [= <-]. apply ret_run.
Qed.

Lemma decodeSections_array_error (h : Host) (body inner : string) (s : slice string)
      (e : Json.error) (w : World) :
  envelopeOf body = Some inner ->
  Json.Unmarshal_strings inner Nil = (s, Some e) ->
  decodeSections h (answers body) w
  = (Exited 1,
     extend w [Fmt.Sprintln ["Error parsing response array:"; errorText h e]] []).
Proof.
  unfold envelopeOf, decodeSections, answers. cbn [Body StatusCode].
  rewrite Z.eqb_refl. cbn [negb].
  destruct (Unmarshal_ResponsePayload body (mkResponsePayload EmptyString)) as [p [e'|]];
    [discriminate|].
  intros [= <-] ->. apply Println_Exit_run.
Qed.

(** Whatever the call gave, the decoding ends in a result and some
    writes that do not depend on the world. *)
Lemma decodeSections_pure (h : Host) (posted : PostResult) :
  exists r out, forall w, decodeSections h posted w = (r, extend w out []).
Proof.
  unfold decodeSections.
  destruct posted as [e|[code [body|e]]]; cbn [Body StatusCode].
  - eexists _, _. intros w. apply Println_Exit_run.
  - destruct (negb (code =? StatusOK)%Z).
    + eexists _, _. intros w. apply Printf_Exit_run.
    + destruct (Unmarshal_ResponsePayload body (mkResponsePayload EmptyString)) as [p [e|]].
      * eexists _, _. intros w. apply Println_Exit_run.
      * destruct (Json.Unmarshal_strings (Response_ p) Nil) as [s [e|]].
        -- eexists _, _. intros w. apply Println_Exit_run.
        -- eexists _, _. intros w. apply ret_run.
  - eexists _, _. intros w. apply Println_Exit_run.
Qed.

(** The decoding returns only for an answer with status 200 whose body
    decodes, and then writes nothing. *)
Lemma decodeSections_Return (h : Host) (posted : PostResult) (sections : slice string)
      (w w' : World) :
  decodeSections h posted w = (Return sections, w') ->
  w' = w /\ exists body, posted = answers body /\ sectionsOf body = Some sections.
Proof.
  unfold decodeSections, sectionsOf, envelopeOf.
  destruct posted as [e|[code [body|e]]]; cbn [Body StatusCode].
  - rewrite Println_Exit_run. discriminate.
  - destruct (code =? StatusOK)%Z eqn:C; cbn [negb].
    + apply Z.eqb_eq in C. subst code.
      destruct (Unmarshal_ResponsePayload body (mkResponsePayload EmptyString)) as [p [e|]]
        eqn:U.
      * rewrite Println_Exit_run. discriminate.
      * destruct (Json.Unmarshal_strings (Response_ p) Nil) as [s [e|]] eqn:V.
        -- rewrite Println_Exit_run. discriminate.
        -- unfold ret. intros [= <- <-]. split; [reflexivity|].
           exists body. split; [reflexivity|]. now rewrite U, V.
    + rewrite Printf_Exit_run. discriminate.
  - rewrite Println_Exit_run. discriminate.
Qed.

(** A failure of the decoding ends the process with status 1 after one
    write, a line that starts with [Error]. *)
Lemma decodeSections_Exited (h : Host) (posted : PostResult) (code : Z) (w w' : World) :
  decodeSections h posted w = (Exited code, w') ->
  code = 1%Z
  /\ exists diagnostic,
      String.prefix "Error" diagnostic = true /\ w' = extend w [diagnostic] [].
Proof.
  unfold decodeSections.
  destruct posted as [e|[c [body|e]]]; cbn [Body StatusCode].
  - rewrite Println_Exit_run. exited.
  - destruct (negb (c =? StatusOK)%Z).
    + rewrite Printf_Exit_run. exited.
    + destruct (Unmarshal_ResponsePayload body (mkResponsePayload EmptyString)) as [p [e|]].
      * rewrite Println_Exit_run. exited.
      * destruct (Json.Unmarshal_strings (Response_ p) Nil) as [s [e|]].
        -- rewrite Println_Exit_run. exited.
        -- discriminate.
  - rewrite Println_Exit_run. exited.
Qed.

(** ** Lines 122-166: translation *)

Lemma translate_run (h : Host) (llmHost lang section : string) (w : World) :
  translate h llmHost lang section w
  = decodeTranslation h section
      (network h (requests w) (translationRequest llmHost lang section))
      (extend w [] [translationRequest llmHost lang section]).
Proof.
  unfold translate, Json.Marshal. cbv zeta iota.
  erewrite bind_Return by apply Post_run. reflexivity.
Qed.

Lemma decodeTranslation_ok (h : Host) (section body t : string) (w : World) :
  translationOf body = Some t ->
  decodeTranslation h section (answers body) w
  = (Return (mkResultItem section t), extend w [] []).
Proof.
  unfold translationOf, decodeTranslation, answers. cbn [Body StatusCode].
  rewrite Z.eqb_refl. cbn [negb].
  destruct (Unmarshal_TranslationResponse body (mkTranslationResponse EmptyString))
    as [p [e|]]; [discriminate|].
  intros [= <-]. apply ret_run.
Qed.


Lemma decodeTranslation_pure (h : Host) (section : string) (posted : PostResult) :
  exists r out, forall w, decodeTranslation h section posted w = (r, extend w out []).
Proof.
  unfold decodeTranslation.
  destruct posted as [e|[code [body|e]]]; cbn [Body StatusCode].
  - eexists _, _. intros w. apply Println_Exit_run.
  - destruct (negb (code =? StatusOK)%Z).
    + eexists _, _. intros w. apply Printf_Exit_run.
    + destruct (Unmarshal_TranslationResponse body (mkTranslationResponse EmptyString))
        as [p [e|]].
      * eexists _, _. intros w. apply Println_Exit_run.
      * eexists _, _. intros w. apply ret_run.
  - eexists _, _. intros w. apply Println_Exit_run.
Qed.

Lemma decodeTranslation_Return (h : Host) (section : string) (posted : PostResult)
      (item : ResultItem) (w w' : World) :
  decodeTranslation h section posted w = (Return item, w') ->
  w' = w /\ exists body t,
      posted = answers body /\ translationOf body = Some t /\ item = mkResultItem section t.
Proof.
  unfold decodeTranslation, translationOf.
  destruct posted as [e|[code [body|e]]]; cbn [Body StatusCode].
  - rewrite Println_Exit_run. discriminate.
  - destruct (code =? StatusOK)%Z eqn:C; cbn [negb].
    + apply Z.eqb_eq in C. subst code.
      destruct (Unmarshal_TranslationResponse body (mkTranslationResponse EmptyString))
        as [p [e|]] eqn:U.
      * rewrite Println_Exit_run. discriminate.
      * unfold ret. intros [= <- <-]. split; [reflexivity|].
        exists body, (TranslationResponse_Translation p).
        rewrite U. auto.
    + rewrite Printf_Exit_run. discriminate.
  - rewrite Println_Exit_run. discriminate.
Qed.

Lemma decodeTranslation_Exited (h : Host) (section : string) (posted : PostResult)
      (code : Z) (w w' : World) :
  decodeTranslation h section posted w = (Exited code, w') ->
  code = 1%Z
  /\ exists diagnostic,
      String.prefix "Error" diagnostic = true /\ w' = extend w [diagnostic] [].
Proof.
  unfold decodeTranslation.
  destruct posted as [e|[c [body|e]]]; cbn [Body StatusCode].
  - rewrite Println_Exit_run. exited.
  - destruct (negb (c =? StatusOK)%Z).
    + rewrite Printf_Exit_run. exited.
    + destruct (Unmarshal_TranslationResponse body (mkTranslationResponse EmptyString))
        as [p [e|]].
      * rewrite Println_Exit_run. exited.
      * discriminate.
  - rewrite Println_Exit_run. exited.
Qed.

Lemma translateAll_cons (h : Host) (llmHost lang section : string) (rest : list string)
      (results : slice ResultItem) (w : World) :
  translateAll h llmHost lang (section :: rest) results w
  = (result <- decodeTranslation h section
                 (network h (requests w) (translationRequest llmHost lang section)) ;;
     translateAll h llmHost lang rest (append results result))
      (extend w [] [translationRequest llmHost lang section]).
Proof.
  simpl translateAll. unfold bind at 1. rewrite translate_run. reflexivity.
Qed.

(** When every call is answered well, the loop returns the results
    extended by the items, in the order of the sections, after one
    request per section and no write. *)
Lemma translateAll_ok (h : Host) (llmHost lang : string) (sections : list string)
      (items : list ResultItem) :
  forall (results : slice ResultItem) (w : World),
    AllTranslated h llmHost lang (requests w) sections items ->
    translateAll h llmHost lang sections results w
    = (Return (appended results items),
       extend w [] (map (translationRequest llmHost lang) sections)).
Proof.
  revert items. induction sections as [|section rest IH]; intros items results w T.
  - inversion T; subst. apply ret_run.
  - inversion T as [|hist s r body t items' N D T']; subst.
    rewrite translateAll_cons, N.
    erewrite bind_Return by (apply decodeTranslation_ok; eassumption).
    rewrite extend_extend. cbn [app].
    rewrite IH with (items := items').
    + rewrite extend_extend. reflexivity.
    + now rewrite requests_extend.
Qed.

(** When the calls for [before] are answered well and the decoding of the
    next answer exits, the loop exits there: no call is made for the
    sections after it. *)
Lemma translateAll_exits (h : Host) (llmHost lang : string) (before : list string)
      (section : string) (after : list string) (code : Z) (out : list string) :
  forall (items : list ResultItem) (results : slice ResultItem) (w : World),
    AllTranslated h llmHost lang (requests w) before items ->
    (forall w',
        decodeTranslation h section
          (network h (requests w ++ map (translationRequest llmHost lang) before)
             (translationRequest llmHost lang section)) w'
        = (Exited code, extend w' out [])) ->
    translateAll h llmHost lang (before ++ section :: after) results w
    = (Exited code,
       extend w out (map (translationRequest llmHost lang) (before ++ [section]))).
Proof.
  induction before as [|s rest IH]; intros items results w T F.
  - cbn [app map] in *. rewrite app_nil_r in F.
    rewrite translateAll_cons.
    erewrite bind_Exited by apply F.
    now rewrite extend_extend.
  - inversion T as [|hist s' r body t items' N D T']; subst.
    cbn [app map] in *.
    rewrite translateAll_cons, N.
    erewrite bind_Return by (apply decodeTranslation_ok; eassumption).
    rewrite extend_extend. cbn [app].
    rewrite IH with (items := items').
    + rewrite extend_extend. reflexivity.
    + now rewrite requests_extend.
    + intros w'. rewrite requests_extend, <- app_assoc. apply F.
Qed.

(** The loop returns only when every call was answered well. *)
Lemma translateAll_Return (h : Host) (llmHost lang : string) (sections : list string) :
  forall (results rs : slice ResultItem) (w w' : World),
    translateAll h llmHost lang sections results w = (Return rs, w') ->
    exists items,
      AllTranslated h llmHost lang (requests w) sections items
      /\ rs = appended results items
      /\ w' = extend w [] (map (translationRequest llmHost lang) sections).
Proof.
  induction sections as [|section rest IH]; intros results rs w w' R.
  - cbn [translateAll] in R. unfold ret in R. injection R as <- <-.
    exists []. repeat split; [constructor|]. cbn [map]. now rewrite extend_nil.
  - rewrite translateAll_cons in R. unfold bind in R.
    destruct (decodeTranslation h section _ _) as [[item|code] w1] eqn:D; [|discriminate].
    apply decodeTranslation_Return in D as (-> & body & t & N & Tr & ->).
    apply IH in R as (items & T & -> & ->).
    exists (mkResultItem section t :: items). split; [|split].
    + econstructor; try eassumption.
    + reflexivity.
    + now rewrite extend_extend.
Qed.

(** The loop exits with status 1 only, after the requests for the
    sections up to the failing one and a single write, a line that starts
    with [Error]. *)
Lemma translateAll_Exited (h : Host) (llmHost lang : string) (sections : list string) :
  forall (results : slice ResultItem) (code : Z) (w w' : World),
    translateAll h llmHost lang sections results w = (Exited code, w') ->
    code = 1%Z
    /\ exists diagnostic n,
        String.prefix "Error" diagnostic = true
        /\ w' = extend w [diagnostic]
                  (map (translationRequest llmHost lang) (firstn n sections)).
Proof.
  induction sections as [|section rest IH]; intros results code w w' R.
  - discriminate.
  - rewrite translateAll_cons in R. unfold bind in R.
    destruct (decodeTranslation h section _ _) as [[item|c] w1] eqn:D.
    + apply decodeTranslation_Return in D as (-> & _).
      apply IH in R as (-> & d & n & Pre & ->). split; [reflexivity|].
      exists d, (S n). split; [exact Pre|]. now rewrite extend_extend.
    + injection R as <- <-.
      apply decodeTranslation_Exited in D as (-> & d & Pre & ->). split; [reflexivity|].
      exists d, 1%nat. split; [exact Pre|]. now rewrite extend_extend.
Qed.

(** Against a deterministic endpoint the loop gives a result, writes and
    requests that do not depend on the world it starts in. *)
Lemma translateAll_pure (h : Host) (llmHost lang : string) (sections : list string) :
  deterministic (network h) ->
  forall results,
    exists r out reqs,
    forall w, translateAll h llmHost lang sections results w = (r, extend w out reqs).
Proof.
  intros Det. induction sections as [|section rest IH]; intros results.
  - eexists _, _, _. intros w. apply ret_run.
  - destruct (decodeTranslation_pure h section
                (network h [] (translationRequest llmHost lang section)))
      as ([item|code] & out & D).
    + destruct (IH (append results item)) as (r & out' & reqs & T).
      eexists _, _, _. intros w.
      rewrite translateAll_cons, (Det _ []).
      erewrite bind_Return by apply D.
      rewrite T, !extend_extend. reflexivity.
    + eexists _, _, _. intros w.
      rewrite translateAll_cons, (Det _ []).
      erewrite bind_Exited by apply D.
      rewrite extend_extend. reflexivity.
Qed.

(** ** Lines 168-174 and the whole run *)

Lemma printResults_run (h : Host) (results : slice ResultItem) (w : World) :
  printResults h results w
  = (Return tt,
     extend w [Json.encode_indent EmptyString "    " 0 (results_json results) ++ newline] []).
Proof.
  unfold printResults, Json.MarshalIndent, Println, Printf, Fmt.Sprintln, extend.
  cbn [Json.join stdout requests]. now rewrite app_nil_r.
Qed.

Lemma pipeline_run (h : Host) (llmHost lang text : string) (w : World) :
  pipeline h llmHost lang text w
  = (sections <- decodeSections h
                   (network h (requests w) (segmentationRequest llmHost text)) ;;
     translateAll h llmHost lang (elements sections) Nil)
      (extend w [] [segmentationRequest llmHost text]).
Proof.
  unfold pipeline. unfold bind at 1. rewrite requestSections_run. reflexivity.
Qed.

(** When the segmentation answer decodes and every translation call is
    answered well, the pipeline returns one item per section, in order. *)
Lemma pipeline_ok (h : Host) (llmHost lang text body : string) (sections : slice string)
      (items : list ResultItem) (w : World) :
  network h (requests w) (segmentationRequest llmHost text) = answers body ->
  sectionsOf body = Some sections ->
  AllTranslated h llmHost lang (requests w ++ [segmentationRequest llmHost text])
    (elements sections) items ->
  pipeline h llmHost lang text w
  = (Return (appended Nil items),
     extend w [] (segmentationRequest llmHost text
                    :: map (translationRequest llmHost lang) (elements sections))).
Proof.
  intros N S T. rewrite pipeline_run, N.
  erewrite bind_Return by (apply decodeSections_ok; eassumption).
  rewrite extend_extend. cbn [app].
  rewrite translateAll_ok with (items := items).
  - now rewrite extend_extend.
  - exact T.
Qed.

Lemma Run_ok (h : Host) (flags : Pflag.FlagSet) (text body : string)
      (sections : slice string) (items : list ResultItem) (w : World) :
  Pflag.Lookup flags "llm-host" <> None ->
  Pflag.Lookup flags "translation-language" <> None ->
  network h (requests w) (segmentationRequest (llmHostOf h flags) text) = answers body ->
  sectionsOf body = Some sections ->
  AllTranslated h (llmHostOf h flags) (languageOf h flags)
    (requests w ++ [segmentationRequest (llmHostOf h flags) text])
    (elements sections) items ->
  Run h flags [text] w
  = (Return tt,
     extend w
       (notices h flags
          ++ [Json.encode_indent EmptyString "    " 0 (results_json (appended Nil items))
              ++ newline])
       (segmentationRequest (llmHostOf h flags) text
          :: map (translationRequest (llmHostOf h flags) (languageOf h flags))
               (elements sections))).
Proof.
  intros D1 D2 N S T. rewrite Run_pipeline by assumption.
  erewrite bind_Return.
  2:{ eapply pipeline_ok; rewrite ?requests_extend_out; eassumption. }
  rewrite printResults_run. same_world.
Qed.

(** A run that exits does so with status 1, after the notices, one
    diagnostic (a line that starts with [Error]) and the requests up to
    the failing one: nothing else is written. *)
Lemma Run_Exited (h : Host) (flags : Pflag.FlagSet) (text : string) (code : Z)
      (w w' : World) :
  Pflag.Lookup flags "llm-host" <> None ->
  Pflag.Lookup flags "translation-language" <> None ->
  Run h flags [text] w = (Exited code, w') ->
  code = 1%Z
  /\ exists diagnostic sections,
      String.prefix "Error" diagnostic = true
      /\ w' = extend w (notices h flags ++ [diagnostic])
                (segmentationRequest (llmHostOf h flags) text
                   :: map (translationRequest (llmHostOf h flags) (languageOf h flags))
                        sections).
Proof.
  intros D1 D2. rewrite Run_pipeline by assumption.
  unfold bind at 1. rewrite pipeline_run. unfold bind at 1.
  destruct (decodeSections h _ _) as [[sections|c] w1] eqn:DS.
  - apply decodeSections_Return in DS as (-> & _).
    destruct (translateAll h _ _ _ _ _) as [[rs|c] w2] eqn:TA.
    + rewrite printResults_run. discriminate.
    + intros [= <- <-].
      apply translateAll_Exited in TA as (-> & d & n & Pre & ->). split; [reflexivity|].
      exists d, (firstn n (elements sections)). split; [exact Pre|]. same_world.
  - intros [= <- <-].
    apply decodeSections_Exited in DS as (-> & d & Pre & ->). split; [reflexivity|].
    exists d, []. split; [exact Pre|]. same_world.
Qed.

(** A run that returns has had every call answered well, and has written
    the notices and the document of the items. *)
Lemma Run_Return (h : Host) (flags : Pflag.FlagSet) (text : string) (w w' : World) :
  Pflag.Lookup flags "llm-host" <> None ->
  Pflag.Lookup flags "translation-language" <> None ->
  Run h flags [text] w = (Return tt, w') ->
  exists body sections items,
    network h (requests w) (segmentationRequest (llmHostOf h flags) text) = answers body
    /\ sectionsOf body = Some sections
    /\ AllTranslated h (llmHostOf h flags) (languageOf h flags)
         (requests w ++ [segmentationRequest (llmHostOf h flags) text])
         (elements sections) items
    /\ w' = extend w
              (notices h flags
                 ++ [Json.encode_indent EmptyString "    " 0
                       (results_json (appended Nil items)) ++ newline])
              (segmentationRequest (llmHostOf h flags) text
                 :: map (translationRequest (llmHostOf h flags) (languageOf h flags))
                      (elements sections)).
Proof.
  intros D1 D2 R.
  assert (R' := R). rewrite Run_pipeline in R' by assumption.
  unfold bind at 1 in R'. rewrite pipeline_run in R'. unfold bind at 1 in R'.
  rewrite requests_extend_out in R'.
  destruct (decodeSections h _ _) as [[sections|c] w1] eqn:DS; [|discriminate].
  apply decodeSections_Return in DS as (-> & body & N & S).
  destruct (translateAll h _ _ _ _ _) as [[rs|c] w2] eqn:TA; [|discriminate].
  apply translateAll_Return in TA as (items & T & -> & ->).
  rewrite requests_extend, requests_extend_out in T.
  exists body, sections, items. repeat (split; [assumption|]).
  rewrite (Run_ok h flags text body sections items w D1 D2 N S T) in R.
  now injection R as <-.
Qed.

Lemma AllTranslated_sources (h : Host) (llmHost lang : string) (hist : list Request)
      (sections : list string) (items : list ResultItem) :
  AllTranslated h llmHost lang hist sections items ->
  map Source items = sections.
Proof.
  induction 1 as [|hist s rest body t items N D T IH]; [reflexivity|].
  cbn [map Source]. now rewrite IH.
Qed.

Lemma appended_Slice (items : list ResultItem) (l : list ResultItem) :
  appended (Slice l) items = Slice (l ++ items).
Proof.
  revert l. induction items as [|r rest IH]; intros l; cbn [appended fold_left].
  - now rewrite app_nil_r.
  - unfold append at 2. cbn [elements]. unfold appended in IH.
    rewrite IH, <- app_assoc. reflexivity.
Qed.

(** The loop leaves the nil slice when there is no item, and the slice of
    the items otherwise. *)
Lemma appended_Nil (items : list ResultItem) :
  appended Nil items = match items with [] => Nil | _ => Slice items end.
Proof.
  destruct items as [|r rest]; [reflexivity|].
  cbn [appended fold_left]. unfold append at 2. cbn [elements app].
  apply (appended_Slice rest [r]).
Qed.

(** ** The claims *)

(** C1. Against an endpoint that answers the segmentation call with the
    body [{"response": "[\"a\",\"b\"]"}] and the two translation calls with
    the envelopes of [A] and [B], the result list is exactly the item
    (a, A) followed by the item (b, B), and the run prints this list, as
    an indented document, and ends with status 0. *)
Theorem stubbed_endpoint_output (h : Host) (given : list (string * string))
        (flags : Pflag.FlagSet) (text : string) (w : World) :
  let llmHost := llmHostOf h flags in
  let lang := languageOf h flags in
  let r0 := segmentationRequest llmHost text in
  let r1 := translationRequest llmHost lang "a" in
  let r2 := translationRequest llmHost lang "b" in
  Pflag.Parse analiseCmd_Flags given = Some flags ->
  network h (requests w) r0 = answers (q "{'response': '[\'a\',\'b\']'}") ->
  network h (requests w ++ [r0]) r1 = answers (q "{'response': 'A'}") ->
  network h (requests w ++ [r0; r1]) r2 = answers (q "{'response': 'B'}") ->
  pipeline h llmHost lang text w
  = (Return (Slice [mkResultItem "a" "A"; mkResultItem "b" "B"]),
     extend w [] [r0; r1; r2])
  /\ Execute h (mkCommandLine given [text]) w
     = (0%Z,
        extend w
          (notices h flags
             ++ [Fmt.lines
                   [ "[";
                     "    {";
                     q "        'source': 'a',";
                     q "        'translation': 'A'";
                     "    },";
                     "    {";
                     q "        'source': 'b',";
                     q "        'translation': 'B'";
                     "    }";
                     "]" ] ++ newline])
          [r0; r1; r2]).
Proof.
  intros llmHost lang r0 r1 r2 P N0 N1 N2.
  destruct (Parse_defined _ _ P) as [D1 D2].
  assert (S : sectionsOf (q "{'response': '[\'a\',\'b\']'}") = Some (Slice ["a"; "b"]))
    by (vm_compute; reflexivity).
  assert (T : AllTranslated h llmHost lang (requests w ++ [r0]) ["a"; "b"]
                [mkResultItem "a" "A"; mkResultItem "b" "B"]).
  { econstructor; [exact N1 | vm_compute; reflexivity |].
    econstructor; [rewrite <- app_assoc; exact N2 | vm_compute; reflexivity |].
    constructor. }
  split.
  - rewrite (pipeline_ok h llmHost lang text _ (Slice ["a"; "b"]) _ w N0 S T).
    reflexivity.
  - rewrite (Execute_Run h given flags text w P).
    rewrite (Run_ok h flags text _ (Slice ["a"; "b"]) _ w D1 D2 N0 S T).
    reflexivity.
Qed.

Lemma stubbed_endpoint_output_witness :
  let h := scripted [answers (q "{'response': '[\'a\',\'b\']'}");
                     answers (q "{'response': 'A'}");
                     answers (q "{'response': 'B'}")] in
  Execute h (mkCommandLine [] ["Hallo Welt"]) start
  = (0%Z,
     mkWorld
       [ "Using default Ollama host: http://localhost:11434/api/generate" ++ newline;
         "Using default translation language: en-US" ++ newline;
         Fmt.lines
           [ "[";
             "    {";
             q "        'source': 'a',";
             q "        'translation': 'A'";
             "    },";
             "    {";
             q "        'source': 'b',";
             q "        'translation': 'B'";
             "    }";
             "]" ] ++ newline ]
       [ segmentationRequest "http://localhost:11434/api/generate" "Hallo Welt";
         translationRequest "http://localhost:11434/api/generate" "en-US" "a";
         translationRequest "http://localhost:11434/api/generate" "en-US" "b" ]).
Proof.
  intros h.
  destruct (stubbed_endpoint_output h [] analiseCmd_Flags "Hallo Welt" start
              eq_refl eq_refl eq_refl eq_refl) as [_ E].
  rewrite E. reflexivity.
Defined.

(** C6. When the segmentation request fails in transport, the run writes
    a diagnostic that carries the transport error, after the notices and
    nothing else, makes no further request and ends with status 1. *)
Theorem segmentation_transport_failure (h : Host) (given : list (string * string))
        (flags : Pflag.FlagSet) (text e : string) (w : World) :
  Pflag.Parse analiseCmd_Flags given = Some flags ->
  network h (requests w) (segmentationRequest (llmHostOf h flags) text) = PostFailed e ->
  Execute h (mkCommandLine given [text]) w
  = (1%Z,
     extend w
       (notices h flags ++ ["Error making HTTP request: " ++ e ++ newline])
       [segmentationRequest (llmHostOf h flags) text]).
Proof.
  intros P N. destruct (Parse_defined _ _ P) as [D1 D2].
  rewrite (Execute_Run h given flags text w P), Run_pipeline by assumption.
  unfold bind at 1. rewrite pipeline_run, requests_extend_out, N.
  erewrite bind_Exited by apply decodeSections_transport.
  rewrite !extend_extend. reflexivity.
Qed.

Lemma segmentation_transport_failure_witness :
  Execute (scripted []) (mkCommandLine [("llm-host", "http://10.0.0.1:1")] ["Hallo Welt"])
    start
  = (1%Z,
     mkWorld
       [ "Using default translation language: en-US" ++ newline;
         "Error making HTTP request: connection refused" ++ newline ]
       [ segmentationRequest "http://10.0.0.1:1" "Hallo Welt" ]).
Proof.
  rewrite (segmentation_transport_failure (scripted []) [("llm-host", "http://10.0.0.1:1")]
             _ "Hallo Welt" "connection refused" start eq_refl eq_refl).
  reflexivity.
Defined.



(** C9. When the inner text of the segmentation answer is an empty JSON
    array, the run makes no translation call, writes [null] and a newline
    after the notices, and ends with status 0. *)
Theorem empty_array_prints_null (h : Host) (given : list (string * string))
        (flags : Pflag.FlagSet) (text body inner : string) (w : World) :
  Pflag.Parse analiseCmd_Flags given = Some flags ->
  network h (requests w) (segmentationRequest (llmHostOf h flags) text) = answers body ->
  envelopeOf body = Some inner ->
  Json.checkValid inner = inl (Json.Array []) ->
  Execute h (mkCommandLine given [text]) w
  = (0%Z,
     extend w (notices h flags ++ ["null" ++ newline])
       [segmentationRequest (llmHostOf h flags) text]).
Proof.
  intros P N E V. destruct (Parse_defined _ _ P) as [D1 D2].
  assert (S : sectionsOf body = Some (Slice [])).
  { unfold sectionsOf, Json.Unmarshal_strings. rewrite E, V. reflexivity. }
  rewrite (Execute_Run h given flags text w P).
  rewrite (Run_ok h flags text body (Slice []) [] w D1 D2 N S) by constructor.
  reflexivity.
Qed.

Lemma empty_array_prints_null_witness :
  Execute (scripted [answers (q "{'response': '[]'}")])
    (mkCommandLine [("llm-host", "http://x"); ("translation-language", "pt-BR")]
                   ["Hallo Welt"]) start
  = (0%Z,
     mkWorld ["null" ++ newline] [segmentationRequest "http://x" "Hallo Welt"]).
Proof.
  rewrite (empty_array_prints_null (scripted [answers (q "{'response': '[]'}")])
             [("llm-host", "http://x"); ("translation-language", "pt-BR")] _
             "Hallo Welt" (q "{'response': '[]'}") "[]" start eq_refl eq_refl).
  - reflexivity.
  - vm_compute. reflexivity.
  - vm_compute. reflexivity.
Defined.





(** The decoding into [[]string] reports an error exactly for the inner
    texts that are not taken as sections. *)
Lemma array_into_strings_ok (es : list Json.value) :
  snd (Json.array_into_strings es)
  = forallb (fun v => match v with Json.Str _ | Json.Null => true | _ => false end) es.
Proof.
  induction es as [|v rest IH]; cbn [Json.array_into_strings forallb]; [reflexivity|].
  destruct (Json.array_into_strings rest) as [l ok]. cbn [snd] in IH. subst ok.
  destruct v; reflexivity.
Qed.

Lemma Unmarshal_strings_error (inner : string) :
  taken_as_sections inner = false ->
  exists s e, Json.Unmarshal_strings inner Nil = (s, Some e).
Proof.
  unfold taken_as_sections, Json.Unmarshal_strings.
  destruct (Json.checkValid inner) as [v|e]; [|eauto].
  destruct v; try discriminate; eauto.
  rewrite <- array_into_strings_ok.
  destruct (Json.array_into_strings elems) as [l ok]. cbn [snd].
  intros ->. eauto.
Qed.

Lemma Unmarshal_strings_taken (inner : string) :
  taken_as_sections inner = true ->
  exists s, Json.Unmarshal_strings inner Nil = (s, None).
Proof.
  unfold taken_as_sections, Json.Unmarshal_strings.
  destruct (Json.checkValid inner) as [v|e]; [|discriminate].
  destruct v; try discriminate; eauto.
  rewrite <- array_into_strings_ok.
  destruct (Json.array_into_strings elems) as [l ok]. cbn [snd].
  intros ->. eauto.
Qed.

(** C4, as the code has it.  When the envelope of the segmentation answer
    decodes and its inner text is not taken as sections (it is not JSON,
    or it is a JSON value other than [null] and other than an array of
    strings and [null]s), the run ends with status 1 after the diagnostic
    of the inner decoding, having made the segmentation request only and
    written no item. *)
Theorem inner_text_not_taken (h : Host) (given : list (string * string))
        (flags : Pflag.FlagSet) (text body inner : string) (w : World) :
  Pflag.Parse analiseCmd_Flags given = Some flags ->
  network h (requests w) (segmentationRequest (llmHostOf h flags) text) = answers body ->
  envelopeOf body = Some inner ->
  taken_as_sections inner = false ->
  exists e,
    Execute h (mkCommandLine given [text]) w
    = (1%Z,
       extend w
         (notices h flags ++ ["Error parsing response array: " ++ errorText h e ++ newline])
         [segmentationRequest (llmHostOf h flags) text]).
Proof.
  intros P N E A. destruct (Parse_defined _ _ P) as [D1 D2].
  destruct (Unmarshal_strings_error inner A) as (s & e & U).
  exists e.
  rewrite (Execute_Run h given flags text w P), Run_pipeline by assumption.
  unfold bind at 1. rewrite pipeline_run, requests_extend_out, N.
  erewrite bind_Exited by (eapply decodeSections_array_error; eassumption).
  rewrite !extend_extend. reflexivity.
Qed.

Lemma inner_text_not_taken_witness :
  exists e,
    Execute (scripted [answers (q "{'response': 'not json'}")])
      (mkCommandLine [("llm-host", "http://x"); ("translation-language", "pt-BR")]
                     ["Hallo Welt"]) start
    = (1%Z,
       mkWorld ["Error parsing response array: " ++ e ++ newline]
               [segmentationRequest "http://x" "Hallo Welt"]).
Proof.
  destruct (inner_text_not_taken (scripted [answers (q "{'response': 'not json'}")])
              [("llm-host", "http://x"); ("translation-language", "pt-BR")] _
              "Hallo Welt" (q "{'response': 'not json'}") "not json" start
              eq_refl eq_refl eq_refl eq_refl) as [e E].
  exists "json: error". rewrite E. reflexivity.
Defined.

(** C4, as stated, fails: the inner texts [null] and [[null]] do not have
    the syntax of an array of strings, yet the run ends with status 0; for
    [[null]] it even makes a translation call, for the empty section. *)
Lemma inner_null_is_taken :
  let cl := mkCommandLine [("llm-host", "http://x"); ("translation-language", "pt-BR")]
                          ["Hallo Welt"] in
  (envelopeOf (q "{'response': 'null'}") = Some "null"
   /\ spec_array_of_strings "null" = false
   /\ Execute (scripted [answers (q "{'response': 'null'}")]) cl start
      = (0%Z, mkWorld ["null" ++ newline] [segmentationRequest "http://x" "Hallo Welt"]))
  /\ (envelopeOf (q "{'response': '[null]'}") = Some "[null]"
      /\ spec_array_of_strings "[null]" = false
      /\ fst (Execute (scripted [answers (q "{'response': '[null]'}");
                                 answers (q "{'response': 'A'}")]) cl start) = 0%Z).
Proof. vm_compute. repeat split. Qed.

(** ** The printed document *)

Lemma append_assoc (a b c : string) : (a ++ b) ++ c = a ++ (b ++ c).
Proof. induction a as [|x a IH]; cbn [String.append]; [reflexivity|]. now rewrite IH. Qed.

Lemma join_indent (sep pre : string) (l : list string) :
  l <> [] ->
  pre ++ Json.join (sep ++ pre) l = Json.join sep (map (String.append pre) l).
Proof.
  induction l as [|x rest IH]; [congruence|]. intros _.
  destruct rest as [|y rest]; [reflexivity|].
  change (Json.join (sep ++ pre) (x :: y :: rest))
    with (x ++ (sep ++ pre) ++ Json.join (sep ++ pre) (y :: rest)).
  change (Json.join sep (map (String.append pre) (x :: y :: rest)))
    with ((pre ++ x) ++ sep ++ Json.join sep (map (String.append pre) (y :: rest))).
  rewrite <- IH by discriminate.
  now rewrite !append_assoc.
Qed.

Lemma item_text (r : ResultItem) :
  "    " ++ Json.encode_indent EmptyString "    " 1 (ResultItem_json r) = spec_item r.
Proof.
  unfold spec_item, ResultItem_json, Fmt.lines.
  cbn [Json.encode_indent Json.encode map fst snd Json.join].
  generalize (Json.quote (Source r)) (Json.quote (Translation r)). intros s t.
  change (Json.quote "source") with (q "'source'").
  change (Json.quote "translation") with (q "'translation'").
  change (Json.newline_at EmptyString "    " 2) with (newline ++ "        ").
  change (Json.newline_at EmptyString "    " 1) with (newline ++ "    ").
  rewrite !append_assoc. reflexivity.
Qed.

(** For a slice that is not empty the code prints the document of the
    spec. *)
Lemma document_of_items (items : list ResultItem) :
  items <> [] ->
  Json.encode_indent EmptyString "    " 0 (results_json (Slice items))
  = spec_document items.
Proof.
  intros NE. destruct items as [|r rest]; [congruence|].
  unfold spec_document, Fmt.lines. cbn [results_json].
  set (l := r :: rest) in *.
  assert (E : Json.join ("," ++ newline) (map spec_item l)
              = "    " ++ Json.join (("," ++ newline) ++ "    ")
                           (map (Json.encode_indent EmptyString "    " 1)
                              (map ResultItem_json l))).
  { rewrite join_indent by (subst l; discriminate).
    rewrite !map_map. f_equal. apply map_ext. intros x. symmetry. apply item_text. }
  cbn [Json.join]. rewrite E. subst l.
  cbn [map Json.encode_indent].
  change (Json.newline_at EmptyString "    " 1) with (newline ++ "    ").
  change (Json.newline_at EmptyString "    " 0) with newline.
  rewrite !append_assoc. reflexivity.
Qed.

(** The notices are the two lines about defaults, each present or not. *)
Lemma notices_shape (h : Host) (flags : Pflag.FlagSet) :
  Pflag.Lookup flags "llm-host" <> None ->
  Pflag.Lookup flags "translation-language" <> None ->
  exists a b : bool,
    notices h flags
    = ((if a then [hostNoticeText] else []) ++ (if b then [languageNoticeText] else []))%list.
Proof.
  intros D1 D2.
  unfold notices, hostNotice, languageNotice, getLlmHost, getTranslationLanguage,
    Pflag.GetString.
  destruct (Pflag.Lookup flags "llm-host") as [f|]; [clear D1|congruence].
  destruct (Pflag.Lookup flags "translation-language") as [g|]; [clear D2|congruence].
  cbv zeta.
  destruct (Pflag.Value f =? EmptyString)%string;
    [destruct (Os.Getenv h "STARTER_GO_CLI_LLM_HOST" =? EmptyString)%string|];
    (destruct (Pflag.Value g =? EmptyString)%string;
     [destruct (Os.Getenv h "STARTER_GO_CLI_TRANSLATION_LANGUAGE" =? EmptyString)%string|]).
  all: first [ now exists true, true | now exists true, false
             | now exists false, true | now exists false, false ].
Qed.

(** C2, as the code has it.  When the segmentation answer decodes to a
    list of sections that is not empty and every translation call is
    answered well, the run ends with status 0 and its last write is the
    document of the spec (an array indented by four spaces, the keys
    [source] then [translation]) with one item per section, in the order
    of the sections, followed by a newline; before it standard output
    receives the notices about defaults and nothing else. *)
Theorem success_prints_document (h : Host) (given : list (string * string))
        (flags : Pflag.FlagSet) (text body : string) (sections : slice string)
        (items : list ResultItem) (w : World) :
  let llmHost := llmHostOf h flags in
  let lang := languageOf h flags in
  let r0 := segmentationRequest llmHost text in
  Pflag.Parse analiseCmd_Flags given = Some flags ->
  network h (requests w) r0 = answers body ->
  sectionsOf body = Some sections ->
  AllTranslated h llmHost lang (requests w ++ [r0]) (elements sections) items ->
  elements sections <> [] ->
  Execute h (mkCommandLine given [text]) w
  = (0%Z,
     extend w (notices h flags ++ [spec_document items ++ newline])
       (r0 :: map (translationRequest llmHost lang) (elements sections)))
  /\ map Source items = elements sections
  /\ exists a b : bool,
      notices h flags
      = ((if a then [hostNoticeText] else []) ++ (if b then [languageNoticeText] else []))%list.
Proof.
  intros llmHost lang r0. subst llmHost lang r0. intros P N S T NE.
  destruct (Parse_defined _ _ P) as [D1 D2].
  pose proof (AllTranslated_sources _ _ _ _ _ _ T) as Src.
  split; [|split; [exact Src | now apply notices_shape]].
  rewrite (Execute_Run h given flags text w P).
  rewrite (Run_ok h flags text body sections items w D1 D2 N S T).
  rewrite appended_Nil.
  destruct items as [|r rest].
  - cbn [map] in Src. congruence.
  - now rewrite document_of_items by discriminate.
Qed.

Lemma success_prints_document_witness :
  let h := scripted [answers (q "{'response': '[\'a<b\']'}");
                     answers (q "{'response': 'A \'quoted\''}")] in
  Execute h (mkCommandLine [("translation-language", "pt-BR")] ["Hallo Welt"]) start
  = (0%Z,
     mkWorld
       [ "Using default Ollama host: http://localhost:11434/api/generate" ++ newline;
         Fmt.lines
           [ "[";
             "    {";
             q "        'source': 'a\u003cb',";
             q "        'translation': 'A \'quoted\''";
             "    }";
             "]" ] ++ newline ]
       [ segmentationRequest "http://localhost:11434/api/generate" "Hallo Welt";
         translationRequest "http://localhost:11434/api/generate" "pt-BR" "a<b" ]).
Proof.
  intros h.
  destruct (success_prints_document h [("translation-language", "pt-BR")] _ "Hallo Welt"
              (q "{'response': '[\'a<b\']'}") (Slice ["a<b"])
              [mkResultItem "a<b" (q "A 'quoted'")] start eq_refl eq_refl)
    as [E _].
  - vm_compute. reflexivity.
  - econstructor; [reflexivity | vm_compute; reflexivity | constructor].
  - discriminate.
  - rewrite E. vm_compute. reflexivity.
Defined.

(** C2, as stated, fails in two ways.  With an empty list of sections the
    run succeeds and prints [null], not an array; and when a default is
    applied, standard output carries a notice before the document. *)
Lemma success_output_is_not_only_an_array :
  let flags := [("llm-host", "http://x"); ("translation-language", "pt-BR")] in
  (sectionsOf (q "{'response': '[]'}") = Some (Slice [])
   /\ Execute (scripted [answers (q "{'response': '[]'}")])
        (mkCommandLine flags ["Hallo Welt"]) start
      = (0%Z, mkWorld ["null" ++ newline] [segmentationRequest "http://x" "Hallo Welt"])
   /\ "null" ++ newline <> spec_document [] ++ newline)
  /\ (let h := scripted [answers (q "{'response': '[\'a\']'}");
                         answers (q "{'response': 'A'}")] in
      fst (Execute h (mkCommandLine [] ["Hallo Welt"]) start) = 0%Z
      /\ stdout (snd (Execute h (mkCommandLine [] ["Hallo Welt"]) start))
         = [ "Using default Ollama host: http://localhost:11434/api/generate" ++ newline;
             "Using default translation language: en-US" ++ newline;
             spec_document [mkResultItem "a" "A"] ++ newline ]).
Proof.
  vm_compute. repeat split. discriminate.
Qed.

(** ** Determinism *)

Lemma decodeSections_host (h1 h2 : Host) (posted : PostResult) :
  errorText h2 = errorText h1 ->
  decodeSections h2 posted = decodeSections h1 posted.
Proof. intros E. unfold decodeSections. now rewrite E. Qed.

Lemma decodeTranslation_host (h1 h2 : Host) (section : string) (posted : PostResult) :
  errorText h2 = errorText h1 ->
  decodeTranslation h2 section posted = decodeTranslation h1 section posted.
Proof. intros E. unfold decodeTranslation. now rewrite E. Qed.

Lemma translateAll_host (h1 h2 : Host) (llmHost lang : string) (sections : list string) :
  network h2 = network h1 -> errorText h2 = errorText h1 ->
  forall results w,
    translateAll h2 llmHost lang sections results w
    = translateAll h1 llmHost lang sections results w.
Proof.
  intros N E. induction sections as [|section rest IH]; intros results w; [reflexivity|].
  rewrite !translateAll_cons, N, (decodeTranslation_host h1 h2) by exact E.
  unfold bind. destruct (decodeTranslation h1 section _ _) as [[item|code] w1]; auto.
Qed.

Lemma pipeline_host (h1 h2 : Host) (llmHost lang text : string) (w : World) :
  network h2 = network h1 -> errorText h2 = errorText h1 ->
  pipeline h2 llmHost lang text w = pipeline h1 llmHost lang text w.
Proof.
  intros N E. rewrite !pipeline_run, N, (decodeSections_host h1 h2) by exact E.
  unfold bind. destruct (decodeSections h1 _ _) as [[sections|code] w1]; [|reflexivity].
  now apply translateAll_host.
Qed.

(** Against a deterministic endpoint the pipeline and the printing of its
    result give a result, writes and requests that do not depend on the
    world they start in. *)
Lemma pipeline_pure (h : Host) (llmHost lang text : string) :
  deterministic (network h) ->
  exists r out reqs,
  forall w, pipeline h llmHost lang text w = (r, extend w out reqs).
Proof.
  intros Det.
  destruct (decodeSections_pure h (network h [] (segmentationRequest llmHost text)))
    as ([sections|code] & out & D).
  - destruct (translateAll_pure h llmHost lang (elements sections) Det Nil)
      as (r & out' & reqs & T).
    eexists _, _, _. intros w.
    rewrite pipeline_run, (Det _ []).
    erewrite bind_Return by apply D.
    rewrite T, !extend_extend. reflexivity.
  - eexists _, _, _. intros w.
    rewrite pipeline_run, (Det _ []).
    erewrite bind_Exited by apply D.
    rewrite extend_extend. reflexivity.
Qed.

Lemma printed_pipeline_pure (h : Host) (llmHost lang text : string) :
  deterministic (network h) ->
  exists r out reqs,
  forall w,
    (results <- pipeline h llmHost lang text ;; printResults h results) w
    = (r, extend w out reqs).
Proof.
  intros Det. destruct (pipeline_pure h llmHost lang text Det) as ([rs|code] & out & reqs & P).
  - eexists _, _, _. intros w.
    erewrite bind_Return by apply P.
    rewrite printResults_run, extend_extend. reflexivity.
  - eexists _, _, _. intros w.
    erewrite bind_Exited by apply P. reflexivity.
Qed.

(** C5. Two runs with the same text, endpoint and language against the
    same deterministic endpoint, started in any two worlds (after any
    requests made before), end with the same status, having written,
    after their notices, the same text byte for byte, and having made the
    same requests. *)
Theorem deterministic_output (h1 h2 : Host) (given1 given2 : list (string * string))
        (flags1 flags2 : Pflag.FlagSet) (text : string) :
  deterministic (network h1) ->
  network h2 = network h1 ->
  errorText h2 = errorText h1 ->
  Pflag.Parse analiseCmd_Flags given1 = Some flags1 ->
  Pflag.Parse analiseCmd_Flags given2 = Some flags2 ->
  llmHostOf h2 flags2 = llmHostOf h1 flags1 ->
  languageOf h2 flags2 = languageOf h1 flags1 ->
  exists status out reqs,
  forall w1 w2,
    Execute h1 (mkCommandLine given1 [text]) w1
    = (status, extend w1 (notices h1 flags1 ++ out) reqs)
    /\ Execute h2 (mkCommandLine given2 [text]) w2
       = (status, extend w2 (notices h2 flags2 ++ out) reqs).
Proof.
  intros Det N E P1 P2 EH EL.
  destruct (Parse_defined _ _ P1) as [D1 D1'].
  destruct (Parse_defined _ _ P2) as [D2 D2'].
  destruct (printed_pipeline_pure h1 (llmHostOf h1 flags1) (languageOf h1 flags1) text Det)
    as (r & out & reqs & R).
  assert (R2 : forall w,
             (results <- pipeline h2 (llmHostOf h2 flags2) (languageOf h2 flags2) text ;;
              printResults h2 results) w = (r, extend w out reqs)).
  { intros w. rewrite <- R, EH, EL. unfold bind.
    rewrite (pipeline_host h1 h2) by assumption.
    destruct (pipeline h1 _ _ _ _) as [[rs|code] w1]; [|reflexivity].
    unfold printResults. now rewrite E. }
  exists (match r with Return _ => 0%Z | Exited code => code end), out, reqs.
  intros w1 w2. split.
  - rewrite (Execute_Run h1 given1 flags1 text w1 P1), Run_pipeline, R by assumption.
    rewrite extend_extend. now destruct r.
  - rewrite (Execute_Run h2 given2 flags2 text w2 P2), Run_pipeline, R2 by assumption.
    rewrite extend_extend. now destruct r.
Qed.

Lemma deterministic_output_witness :
  let h1 := stateless "http://x" "Hallo Welt" in
  let h2 := withEnv (bothSet "http://x" "pt-BR") h1 in
  let given1 := [("llm-host", "http://x"); ("translation-language", "pt-BR")] in
  let earlier := translationRequest "http://x" "pt-BR" "earlier" in
  let document :=
      Fmt.lines
        [ "[";
          "    {";
          q "        'source': 'a',";
          q "        'translation': 'T'";
          "    },";
          "    {";
          q "        'source': 'b',";
          q "        'translation': 'T'";
          "    }";
          "]" ] ++ newline in
  let reqs := [ segmentationRequest "http://x" "Hallo Welt";
                translationRequest "http://x" "pt-BR" "a";
                translationRequest "http://x" "pt-BR" "b" ] in
  Execute h1 (mkCommandLine given1 ["Hallo Welt"]) start
  = (0%Z, mkWorld [document] reqs)
  /\ Execute h2 (mkCommandLine [] ["Hallo Welt"]) (mkWorld ["earlier output"] [earlier])
     = (0%Z, mkWorld ["earlier output"; document] (earlier :: reqs)).
Proof.
  intros h1 h2 given1 earlier document reqs.
  destruct (deterministic_output h1 h2 given1 [] _ _ "Hallo Welt"
              (fun hist1 hist2 r => eq_refl) eq_refl eq_refl eq_refl eq_refl eq_refl eq_refl)
    as (status & out & rs & E).
  destruct (E start (mkWorld ["earlier output"] [earlier])) as [E1 E2].
  assert (C : Execute h1 (mkCommandLine given1 ["Hallo Welt"]) start
              = (0%Z, mkWorld [document] reqs)) by (vm_compute; reflexivity).
  split; [exact C|].
  rewrite C in E1. injection E1 as <- <- <-.
  rewrite E2. reflexivity.
Defined.

(** ** Flags given on the command line *)

Lemma Set_same_values (fs1 fs2 : Pflag.FlagSet) (name value : string) :
  same_values fs1 fs2 ->
  match Pflag.Set_ fs1 name value, Pflag.Set_ fs2 name value with
  | Some a, Some b => same_values a b
  | None, None => True
  | _, _ => False
  end.
Proof.
  induction 1 as [|f g fs1 fs2 [En Ev] S IH]; cbn [Pflag.Set_]; [exact I|].
  rewrite <- En. destruct (Pflag.Name f =? name)%string.
  - constructor; [|exact S]. cbn. auto.
  - destruct (Pflag.Set_ fs1 name value), (Pflag.Set_ fs2 name value);
      cbn [option_map]; try exact IH.
    constructor; [|exact IH]. auto.
Qed.

Lemma Parse_same_values (given : list (string * string)) :
  forall fs1 fs2,
    same_values fs1 fs2 ->
    match Pflag.Parse fs1 given, Pflag.Parse fs2 given with
    | Some a, Some b => same_values a b
    | None, None => True
    | _, _ => False
    end.
Proof.
  induction given as [|[name value] rest IH]; intros fs1 fs2 S; cbn [Pflag.Parse].
  - exact S.
  - pose proof (Set_same_values fs1 fs2 name value S) as H.
    destruct (Pflag.Set_ fs1 name value), (Pflag.Set_ fs2 name value);
      try contradiction; [now apply IH | exact I].
Qed.

Lemma GetString_same_values (fs1 fs2 : Pflag.FlagSet) (name : string) :
  same_values fs1 fs2 ->
  Pflag.GetString fs1 name = Pflag.GetString fs2 name.
Proof.
  unfold Pflag.GetString.
  induction 1 as [|f g fs1 fs2 [En Ev] S IH]; cbn [Pflag.Lookup]; [reflexivity|].
  rewrite <- En. destruct (Pflag.Name f =? name)%string; [now rewrite Ev | exact IH].
Qed.

(** The command reads its flags through [GetString] only. *)
Lemma Run_same_values (h : Host) (fs1 fs2 : Pflag.FlagSet) (args : list string) (w : World) :
  same_values fs1 fs2 ->
  Run h fs1 args w = Run h fs2 args w.
Proof.
  intros S. unfold Run, getLlmHost, getTranslationLanguage.
  now rewrite !(GetString_same_values fs1 fs2 _ S).
Qed.

Lemma Execute_same_values (h : Host) (given : list (string * string))
      (args : list string) (w : World) (fs1 fs2 : Pflag.FlagSet) :
  same_values fs1 fs2 ->
  match Pflag.Parse fs1 given with
  | None => (1%Z, w)
  | Some flags =>
    if (List.length args =? 1)%nat then
      match Run h flags args w with
      | (Return _, w') => (0%Z, w')
      | (Exited code, w') => (code, w')
      end
    else (1%Z, w)
  end
  = match Pflag.Parse fs2 given with
    | None => (1%Z, w)
    | Some flags =>
      if (List.length args =? 1)%nat then
        match Run h flags args w with
        | (Return _, w') => (0%Z, w')
        | (Exited code, w') => (code, w')
        end
      else (1%Z, w)
    end.
Proof.
  intros S. pose proof (Parse_same_values given fs1 fs2 S) as H.
  destruct (Pflag.Parse fs1 given) as [a|], (Pflag.Parse fs2 given) as [b|];
    try contradiction; [|reflexivity].
  now rewrite (Run_same_values h a b args w H).
Qed.

(** C10. A flag given with the empty string leaves the run as it is
    without the flag, for either flag and whatever else the command line
    holds, although the flag set records that the flag was given: with
    [llm-host] given empty the endpoint is the environment variable when
    that is not empty and the default otherwise, and likewise for the
    language. *)
Theorem empty_flag_is_as_absent (h : Host) (given : list (string * string))
        (args : list string) (w : World) :
  Execute h (mkCommandLine (("llm-host", EmptyString) :: given) args) w
  = Execute h (mkCommandLine given args) w
  /\ Execute h (mkCommandLine (("translation-language", EmptyString) :: given) args) w
     = Execute h (mkCommandLine given args) w
  /\ Pflag.Parse analiseCmd_Flags [("llm-host", EmptyString)]
     <> Pflag.Parse analiseCmd_Flags []
  /\ Pflag.Parse analiseCmd_Flags [("translation-language", EmptyString)]
     <> Pflag.Parse analiseCmd_Flags []
  /\ match Pflag.Parse analiseCmd_Flags [("llm-host", EmptyString)] with
     | Some flags =>
       llmHostOf h flags
       = if (Os.Getenv h "STARTER_GO_CLI_LLM_HOST" =? EmptyString)%string
         then "http://localhost:11434/api/generate"
         else Os.Getenv h "STARTER_GO_CLI_LLM_HOST"
     | None => False
     end
  /\ match Pflag.Parse analiseCmd_Flags [("translation-language", EmptyString)] with
     | Some flags =>
       languageOf h flags
       = if (Os.Getenv h "STARTER_GO_CLI_TRANSLATION_LANGUAGE" =? EmptyString)%string
         then "en-US"
         else Os.Getenv h "STARTER_GO_CLI_TRANSLATION_LANGUAGE"
     | None => False
     end.
Proof.
  split; [|split; [|split; [|split; [|split]]]].
  - unfold Execute. cbn [givenFlags arguments Pflag.Parse].
    change (Pflag.Set_ analiseCmd_Flags "llm-host" EmptyString)
      with (Some [Pflag.mkFlag "llm-host" "l" EmptyString
                    "The Ollama host URL for the LLM service (default is 'http://localhost:11434/api/generate')"
                    true;
                  Pflag.mkFlag "translation-language" "t" EmptyString
                    "The language for translation in locale format (default is 'en-US')"
                    false]).
    apply Execute_same_values. repeat constructor.
  - unfold Execute. cbn [givenFlags arguments Pflag.Parse].
    change (Pflag.Set_ analiseCmd_Flags "translation-language" EmptyString)
      with (Some [Pflag.mkFlag "llm-host" "l" EmptyString
                    "The Ollama host URL for the LLM service (default is 'http://localhost:11434/api/generate')"
                    false;
                  Pflag.mkFlag "translation-language" "t" EmptyString
                    "The language for translation in locale format (default is 'en-US')"
                    true]).
    apply Execute_same_values. repeat constructor.
  - discriminate.
  - discriminate.
  - unfold llmHostOf, getLlmHost.
    cbn [Pflag.Parse Pflag.Set_ analiseCmd_Flags Pflag.StringP app option_map
           Pflag.GetString Pflag.Lookup Pflag.Name Pflag.Value String.eqb Ascii.eqb
           Bool.eqb andb].
    now destruct (Os.Getenv h "STARTER_GO_CLI_LLM_HOST" =? EmptyString)%string.
  - unfold languageOf, getTranslationLanguage.
    cbn [Pflag.Parse Pflag.Set_ analiseCmd_Flags Pflag.StringP app option_map
           Pflag.GetString Pflag.Lookup Pflag.Name Pflag.Value String.eqb Ascii.eqb
           Bool.eqb andb].
    now destruct (Os.Getenv h "STARTER_GO_CLI_TRANSLATION_LANGUAGE" =? EmptyString)%string.
Qed.

Lemma Set_Lookup (fs fs' : Pflag.FlagSet) (n v name : string) :
  Pflag.Set_ fs n v = Some fs' ->
  Pflag.Lookup fs' name
  = if (n =? name)%string
    then option_map
           (fun f => Pflag.mkFlag (Pflag.Name f) (Pflag.Shorthand f) v (Pflag.Usage f) true)
           (Pflag.Lookup fs name)
    else Pflag.Lookup fs name.
Proof.
  revert fs'. induction fs as [|f rest IH]; intros fs' H; cbn [Pflag.Set_] in H.
  - discriminate.
  - destruct (Pflag.Name f =? n)%string eqn:Fn.
    + injection H as <-. apply String.eqb_eq in Fn. subst n.
      cbn [Pflag.Lookup Pflag.Name].
      destruct (Pflag.Name f =? name)%string; reflexivity.
    + destruct (Pflag.Set_ rest n v) as [rest'|]; cbn [option_map] in H; [|discriminate].
      injection H as <-. cbn [Pflag.Lookup].
      destruct (Pflag.Name f =? name)%string eqn:Fname.
      * apply String.eqb_eq in Fname. subst name.
        rewrite String.eqb_sym, Fn. reflexivity.
      * now apply IH.
Qed.

(** After parsing, a defined flag holds the value the command line gives
    it, or the value it had when the command line does not give it. *)
Lemma Parse_flagValue (given : list (string * string)) (name : string) :
  forall fs flags,
    Pflag.Parse fs given = Some flags ->
    Pflag.Lookup fs name <> None ->
    Pflag.Lookup flags name <> None
    /\ flagValue flags name
       = match givenValue given name with
         | Some v => v
         | None => flagValue fs name
         end.
Proof.
  induction given as [|[n v] rest IH]; intros fs flags P D;
    cbn [Pflag.Parse givenValue] in *.
  - injection P as <-. auto.
  - destruct (Pflag.Set_ fs n v) as [fs1|] eqn:S; [|discriminate].
    pose proof (Set_Lookup fs fs1 n v name S) as L.
    assert (D1 : Pflag.Lookup fs1 name <> None).
    { rewrite L. destruct (n =? name)%string; [|exact D].
      destruct (Pflag.Lookup fs name); [discriminate|congruence]. }
    destruct (IH fs1 flags P D1) as [D' V]. split; [exact D'|].
    rewrite V. destruct (givenValue rest name); [reflexivity|].
    unfold flagValue, Pflag.GetString. rewrite L.
    destruct (n =? name)%string; [|reflexivity].
    destruct (Pflag.Lookup fs name); [reflexivity|congruence].
Qed.

Lemma flagValue_Lookup (flags : Pflag.FlagSet) (name : string) :
  Pflag.Lookup flags name <> None ->
  Pflag.GetString flags name = (flagValue flags name, None).
Proof.
  unfold flagValue, Pflag.GetString.
  destruct (Pflag.Lookup flags name); [reflexivity|congruence].
Qed.

(** Every request of a run goes to the endpoint settled on, and carries
    the segmentation prompt of the text or the translation prompt of some
    section in the language settled on. *)
Lemma Run_requests (h : Host) (flags : Pflag.FlagSet) (text : string) (w : World) :
  Pflag.Lookup flags "llm-host" <> None ->
  Pflag.Lookup flags "translation-language" <> None ->
  exists r out sections,
    Run h flags [text] w
    = (r, extend w out
            (segmentationRequest (llmHostOf h flags) text
               :: map (translationRequest (llmHostOf h flags) (languageOf h flags))
                    sections)).
Proof.
  intros D1 D2. destruct (Run h flags [text] w) as [[[]|code] w'] eqn:R.
  - apply Run_Return in R as (body & sections & items & _ & _ & _ & ->); try assumption.
    eauto.
  - apply Run_Exited in R as (_ & d & sections & _ & ->); try assumption. eauto.
Qed.

(** C7, as the code has it.  Endpoint and language are each looked up in
    three tiers, the flag, then the environment variable, then the literal
    default, a tier being passed over when its value is empty: with the
    flag not given and the variable not set the endpoint is
    [http://localhost:11434/api/generate] and the language [en-US]; a flag
    given with a value that is not empty is used whatever the variable.
    Every request of the run goes to the endpoint so found. *)
Theorem three_tier_lookup (h : Host) (given : list (string * string))
        (flags : Pflag.FlagSet) (text : string) (w : World) :
  Pflag.Parse analiseCmd_Flags given = Some flags ->
  (getLlmHost h flags w = (Return (llmHostOf h flags), extend w (hostNotice h flags) [])
   /\ getTranslationLanguage h flags w
      = (Return (languageOf h flags), extend w (languageNotice h flags) [])
   /\ exists r out sections,
       Run h flags [text] w
       = (r, extend w out
               (segmentationRequest (llmHostOf h flags) text
                  :: map (translationRequest (llmHostOf h flags) (languageOf h flags))
                       sections)))
  /\ llmHostOf h flags
     = firstNonEmpty [orEmpty (givenValue given "llm-host");
                      orEmpty (environ h "STARTER_GO_CLI_LLM_HOST")]
         "http://localhost:11434/api/generate"
  /\ languageOf h flags
     = firstNonEmpty [orEmpty (givenValue given "translation-language");
                      orEmpty (environ h "STARTER_GO_CLI_TRANSLATION_LANGUAGE")]
         "en-US"
  /\ (givenValue given "llm-host" = None ->
      environ h "STARTER_GO_CLI_LLM_HOST" = None ->
      llmHostOf h flags = "http://localhost:11434/api/generate")
  /\ (givenValue given "translation-language" = None ->
      environ h "STARTER_GO_CLI_TRANSLATION_LANGUAGE" = None ->
      languageOf h flags = "en-US")
  /\ (forall v,
         givenValue given "llm-host" = Some v -> v <> EmptyString ->
         llmHostOf h flags = v)
  /\ (forall v,
         givenValue given "translation-language" = Some v -> v <> EmptyString ->
         languageOf h flags = v).
Proof.
  intros P. destruct (Parse_defined _ _ P) as [D1 D2].
  destruct (Parse_flagValue given "llm-host" _ _ P) as [_ V1]; [discriminate|].
  destruct (Parse_flagValue given "translation-language" _ _ P) as [_ V2]; [discriminate|].
  pose proof (flagValue_Lookup flags "llm-host" D1) as G1.
  pose proof (flagValue_Lookup flags "translation-language" D2) as G2.
  assert (H1 : llmHostOf h flags
               = firstNonEmpty [orEmpty (givenValue given "llm-host");
                                orEmpty (environ h "STARTER_GO_CLI_LLM_HOST")]
                   "http://localhost:11434/api/generate").
  { unfold llmHostOf, getLlmHost, Os.Getenv, orEmpty. rewrite G1, V1.
    change (flagValue analiseCmd_Flags "llm-host") with EmptyString.
    cbn [firstNonEmpty]. cbv zeta.
    destruct (givenValue given "llm-host") as [v|];
      [destruct (v =? EmptyString)%string | rewrite String.eqb_refl];
      try reflexivity;
      destruct (environ h "STARTER_GO_CLI_LLM_HOST") as [e|];
      try reflexivity; now destruct (e =? EmptyString)%string. }
  assert (H2 : languageOf h flags
               = firstNonEmpty [orEmpty (givenValue given "translation-language");
                                orEmpty (environ h "STARTER_GO_CLI_TRANSLATION_LANGUAGE")]
                   "en-US").
  { unfold languageOf, getTranslationLanguage, Os.Getenv, orEmpty. rewrite G2, V2.
    change (flagValue analiseCmd_Flags "translation-language") with EmptyString.
    cbn [firstNonEmpty]. cbv zeta.
    destruct (givenValue given "translation-language") as [v|];
      [destruct (v =? EmptyString)%string | rewrite String.eqb_refl];
      try reflexivity;
      destruct (environ h "STARTER_GO_CLI_TRANSLATION_LANGUAGE") as [e|];
      try reflexivity; now destruct (e =? EmptyString)%string. }
  split; [|split; [exact H1|split; [exact H2|repeat split]]].
  - split; [now apply getLlmHost_run|].
    split; [now apply getTranslationLanguage_run | now apply Run_requests].
  - intros A B. rewrite H1, A, B. reflexivity.
  - intros A B. rewrite H2, A, B. reflexivity.
  - intros v A NE. rewrite H1, A. cbn [orEmpty firstNonEmpty].
    apply String.eqb_neq in NE. now rewrite NE.
  - intros v A NE. rewrite H2, A. cbn [orEmpty firstNonEmpty].
    apply String.eqb_neq in NE. now rewrite NE.
Qed.

Lemma three_tier_lookup_witness :
  let bare := scripted [] in
  let env := withEnv (bothSet "http://from-env" "fr-FR") (scripted []) in
  let given := [("llm-host", "http://from-flag"); ("translation-language", "pt-BR")] in
  (llmHostOf bare analiseCmd_Flags = "http://localhost:11434/api/generate"
   /\ languageOf bare analiseCmd_Flags = "en-US")
  /\ (llmHostOf env analiseCmd_Flags = "http://from-env"
      /\ languageOf env analiseCmd_Flags = "fr-FR")
  /\ match Pflag.Parse analiseCmd_Flags given with
     | Some flags =>
       llmHostOf env flags = "http://from-flag" /\ languageOf env flags = "pt-BR"
     | None => False
     end.
Proof.
  intros bare env given.
  destruct (three_tier_lookup bare [] analiseCmd_Flags "Hallo Welt" start eq_refl)
    as (_ & _ & _ & A1 & A2 & _).
  destruct (three_tier_lookup env [] analiseCmd_Flags "Hallo Welt" start eq_refl)
    as (_ & B1 & B2 & _).
  destruct (Pflag.Parse analiseCmd_Flags given) as [flags|] eqn:P; [|discriminate].
  destruct (three_tier_lookup env given flags "Hallo Welt" start P)
    as (_ & _ & _ & _ & _ & C1 & C2).
  split; [split; [apply A1 | apply A2]; reflexivity|].
  split; [split; [rewrite B1 | rewrite B2]; reflexivity|].
  split; [apply (C1 "http://from-flag") | apply (C2 "pt-BR")];
    (reflexivity || discriminate).
Defined.

(** C7, as stated, fails: a flag that is given, with the empty string,
    does not win over the environment variable.  The flag set records the
    flag as given, yet the endpoint is the one of the variable, and the
    request of the run goes there. *)
Lemma empty_flag_loses_to_environment :
  let h := withEnv (bothSet "http://from-env" "fr-FR") (scripted []) in
  let given := [("llm-host", EmptyString)] in
  givenValue given "llm-host" = Some EmptyString
  /\ match Pflag.Parse analiseCmd_Flags given with
     | Some flags =>
       option_map Pflag.Changed (Pflag.Lookup flags "llm-host") = Some true
       /\ option_map Pflag.Value (Pflag.Lookup flags "llm-host") = Some EmptyString
       /\ getLlmHost h flags start = (Return "http://from-env", start)
     | None => False
     end
  /\ requests (snd (Execute h (mkCommandLine given ["Hallo Welt"]) start))
     = [segmentationRequest "http://from-env" "Hallo Welt"].
Proof. vm_compute. repeat split. Qed.

(** * Further properties *)

(** ** Failures of the segmentation call *)

(** A run whose segmentation step exits: what [Execute] gives. *)
Lemma Execute_segmentation_exits (h : Host) (given : list (string * string))
      (flags : Pflag.FlagSet) (text : string) (code : Z) (out : list string) (w : World) :
  Pflag.Parse analiseCmd_Flags given = Some flags ->
  (forall w',
      decodeSections h
        (network h (requests w) (segmentationRequest (llmHostOf h flags) text)) w'
      = (Exited code, extend w' out [])) ->
  Execute h (mkCommandLine given [text]) w
  = (code, extend w (notices h flags ++ out) [segmentationRequest (llmHostOf h flags) text]).
Proof.
  intros P D. destruct (Parse_defined _ _ P) as [D1 D2].
  rewrite (Execute_Run h given flags text w P), Run_pipeline by assumption.
  unfold bind at 1. rewrite pipeline_run, requests_extend_out.
  erewrite bind_Exited by apply D.
  rewrite !extend_extend. reflexivity.
Qed.

(** X1. When the segmentation call is answered with a status other than
    200 and a body that can be read, the run ends with status 1 after the
    diagnostic of the status; the body is not looked at and no translation
    call is made. *)
Theorem segmentation_status_aborts (h : Host) (given : list (string * string))
        (flags : Pflag.FlagSet) (text body : string) (code : Z) (w : World) :
  Pflag.Parse analiseCmd_Flags given = Some flags ->
  network h (requests w) (segmentationRequest (llmHostOf h flags) text)
  = PostOK (mkResponse code (ReadOK body)) ->
  code <> StatusOK ->
  Execute h (mkCommandLine given [text]) w
  = (1%Z,
     extend w
       (notices h flags
          ++ ["Error: received status code " ++ Fmt.decimal code ++ newline])
       [segmentationRequest (llmHostOf h flags) text]).
Proof.
  intros P N C. apply Execute_segmentation_exits; [exact P|].
  intros w'. rewrite N. unfold decodeSections. cbn [Body StatusCode].
  apply Z.eqb_neq in C. rewrite C. cbn [negb]. apply Printf_Exit_run.
Qed.

Lemma segmentation_status_aborts_witness :
  Execute (scripted [PostOK (mkResponse 404 (ReadOK (q "{'response': '[\'a\']'}")))])
    (mkCommandLine [("llm-host", "http://x"); ("translation-language", "pt-BR")]
                   ["Hallo Welt"]) start
  = (1%Z,
     mkWorld ["Error: received status code 404" ++ newline]
             [segmentationRequest "http://x" "Hallo Welt"]).
Proof.
  rewrite (segmentation_status_aborts
             (scripted [PostOK (mkResponse 404 (ReadOK (q "{'response': '[\'a\']'}")))])
             [("llm-host", "http://x"); ("translation-language", "pt-BR")] _
             "Hallo Welt" (q "{'response': '[\'a\']'}") 404 start eq_refl eq_refl).
  - reflexivity.
  - discriminate.
Defined.

(** X2. When the body of the segmentation answer cannot be read, the run
    ends with status 1 after the diagnostic of the read error, whatever
    the status of the answer: the body is read before the status is
    looked at. *)
Theorem segmentation_read_failure (h : Host) (given : list (string * string))
        (flags : Pflag.FlagSet) (text e : string) (code : Z) (w : World) :
  Pflag.Parse analiseCmd_Flags given = Some flags ->
  network h (requests w) (segmentationRequest (llmHostOf h flags) text)
  = PostOK (mkResponse code (ReadFailed e)) ->
  Execute h (mkCommandLine given [text]) w
  = (1%Z,
     extend w (notices h flags ++ ["Error reading response body: " ++ e ++ newline])
       [segmentationRequest (llmHostOf h flags) text]).
Proof.
  intros P N. apply Execute_segmentation_exits; [exact P|].
  intros w'. rewrite N. apply Println_Exit_run.
Qed.

Lemma segmentation_read_failure_witness :
  Execute (scripted [PostOK (mkResponse 500 (ReadFailed "unexpected EOF"))])
    (mkCommandLine [("llm-host", "http://x"); ("translation-language", "pt-BR")]
                   ["Hallo Welt"]) start
  = (1%Z,
     mkWorld ["Error reading response body: unexpected EOF" ++ newline]
             [segmentationRequest "http://x" "Hallo Welt"]).
Proof.
  rewrite (segmentation_read_failure
             (scripted [PostOK (mkResponse 500 (ReadFailed "unexpected EOF"))])
             [("llm-host", "http://x"); ("translation-language", "pt-BR")] _
             "Hallo Welt" "unexpected EOF" 500 start eq_refl eq_refl).
  reflexivity.
Defined.

(** The decoding into the envelope reports an error exactly for the
    bodies that are not taken as envelopes. *)
Lemma object_into_field_ok (name : string) (ms : list (string * Json.value)) :
  forall cur,
    snd (Json.object_into_field name ms cur)
    = forallb (fun m =>
                 negb (Json.matches_field name (fst m))
                 || match snd m with Json.Str _ | Json.Null => true | _ => false end) ms.
Proof.
  induction ms as [|[k v] rest IH]; intros cur; cbn [Json.object_into_field forallb fst snd].
  - reflexivity.
  - destruct (Json.matches_field name k); cbn [negb orb].
    + destruct (Json.store_string v cur) as [cur' ok] eqn:S.
      specialize (IH cur').
      destruct (Json.object_into_field name rest cur') as [final ok'].
      cbn [snd] in *. subst ok'.
      destruct v; cbn [Json.store_string] in S; injection S as <- <-; reflexivity.
    + apply IH.
Qed.

Lemma envelopeOf_taken (body : string) :
  envelopeOf body = None <-> taken_as_envelope body = false.
Proof.
  unfold envelopeOf, taken_as_envelope, Unmarshal_ResponsePayload, Json.Unmarshal_struct.
  cbn [Response_].
  destruct (Json.checkValid body) as [v|e]; [|split; reflexivity].
  destruct v; try (split; reflexivity); try (split; discriminate).
  rewrite <- (object_into_field_ok "response" members EmptyString).
  destruct (Json.object_into_field "response" members EmptyString) as [final ok].
  cbn [snd]. destruct ok; split; (reflexivity || discriminate).
Qed.

(** X3. When the body of the segmentation answer is not taken as an
    envelope (it is not JSON, or a JSON value other than [null] and other
    than an object, or an object whose [response] is neither a string nor
    [null]), the run ends with status 1 after the diagnostic of the outer
    decoding; the inner decoding is not tried and no translation call is
    made. *)
Theorem envelope_not_taken (h : Host) (given : list (string * string))
        (flags : Pflag.FlagSet) (text body : string) (w : World) :
  Pflag.Parse analiseCmd_Flags given = Some flags ->
  network h (requests w) (segmentationRequest (llmHostOf h flags) text) = answers body ->
  taken_as_envelope body = false ->
  exists e,
    Execute h (mkCommandLine given [text]) w
    = (1%Z,
       extend w
         (notices h flags ++ ["Error parsing JSON response: " ++ errorText h e ++ newline])
         [segmentationRequest (llmHostOf h flags) text]).
Proof.
  intros P N T. apply envelopeOf_taken in T.
  unfold envelopeOf in T.
  destruct (Unmarshal_ResponsePayload body (mkResponsePayload EmptyString)) as [p [e|]] eqn:U;
    [|discriminate].
  exists e. apply Execute_segmentation_exits; [exact P|].
  intros w'. rewrite N. unfold decodeSections, answers. cbn [Body StatusCode].
  rewrite Z.eqb_refl. cbn [negb]. rewrite U. apply Println_Exit_run.
Qed.

Lemma envelope_not_taken_witness :
  exists e,
    Execute (scripted [answers (q "{'response': ['a', 'b']}")])
      (mkCommandLine [("llm-host", "http://x"); ("translation-language", "pt-BR")]
                     ["Hallo Welt"]) start
    = (1%Z,
       mkWorld ["Error parsing JSON response: " ++ e ++ newline]
               [segmentationRequest "http://x" "Hallo Welt"]).
Proof.
  destruct (envelope_not_taken (scripted [answers (q "{'response': ['a', 'b']}")])
              [("llm-host", "http://x"); ("translation-language", "pt-BR")] _
              "Hallo Welt" (q "{'response': ['a', 'b']}") start
              eq_refl eq_refl eq_refl) as [e E].
  exists "json: error". rewrite E. reflexivity.
Defined.

(** ** Failures of a translation call *)

(** A run in which the translation calls before the [i]-th are answered
    well and the decoding of the [i]-th answer exits: what [Execute]
    gives. *)
Lemma Execute_translation_exits (h : Host) (given : list (string * string))
      (flags : Pflag.FlagSet) (text body : string) (sections : slice string)
      (i : nat) (section : string) (items : list ResultItem) (code : Z)
      (out : list string) (w : World) :
  Pflag.Parse analiseCmd_Flags given = Some flags ->
  network h (requests w) (segmentationRequest (llmHostOf h flags) text) = answers body ->
  sectionsOf body = Some sections ->
  nth_error (elements sections) i = Some section ->
  AllTranslated h (llmHostOf h flags) (languageOf h flags)
    (requests w ++ [segmentationRequest (llmHostOf h flags) text])
    (firstn i (elements sections)) items ->
  (forall w',
      decodeTranslation h section
        (network h
           (requests w ++ segmentationRequest (llmHostOf h flags) text
              :: map (translationRequest (llmHostOf h flags) (languageOf h flags))
                   (firstn i (elements sections)))
           (translationRequest (llmHostOf h flags) (languageOf h flags) section)) w'
      = (Exited code, extend w' out [])) ->
  Execute h (mkCommandLine given [text]) w
  = (code,
     extend w (notices h flags ++ out)
       (segmentationRequest (llmHostOf h flags) text
          :: map (translationRequest (llmHostOf h flags) (languageOf h flags))
               (firstn i (elements sections) ++ [section]))).
Proof.
  intros P N0 S I T F.
  destruct (Parse_defined _ _ P) as [D1 D2].
  destruct (nth_error_split _ _ I) as (l1 & l2 & E & L).
  assert (B : firstn i (elements sections) = l1).
  { rewrite E, <- L, firstn_app, Nat.sub_diag, firstn_all.
    cbn [firstn]. apply app_nil_r. }
  rewrite B in *. clear B.
  rewrite (Execute_Run h given flags text w P), Run_pipeline by assumption.
  unfold bind at 1. rewrite pipeline_run, requests_extend_out, N0.
  unfold bind at 1. rewrite (decodeSections_ok h body sections _ S), E.
  rewrite translateAll_exits with (items := items) (code := code) (out := out).
  - f_equal. same_world.
  - rewrite !extend_extend, requests_extend. exact T.
  - intros w'. rewrite !extend_extend, requests_extend. cbn [app].
    rewrite <- app_assoc. cbn [app]. apply F.
Qed.

(** X4. Whatever the sections and the index [i]: when the translation
    calls before the [i]-th are answered well and the [i]-th fails in
    transport, the run ends at once with status 1 after the diagnostic
    that carries the transport error; no call is made for the sections
    after it and no item is written. *)
Theorem translation_transport_failure (h : Host) (given : list (string * string))
        (flags : Pflag.FlagSet) (text body : string) (sections : slice string)
        (i : nat) (section : string) (items : list ResultItem) (e : string)
        (w : World) :
  let llmHost := llmHostOf h flags in
  let lang := languageOf h flags in
  let r0 := segmentationRequest llmHost text in
  let before := firstn i (elements sections) in
  Pflag.Parse analiseCmd_Flags given = Some flags ->
  network h (requests w) r0 = answers body ->
  sectionsOf body = Some sections ->
  nth_error (elements sections) i = Some section ->
  AllTranslated h llmHost lang (requests w ++ [r0]) before items ->
  network h (requests w ++ r0 :: map (translationRequest llmHost lang) before)
    (translationRequest llmHost lang section) = PostFailed e ->
  Execute h (mkCommandLine given [text]) w
  = (1%Z,
     extend w
       (notices h flags ++ ["Error making HTTP request for translation: " ++ e ++ newline])
       (r0 :: map (translationRequest llmHost lang) (before ++ [section]))).
Proof.
  intros llmHost lang r0 before. subst llmHost lang r0 before.
  intros P N0 S I T Ni.
  apply (Execute_translation_exits h given flags text body sections i section items
           1%Z _ w P N0 S I T).
  intros w'. rewrite Ni. apply Println_Exit_run.
Qed.

Lemma translation_transport_failure_witness :
  let h := scripted [answers (q "{'response': '[\'a\',\'b\',\'c\']'}");
                     answers (q "{'response': 'A'}")] in
  Execute h (mkCommandLine [("llm-host", "http://x"); ("translation-language", "pt-BR")]
                           ["Hallo Welt"]) start
  = (1%Z,
     mkWorld
       [ "Error making HTTP request for translation: connection refused" ++ newline ]
       [ segmentationRequest "http://x" "Hallo Welt";
         translationRequest "http://x" "pt-BR" "a";
         translationRequest "http://x" "pt-BR" "b" ]).
Proof.
  intros h.
  rewrite (translation_transport_failure h
             [("llm-host", "http://x"); ("translation-language", "pt-BR")] _
             "Hallo Welt" (q "{'response': '[\'a\',\'b\',\'c\']'}")
             (Slice ["a"; "b"; "c"]) 1 "b" [mkResultItem "a" "A"]
             "connection refused" start eq_refl eq_refl).
  - reflexivity.
  - vm_compute. reflexivity.
  - reflexivity.
  - econstructor; [reflexivity | vm_compute; reflexivity | constructor].
  - reflexivity.
Defined.

(** X5. Whatever the sections and the index [i]: when the translation
    calls before the [i]-th are answered well and the [i]-th is answered
    with status 200 and a body that is not taken as an envelope, the run
    ends at once with status 1 after the diagnostic of the decoding; the
    items of the sections translated before are not written. *)
Theorem translation_envelope_not_taken (h : Host) (given : list (string * string))
        (flags : Pflag.FlagSet) (text body : string) (sections : slice string)
        (i : nat) (section : string) (items : list ResultItem) (tbody : string)
        (w : World) :
  let llmHost := llmHostOf h flags in
  let lang := languageOf h flags in
  let r0 := segmentationRequest llmHost text in
  let before := firstn i (elements sections) in
  Pflag.Parse analiseCmd_Flags given = Some flags ->
  network h (requests w) r0 = answers body ->
  sectionsOf body = Some sections ->
  nth_error (elements sections) i = Some section ->
  AllTranslated h llmHost lang (requests w ++ [r0]) before items ->
  network h (requests w ++ r0 :: map (translationRequest llmHost lang) before)
    (translationRequest llmHost lang section) = answers tbody ->
  taken_as_envelope tbody = false ->
  exists e,
    Execute h (mkCommandLine given [text]) w
    = (1%Z,
       extend w
         (notices h flags
            ++ ["Error parsing translation JSON response: " ++ errorText h e ++ newline])
         (r0 :: map (translationRequest llmHost lang) (before ++ [section]))).
Proof.
  intros llmHost lang r0 before. subst llmHost lang r0 before.
  intros P N0 S I T Ni NT.
  assert (U : exists p e,
             Unmarshal_TranslationResponse tbody (mkTranslationResponse EmptyString)
             = (p, Some e)).
  { apply envelopeOf_taken in NT. unfold envelopeOf in NT.
    unfold Unmarshal_TranslationResponse. unfold Unmarshal_ResponsePayload in NT.
    cbn [Response_ TranslationResponse_Translation] in *.
    destruct (Json.Unmarshal_struct "response" tbody EmptyString) as [s [e|]];
      [eauto | discriminate]. }
  destruct U as (p & e & U). exists e.
  apply (Execute_translation_exits h given flags text body sections i section items
           1%Z _ w P N0 S I T).
  intros w'. rewrite Ni. unfold decodeTranslation, answers. cbn [Body StatusCode].
  rewrite Z.eqb_refl. cbn [negb]. rewrite U. apply Println_Exit_run.
Qed.

Lemma translation_envelope_not_taken_witness :
  let h := scripted [answers (q "{'response': '[\'a\',\'b\']'}");
                     answers (q "{'response': 'A'}");
                     answers "<html>Bad Gateway</html>"] in
  exists e,
    Execute h (mkCommandLine [("llm-host", "http://x"); ("translation-language", "pt-BR")]
                             ["Hallo Welt"]) start
    = (1%Z,
       mkWorld
         [ "Error parsing translation JSON response: " ++ e ++ newline ]
         [ segmentationRequest "http://x" "Hallo Welt";
           translationRequest "http://x" "pt-BR" "a";
           translationRequest "http://x" "pt-BR" "b" ]).
Proof.
  intros h.
  destruct (translation_envelope_not_taken h
              [("llm-host", "http://x"); ("translation-language", "pt-BR")] _
              "Hallo Welt" (q "{'response': '[\'a\',\'b\']'}")
              (Slice ["a"; "b"]) 1 "b" [mkResultItem "a" "A"]
              "<html>Bad Gateway</html>" start eq_refl eq_refl) as [e E].
  - vm_compute. reflexivity.
  - reflexivity.
  - econstructor; [reflexivity | vm_compute; reflexivity | constructor].
  - reflexivity.
  - vm_compute. reflexivity.
  - exists "json: error". rewrite E. reflexivity.
Defined.

(** ** The status and the requests of a run *)

(** X6. A run ends with status 0 exactly when the segmentation call is
    answered with status 200 and a body that decodes, and the translation
    calls for all the sections are answered well; in every other case it
    ends with status 1. *)
Theorem status_zero_iff_all_answered (h : Host) (given : list (string * string))
        (flags : Pflag.FlagSet) (text : string) (w : World) :
  Pflag.Parse analiseCmd_Flags given = Some flags ->
  (fst (Execute h (mkCommandLine given [text]) w) = 0%Z
   <-> exists body sections items,
       network h (requests w) (segmentationRequest (llmHostOf h flags) text) = answers body
       /\ sectionsOf body = Some sections
       /\ AllTranslated h (llmHostOf h flags) (languageOf h flags)
            (requests w ++ [segmentationRequest (llmHostOf h flags) text])
            (elements sections) items)
  /\ (fst (Execute h (mkCommandLine given [text]) w) = 0%Z
      \/ fst (Execute h (mkCommandLine given [text]) w) = 1%Z).
Proof.
  intros P. destruct (Parse_defined _ _ P) as [D1 D2].
  rewrite (Execute_Run h given flags text w P).
  destruct (Run h flags [text] w) as [[[]|code] w'] eqn:R.
  - split; [|now left]. split; [intros _|reflexivity].
    destruct (Run_Return h flags text w w' D1 D2 R) as (body & sections & items & N & S & T & _).
    exists body, sections, items. auto.
  - destruct (Run_Exited h flags text code w w' D1 D2 R) as (-> & _).
    split; [|now right]. split; [discriminate|].
    intros (body & sections & items & N & S & T).
    rewrite (Run_ok h flags text body sections items w D1 D2 N S T) in R. discriminate.
Qed.

Lemma status_zero_iff_all_answered_witness :
  let h := scripted [answers (q "{'response': '[\'a\']'}");
                     answers (q "{'response': 'A'}")] in
  fst (Execute h (mkCommandLine [] ["Hallo Welt"]) start) = 0%Z.
Proof.
  intros h.
  destruct (status_zero_iff_all_answered h [] analiseCmd_Flags "Hallo Welt" start eq_refl)
    as [[_ Z] _].
  apply Z. exists (q "{'response': '[\'a\']'}"), (Slice ["a"]), [mkResultItem "a" "A"].
  split; [reflexivity|]. split; [vm_compute; reflexivity|].
  econstructor; [reflexivity | vm_compute; reflexivity | constructor].
Defined.

Lemma detectedSections_Return (h : Host) (posted : PostResult) (sections : slice string)
      (w w' : World) :
  decodeSections h posted w = (Return sections, w') ->
  detectedSections posted = elements sections.
Proof.
  intros D. apply decodeSections_Return in D as (_ & body & -> & S).
  unfold detectedSections, answers. cbn [Body StatusCode].
  now rewrite Z.eqb_refl, S.
Qed.

(** X7. Whatever the endpoint does, the requests of a run are the
    segmentation request followed by the translation requests for the
    first [n] sections detected, in their order, for some [n]: no
    translation call is made when the segmentation answer gives no
    section, none is made twice or out of order, and all the sections
    have had their call when the run ends with status 0. *)
Theorem requests_follow_sections (h : Host) (given : list (string * string))
        (flags : Pflag.FlagSet) (text : string) (w : World) :
  Pflag.Parse analiseCmd_Flags given = Some flags ->
  let llmHost := llmHostOf h flags in
  let lang := languageOf h flags in
  let r0 := segmentationRequest llmHost text in
  let detected := detectedSections (network h (requests w) r0) in
  exists status out n,
    Execute h (mkCommandLine given [text]) w
    = (status,
       extend w out (r0 :: map (translationRequest llmHost lang) (firstn n detected)))
    /\ (n <= List.length detected)%nat
    /\ (status = 0%Z -> n = List.length detected).
Proof.
  intros P llmHost lang r0 detected. subst llmHost lang r0 detected.
  destruct (Parse_defined _ _ P) as [D1 D2].
  rewrite (Execute_Run h given flags text w P), Run_pipeline by assumption.
  unfold bind at 1. rewrite pipeline_run, requests_extend_out. unfold bind at 1.
  destruct (decodeSections h _ _) as [[sections|c] w1] eqn:DS.
  - rewrite (detectedSections_Return _ _ _ _ _ DS).
    apply decodeSections_Return in DS as (-> & _).
    destruct (translateAll h _ _ _ _ _) as [[rs|c] w2] eqn:TA.
    + apply translateAll_Return in TA as (items & _ & -> & ->).
      rewrite printResults_run.
      eexists 0%Z, _, (List.length (elements sections)).
      rewrite firstn_all. split; [same_world|]. split; [apply Nat.le_refl | reflexivity].
    + apply translateAll_Exited in TA as (-> & d & n & _ & ->).
      exists 1%Z. eexists _, (Nat.min n (List.length (elements sections))).
      split; [|split; [apply Nat.le_min_r | discriminate]].
      rewrite <- firstn_firstn, firstn_all. same_world.
  - apply decodeSections_Exited in DS as (-> & d & _ & ->).
    exists 1%Z. eexists _, 0%nat. cbn [firstn map].
    split; [same_world|]. split; [apply Nat.le_0_l | discriminate].
Qed.

Lemma requests_follow_sections_witness :
  let h := scripted [answers (q "{'response': '[\'a\',\'b\',\'c\']'}");
                     answers (q "{'response': 'A'}")] in
  exists status out n,
    Execute h (mkCommandLine [("llm-host", "http://x"); ("translation-language", "pt-BR")]
                             ["Hallo Welt"]) start
    = (status,
       extend start out
         (segmentationRequest "http://x" "Hallo Welt"
            :: map (translationRequest "http://x" "pt-BR") (firstn n ["a"; "b"; "c"])))
    /\ (n <= 3)%nat.
Proof.
  intros h.
  destruct (requests_follow_sections h
              [("llm-host", "http://x"); ("translation-language", "pt-BR")] _
              "Hallo Welt" start eq_refl) as (status & out & n & E & L & _).
  exists status, out, n. split; [exact E | exact L].
Defined.

(** ** The diagnostics of a run *)

Lemma decodeSections_Diagnostic (h : Host) (posted : PostResult) (code : Z) (w w' : World) :
  decodeSections h posted w = (Exited code, w') ->
  exists d, Diagnostic h d /\ w' = extend w [d] [].
Proof.
  unfold decodeSections.
  destruct posted as [e|[c [body|e]]]; cbn [Body StatusCode].
  - rewrite Println_Exit_run. intros [= <- <-].
    eexists. split; [apply (Diagnostic_post h e) | reflexivity].
  - destruct (negb (c =? StatusOK)%Z).
    + rewrite Printf_Exit_run. intros [= <- <-].
      eexists. split; [apply (Diagnostic_status h c) | reflexivity].
    + destruct (Unmarshal_ResponsePayload body (mkResponsePayload EmptyString)) as [p [e|]].
      * rewrite Println_Exit_run. intros [= <- <-].
        eexists. split; [apply (Diagnostic_envelope h e) | reflexivity].
      * destruct (Json.Unmarshal_strings (Response_ p) Nil) as [s [e|]].
        -- rewrite Println_Exit_run. intros [= <- <-].
           eexists. split; [apply (Diagnostic_array h e) | reflexivity].
        -- discriminate.
  - rewrite Println_Exit_run. intros [= <- <-].
    eexists. split; [apply (Diagnostic_read h e) | reflexivity].
Qed.

Lemma decodeTranslation_Diagnostic (h : Host) (section : string) (posted : PostResult)
      (code : Z) (w w' : World) :
  decodeTranslation h section posted w = (Exited code, w') ->
  exists d, Diagnostic h d /\ w' = extend w [d] [].
Proof.
  unfold decodeTranslation.
  destruct posted as [e|[c [body|e]]]; cbn [Body StatusCode].
  - rewrite Println_Exit_run. intros [= <- <-].
    eexists. split; [apply (Diagnostic_translation_post h e) | reflexivity].
  - destruct (negb (c =? StatusOK)%Z).
    + rewrite Printf_Exit_run. intros [= <- <-].
      eexists. split; [apply (Diagnostic_translation_status h c) | reflexivity].
    + destruct (Unmarshal_TranslationResponse body (mkTranslationResponse EmptyString))
        as [p [e|]].
      * rewrite Println_Exit_run. intros [= <- <-].
        eexists. split; [apply (Diagnostic_translation_envelope h e) | reflexivity].
      * discriminate.
  - rewrite Println_Exit_run. intros [= <- <-].
    eexists. split; [apply (Diagnostic_translation_read h e) | reflexivity].
Qed.

Lemma translateAll_Diagnostic (h : Host) (llmHost lang : string) (sections : list string) :
  forall (results : slice ResultItem) (code : Z) (w w' : World),
    translateAll h llmHost lang sections results w = (Exited code, w') ->
    exists d, Diagnostic h d /\ stdout w' = (stdout w ++ [d])%list.
Proof.
  induction sections as [|section rest IH]; intros results code w w' R.
  - discriminate.
  - rewrite translateAll_cons in R. unfold bind in R.
    destruct (decodeTranslation h section _ _) as [[item|c] w1] eqn:D.
    + apply decodeTranslation_Return in D as (-> & _).
      apply IH in R as (d & Dg & E). exists d. split; [exact Dg|].
      rewrite E. cbn [extend stdout]. now rewrite app_nil_r.
    + injection R as <- <-.
      apply decodeTranslation_Diagnostic in D as (d & Dg & ->).
      exists d. split; [exact Dg|].
      cbn [extend stdout]. now rewrite app_nil_r.
Qed.

Lemma Diagnostic_prefixes (h : Host) (d : string) :
  Diagnostic h d ->
  String.prefix "Error" d = true
  /\ String.prefix "Error retrieving" d = false
  /\ String.prefix "Error marshalling" d = false.
Proof. intros D. destruct D; repeat split. Qed.

(** X8. A run that does not end with status 0 has written, after the
    notices, exactly one diagnostic, and this is one of the nine
    diagnostics of the network and decoding steps.  The diagnostics for a
    flag that cannot be retrieved and for a payload or a result that
    cannot be marshalled are never written. *)
Theorem failure_diagnostics (h : Host) (given : list (string * string))
        (flags : Pflag.FlagSet) (text : string) (code : Z) (w w' : World) :
  Pflag.Parse analiseCmd_Flags given = Some flags ->
  Execute h (mkCommandLine given [text]) w = (code, w') ->
  code <> 0%Z ->
  exists d,
    Diagnostic h d
    /\ stdout w' = (stdout w ++ notices h flags ++ [d])%list
    /\ String.prefix "Error retrieving" d = false
    /\ String.prefix "Error marshalling" d = false.
Proof.
  intros P X NZ. destruct (Parse_defined _ _ P) as [D1 D2].
  rewrite (Execute_Run h given flags text w P), Run_pipeline in X by assumption.
  unfold bind at 1 in X. rewrite pipeline_run in X. unfold bind at 1 in X.
  assert (G : forall d out, Diagnostic h d ->
                stdout w' = (stdout w ++ notices h flags ++ out ++ [d])%list ->
                out = [] ->
                exists d,
                  Diagnostic h d
                  /\ stdout w' = (stdout w ++ notices h flags ++ [d])%list
                  /\ String.prefix "Error retrieving" d = false
                  /\ String.prefix "Error marshalling" d = false).
  { intros d out Dg E ->. exists d. split; [exact Dg|]. split; [exact E|].
    apply (Diagnostic_prefixes h d Dg). }
  destruct (decodeSections h _ _) as [[sections|c] w1] eqn:DS.
  - apply decodeSections_Return in DS as (-> & _).
    destruct (translateAll h _ _ _ _ _) as [[rs|c] w2] eqn:TA.
    + rewrite printResults_run in X. injection X as <- <-. congruence.
    + injection X as <- <-.
      apply translateAll_Diagnostic in TA as (d & Dg & E).
      apply (G d [] Dg); [|reflexivity].
      rewrite E. cbn [extend stdout app]. now rewrite !app_nil_r, <- app_assoc.
  - injection X as <- <-.
    apply decodeSections_Diagnostic in DS as (d & Dg & ->).
    apply (G d [] Dg); [|reflexivity].
    cbn [extend stdout app]. now rewrite !app_nil_r, <- app_assoc.
Qed.

Lemma failure_diagnostics_witness :
  let h := scripted [answers (q "{'response': '[\'a\']'}")] in
  exists d,
    Diagnostic h d
    /\ stdout (snd (Execute h (mkCommandLine [] ["Hallo Welt"]) start))
       = [hostNoticeText; languageNoticeText; d].
Proof.
  intros h.
  destruct (failure_diagnostics h [] analiseCmd_Flags "Hallo Welt" 1
              start (snd (Execute h (mkCommandLine [] ["Hallo Welt"]) start)) eq_refl)
    as (d & Dg & E & _).
  - vm_compute. reflexivity.
  - discriminate.
  - exists d. split; [exact Dg | exact E].
Defined.

(** ** What a run reads of its surroundings *)

Lemma printResults_host (h1 h2 : Host) (results : slice ResultItem) :
  errorText h2 = errorText h1 ->
  printResults h2 results = printResults h1 results.
Proof. intros E. unfold printResults. now rewrite E. Qed.

Lemma Run_host (h1 h2 : Host) (flags : Pflag.FlagSet) (args : list string) (w : World) :
  network h2 = network h1 ->
  errorText h2 = errorText h1 ->
  getLlmHost h2 flags = getLlmHost h1 flags ->
  getTranslationLanguage h2 flags = getTranslationLanguage h1 flags ->
  Run h2 flags args w = Run h1 flags args w.
Proof.
  intros N E G1 G2. unfold Run. rewrite G1, G2. unfold bind.
  destruct (getLlmHost h1 flags w) as [[llmHost|c] w1]; [|reflexivity].
  destruct (getTranslationLanguage h1 flags w1) as [[lang|c] w2]; [|reflexivity].
  rewrite (pipeline_host h1 h2) by assumption.
  destruct (pipeline h1 llmHost lang _ w2) as [[rs|c] w3]; [|reflexivity].
  now rewrite (printResults_host h1 h2).
Qed.

Lemma Execute_host (h1 h2 : Host) (cl : CommandLine) (w : World) :
  network h2 = network h1 ->
  errorText h2 = errorText h1 ->
  (forall flags,
      Pflag.Parse analiseCmd_Flags (givenFlags cl) = Some flags ->
      getLlmHost h2 flags = getLlmHost h1 flags
      /\ getTranslationLanguage h2 flags = getTranslationLanguage h1 flags) ->
  Execute h2 cl w = Execute h1 cl w.
Proof.
  intros N E G. unfold Execute.
  destruct (Pflag.Parse analiseCmd_Flags (givenFlags cl)) as [flags|]; [|reflexivity].
  destruct (G flags eq_refl) as [G1 G2].
  destruct (List.length (arguments cl) =? 1)%nat; [|reflexivity].
  now rewrite (Run_host h1 h2 flags (arguments cl) w N E G1 G2).
Qed.

(** X9. Of the environment a run reads the two variables
    [STARTER_GO_CLI_LLM_HOST] and [STARTER_GO_CLI_TRANSLATION_LANGUAGE]
    and nothing else, and of each only what [os.Getenv] gives (a variable
    set to the empty text is as one that is not set): two hosts with the
    same endpoint that agree on these two give the same run, whatever the
    command line. *)
Theorem environment_read_through_two_variables (h1 h2 : Host) (cl : CommandLine)
        (w : World) :
  network h2 = network h1 ->
  errorText h2 = errorText h1 ->
  Os.Getenv h2 "STARTER_GO_CLI_LLM_HOST" = Os.Getenv h1 "STARTER_GO_CLI_LLM_HOST" ->
  Os.Getenv h2 "STARTER_GO_CLI_TRANSLATION_LANGUAGE"
  = Os.Getenv h1 "STARTER_GO_CLI_TRANSLATION_LANGUAGE" ->
  Execute h2 cl w = Execute h1 cl w.
Proof.
  intros N E G1 G2. apply Execute_host; try assumption.
  intros flags _. unfold getLlmHost, getTranslationLanguage. now rewrite G1, G2.
Qed.

Lemma environment_read_through_two_variables_witness :
  let h1 := stateless "http://x" "Hallo Welt" in
  let noise (name : string) :=
      if (name =? "STARTER_GO_CLI_LLM_HOST")%string then Some EmptyString
      else if (name =? "STARTER_GO_CLI_TRANSLATION_LANGUAGE")%string then None
      else Some "noise" in
  Execute (withEnv noise h1) (mkCommandLine [("llm-host", "http://x")] ["Hallo Welt"]) start
  = Execute h1 (mkCommandLine [("llm-host", "http://x")] ["Hallo Welt"]) start.
Proof.
  intros h1 noise.
  apply (environment_read_through_two_variables h1 (withEnv noise h1) _ start
           eq_refl eq_refl eq_refl eq_refl).
Defined.

(** X10. When both flags are given with values that are not empty, the
    environment is not read at all: two hosts with the same endpoint give
    the same run whatever their environment variables. *)
Theorem flags_shadow_environment (h1 h2 : Host) (given : list (string * string))
        (args : list string) (v1 v2 : string) (w : World) :
  network h2 = network h1 ->
  errorText h2 = errorText h1 ->
  givenValue given "llm-host" = Some v1 -> v1 <> EmptyString ->
  givenValue given "translation-language" = Some v2 -> v2 <> EmptyString ->
  Execute h2 (mkCommandLine given args) w = Execute h1 (mkCommandLine given args) w.
Proof.
  intros N E A1 NE1 A2 NE2. apply Execute_host; try assumption.
  cbn [givenFlags]. intros flags P.
  destruct (Parse_defined _ _ P) as [D1 D2].
  destruct (Parse_flagValue given "llm-host" _ _ P) as [_ V1]; [discriminate|].
  destruct (Parse_flagValue given "translation-language" _ _ P) as [_ V2]; [discriminate|].
  unfold getLlmHost, getTranslationLanguage.
  rewrite (flagValue_Lookup flags "llm-host" D1), V1, A1.
  rewrite (flagValue_Lookup flags "translation-language" D2), V2, A2.
  apply String.eqb_neq in NE1, NE2. now rewrite NE1, NE2.
Qed.

Lemma flags_shadow_environment_witness :
  let h1 := stateless "http://x" "Hallo Welt" in
  let given := [("llm-host", "http://x"); ("translation-language", "pt-BR")] in
  Execute (withEnv (bothSet "http://from-env" "fr-FR") h1)
    (mkCommandLine given ["Hallo Welt"]) start
  = Execute h1 (mkCommandLine given ["Hallo Welt"]) start.
Proof.
  intros h1 given.
  apply (flags_shadow_environment h1 (withEnv (bothSet "http://from-env" "fr-FR") h1)
           given ["Hallo Welt"] "http://x" "pt-BR" start eq_refl eq_refl eq_refl);
    [discriminate | reflexivity | discriminate].
Defined.

(** X11. The endpoint and the language a run settles on are never empty,
    and the notice of a default is written exactly when the flag and the
    variable are both empty, in which case the value is the default. *)
Theorem settled_values_not_empty (h : Host) (given : list (string * string))
        (flags : Pflag.FlagSet) :
  Pflag.Parse analiseCmd_Flags given = Some flags ->
  (llmHostOf h flags <> EmptyString
   /\ if ((orEmpty (givenValue given "llm-host") =? EmptyString)
          && (Os.Getenv h "STARTER_GO_CLI_LLM_HOST" =? EmptyString))%string
      then hostNotice h flags = [hostNoticeText]
           /\ llmHostOf h flags = "http://localhost:11434/api/generate"
      else hostNotice h flags = [])
  /\ (languageOf h flags <> EmptyString
      /\ if ((orEmpty (givenValue given "translation-language") =? EmptyString)
             && (Os.Getenv h "STARTER_GO_CLI_TRANSLATION_LANGUAGE" =? EmptyString))%string
         then languageNotice h flags = [languageNoticeText]
              /\ languageOf h flags = "en-US"
         else languageNotice h flags = []).
Proof.
  intros P. destruct (Parse_defined _ _ P) as [D1 D2].
  destruct (Parse_flagValue given "llm-host" _ _ P) as [_ V1]; [discriminate|].
  destruct (Parse_flagValue given "translation-language" _ _ P) as [_ V2]; [discriminate|].
  pose proof (flagValue_Lookup flags "llm-host" D1) as G1.
  pose proof (flagValue_Lookup flags "translation-language" D2) as G2.
  split.
  - unfold llmHostOf, hostNotice, getLlmHost, orEmpty. rewrite G1, V1.
    change (flagValue analiseCmd_Flags "llm-host") with EmptyString. cbv zeta.
    destruct (givenValue given "llm-host") as [v|].
    + destruct (v =? EmptyString)%string eqn:Ev; cbn [andb].
      * destruct (Os.Getenv h "STARTER_GO_CLI_LLM_HOST" =? EmptyString)%string eqn:Ee.
        -- repeat split. discriminate.
        -- apply String.eqb_neq in Ee. split; [exact Ee | reflexivity].
      * apply String.eqb_neq in Ev. split; [exact Ev | reflexivity].
    + rewrite String.eqb_refl. cbn [andb].
      destruct (Os.Getenv h "STARTER_GO_CLI_LLM_HOST" =? EmptyString)%string eqn:Ee.
      * repeat split. discriminate.
      * apply String.eqb_neq in Ee. split; [exact Ee | reflexivity].
  - unfold languageOf, languageNotice, getTranslationLanguage, orEmpty. rewrite G2, V2.
    change (flagValue analiseCmd_Flags "translation-language") with EmptyString. cbv zeta.
    destruct (givenValue given "translation-language") as [v|].
    + destruct (v =? EmptyString)%string eqn:Ev; cbn [andb].
      * destruct (Os.Getenv h "STARTER_GO_CLI_TRANSLATION_LANGUAGE" =? EmptyString)%string
          eqn:Ee.
        -- repeat split. discriminate.
        -- apply String.eqb_neq in Ee. split; [exact Ee | reflexivity].
      * apply String.eqb_neq in Ev. split; [exact Ev | reflexivity].
    + rewrite String.eqb_refl. cbn [andb].
      destruct (Os.Getenv h "STARTER_GO_CLI_TRANSLATION_LANGUAGE" =? EmptyString)%string
        eqn:Ee.
      * repeat split. discriminate.
      * apply String.eqb_neq in Ee. split; [exact Ee | reflexivity].
Qed.

Lemma settled_values_not_empty_witness :
  let h := withEnv (bothSet EmptyString "fr-FR") (scripted []) in
  (llmHostOf h analiseCmd_Flags = "http://localhost:11434/api/generate"
   /\ hostNotice h analiseCmd_Flags = [hostNoticeText])
  /\ languageNotice h analiseCmd_Flags = [].
Proof.
  intros h.
  destruct (settled_values_not_empty h [] analiseCmd_Flags eq_refl)
    as [[_ [A1 A2]] [_ B]].
  split; [split; [exact A2 | exact A1] | exact B].
Defined.

(** ** The scanner: the first byte settles the kind of the value *)

Ltac split_matches :=
  repeat (cbn [Json.step Json.parseState Json.endTop Json.lit Json.top];
          cbv beta iota zeta;
          match goal with
          | |- context [match ?x with _ => _ end] =>
            lazymatch x with
            | context [match _ with _ => _ end] => fail
            | _ => destruct x
            end
          end).

Lemma scan_step_error (s : Json.scanner) (c : byte) :
  Json.step s = Json.stateError -> Json.scan_step s c = s.
Proof. intros E. unfold Json.scan_step. now rewrite E. Qed.

Lemma scan_error (data : string) :
  forall s, Json.step s = Json.stateError -> Json.scan s data = s.
Proof.
  induction data as [|c rest IH]; intros s E; cbn [Json.scan]; [reflexivity|].
  rewrite scan_step_error by exact E. now apply IH.
Qed.

Lemma eof_error (s : Json.scanner) :
  Json.step s = Json.stateError -> Json.eof s = inr Json.SyntaxError.
Proof. intros E. unfold Json.eof, Json.isError. now rewrite E. Qed.

Lemma first_step (s : Json.scanner) (c : byte) :
  fresh s ->
  if Json.isSpace c then Json.scan_step s c = s
  else match startKind c with
       | Some k => reading k (Json.scan_step s c)
       | None => Json.step (Json.scan_step s c) = Json.stateError
       end.
Proof.
  destruct s as [st ps et l t]. intros (E1 & E2 & E3 & E4). cbn in *. subst.
  unfold Json.scan_step, Json.stepBeginValue, startKind. cbn [Json.step].
  destruct (Json.isSpace c); [reflexivity|].
  unfold Json.pushParseState, Json.beginLiteral, Json.scanError, Json.goto, reading.
  split_matches; cbn; auto.
Qed.

Ltac unfold_scanner :=
  unfold Json.scan_step, Json.stepBeginStringOrEmpty, Json.stepBeginString,
    Json.stepBeginValue, Json.stepState0, Json.stepStateESign, Json.finishString,
    Json.finishNumber, Json.expect, Json.stepEndValue, Json.stepEndTop,
    Json.popParseState, Json.finish, Json.deliver, Json.pushParseState, Json.keep,
    Json.beginLiteral, Json.scanError, Json.goto;
  cbn [Json.step Json.parseState Json.endTop Json.lit Json.top].

Ltac solve_reading :=
  first [ left; reflexivity
        | right; cbn in *;
          repeat match goal with
                 | H : Some _ = Some _ |- _ => injection H as <-
                 end;
          cbn; intuition (auto; congruence) ].

(** The kind being read stays the same from byte to byte. *)
Lemma scan_step_reading (k : kind) (s : Json.scanner) (c : byte) :
  reading k s -> reading k (Json.scan_step s c).
Proof.
  intros [E|R]; [rewrite scan_step_error by exact E; now left|].
  destruct s as [st ps et l t]. cbn [Json.step Json.parseState Json.endTop Json.top] in R.
  destruct ps as [|f [|g [|i rest]]].
  - destruct t as [v|].
    + destruct R as [K [(-> & -> & C) | (-> & ->)]];
        unfold_scanner; split_matches; unfold reading; solve_reading.
    + destruct R as [-> L].
      destruct st; try discriminate L;
        unfold_scanner; split_matches; unfold reading; solve_reading.
  - destruct R as (B & -> & ->).
    destruct st; unfold_scanner; split_matches; unfold reading; solve_reading.
  - destruct R as (B & -> & ->).
    destruct st; unfold_scanner; split_matches; unfold reading; solve_reading.
  - destruct R as (B & -> & ->).
    destruct st; unfold_scanner; split_matches; unfold reading; solve_reading.
Qed.

Lemma scan_reading (k : kind) (data : string) :
  forall s, reading k s -> reading k (Json.scan s data).
Proof.
  induction data as [|c rest IH]; intros s R; cbn [Json.scan]; [exact R|].
  apply IH. now apply scan_step_reading.
Qed.

Lemma reading_done (k : kind) (s : Json.scanner) (v : Json.value) :
  reading k s ->
  Json.isError s = false -> Json.endTop s = true -> Json.top s = Some v ->
  kindOf v = k /\ Json.parseState s = [] /\ Json.step s = Json.stateEndTop.
Proof.
  unfold reading, Json.isError. intros [E|R] NE ET T; [now rewrite E in NE|].
  destruct (Json.parseState s) as [|f ps].
  - rewrite T in R. destruct R as [K [(_ & F & _) | (S & _)]]; [congruence|]. auto.
  - destruct R as (_ & _ & F). congruence.
Qed.

(** At the end of the input the value read has the kind being read. *)
Lemma eof_reading (k : kind) (s : Json.scanner) (v : Json.value) :
  reading k s -> Json.eof s = inl v -> kindOf v = k.
Proof.
  intros R. unfold Json.eof.
  destruct (Json.isError s) eqn:NE; [discriminate|].
  set (s' := if Json.endTop s then s else Json.scan_step s " "%char).
  assert (R' : reading k s').
  { subst s'. destruct (Json.endTop s); [exact R | now apply scan_step_reading]. }
  destruct (Json.isError s') eqn:NE'; [discriminate|].
  destruct (Json.endTop s') eqn:ET; [|discriminate].
  destruct (Json.top s') as [v'|] eqn:T; [|discriminate].
  intros [= <-]. now destruct (reading_done k s' v' R' NE' ET T).
Qed.

(** The value of a JSON text has the kind that the first byte of the
    text, white space apart, announces. *)
Lemma checkValid_kind (data : string) (v : Json.value) :
  Json.checkValid data = inl v ->
  exists c, firstNonSpace data = Some c /\ startKind c = Some (kindOf v).
Proof.
  unfold Json.checkValid.
  assert (G : forall s, fresh s -> Json.eof (Json.scan s data) = inl v ->
                   exists c, firstNonSpace data = Some c /\ startKind c = Some (kindOf v)).
  { induction data as [|c rest IH]; intros s F E; cbn [Json.scan firstNonSpace] in *.
    - exfalso. destruct s as [st ps et l t]. destruct F as (F1 & F2 & F3 & F4).
      cbn in *. subst. discriminate E.
    - pose proof (first_step s c F) as H.
      destruct (Json.isSpace c).
      + rewrite H in E. now apply (IH s).
      + exists c. split; [reflexivity|].
        destruct (startKind c) as [k|].
        * f_equal. symmetry. eapply eof_reading; [|exact E]. now apply scan_reading.
        * rewrite scan_error, eof_error in E by exact H. discriminate. }
  apply G. repeat split.
Qed.

Lemma startKind_array (c : byte) : startKind c = Some KArray -> c = "["%char.
Proof.
  unfold startKind.
  destruct (c =? "{")%char; [discriminate|].
  destruct (c =? "[")%char eqn:E; [intros _; now apply Ascii.eqb_eq|].
  split_matches; discriminate.
Qed.

Lemma startKind_null (c : byte) : startKind c = Some KNull -> c = "n"%char.
Proof.
  unfold startKind.
  repeat match goal with
         | |- context [if (c =? "n")%char then _ else _] =>
           destruct (c =? "n")%char eqn:E; [intros _; now apply Ascii.eqb_eq|]
         | |- context [if ?b then _ else _] => destruct b; [discriminate|]
         end.
  discriminate.
Qed.

(** An inner text that is taken as sections starts, white space apart,
    with an opening bracket or with the [n] of [null]. *)
Lemma taken_as_sections_start (inner : string) :
  taken_as_sections inner = true ->
  firstNonSpace inner = Some "["%char \/ firstNonSpace inner = Some "n"%char.
Proof.
  unfold taken_as_sections.
  destruct (Json.checkValid inner) as [v|e] eqn:V; [|discriminate].
  destruct (checkValid_kind inner v V) as (c & F & K).
  destruct v; try discriminate; intros _; cbn [kindOf] in K.
  - right. now rewrite F, (startKind_null c K).
  - left. now rewrite F, (startKind_array c K).
Qed.

Lemma scan_app (a b : string) :
  forall s, Json.scan s (a ++ b) = Json.scan (Json.scan s a) b.
Proof.
  induction a as [|c a IH]; intros s; cbn [String.append Json.scan]; [reflexivity|].
  apply IH.
Qed.

(** With a bracket open, white space does not end the value. *)
Lemma scan_step_space_open (s : Json.scanner) :
  Json.parseState s <> [] ->
  Json.step (Json.scan_step s " "%char) = Json.stateError
  \/ Json.parseState (Json.scan_step s " "%char) <> [].
Proof.
  destruct s as [st ps et l t]. cbn [Json.parseState]. intros NE.
  destruct ps as [|f ps]; [congruence|].
  destruct st; unfold_scanner; cbn; split_matches; cbn;
    first [left; reflexivity | right; discriminate].
Qed.

(** When the value read at the end of the input is an array or an
    object, the scanner is past its closing bracket. *)
Lemma eof_container (k : kind) (s : Json.scanner) (v : Json.value) :
  reading k s -> isContainer k = true -> Json.eof s = inl v ->
  Json.step s = Json.stateEndTop.
Proof.
  intros R C. unfold Json.eof.
  destruct (Json.isError s) eqn:NE; [discriminate|].
  destruct (Json.endTop s) eqn:ET.
  - rewrite NE, ET. destruct (Json.top s) as [v'|] eqn:T; [|discriminate].
    intros _. now destruct (reading_done k s v' R NE ET T) as (_ & _ & S).
  - destruct (Json.isError (Json.scan_step s " "%char)) eqn:NE'; [discriminate|].
    destruct (Json.endTop (Json.scan_step s " "%char)) eqn:ET'; [|discriminate].
    destruct (Json.top (Json.scan_step s " "%char)) as [v'|] eqn:T'; [|discriminate].
    intros _. exfalso.
    destruct (reading_done k _ v' (scan_step_reading k s " "%char R) NE' ET' T')
      as (_ & PS & _).
    unfold reading in R. unfold Json.isError in NE, NE'.
    destruct R as [E|R]; [now rewrite E in NE|].
    destruct (Json.parseState s) as [|f ps] eqn:P.
    + destruct (Json.top s) as [v0|].
      * destruct R as [_ [(_ & _ & F) | (_ & F)]]; congruence.
      * destruct R as [_ L]. destruct (Json.step s), k; discriminate.
    + destruct (scan_step_space_open s) as [E|E]; [congruence | | congruence].
      now rewrite E in NE'.
Qed.

(** After the top-level value, anything but white space is an error. *)
Lemma scan_after_top (extra : string) (c : byte) :
  forall s,
    Json.step s = Json.stateEndTop ->
    firstNonSpace extra = Some c ->
    Json.step (Json.scan s extra) = Json.stateError.
Proof.
  induction extra as [|x rest IH]; intros s S F; cbn [firstNonSpace Json.scan] in *.
  - discriminate.
  - unfold Json.scan_step at 1. rewrite S. unfold Json.stepEndTop.
    destruct (Json.isSpace x).
    + now apply IH.
    + now rewrite scan_error.
Qed.

(** Text after a JSON array, other than white space, makes the whole
    text invalid. *)
Lemma checkValid_array_then_text (arr extra : string) (es : list Json.value) (c : byte) :
  Json.checkValid arr = inl (Json.Array es) ->
  firstNonSpace extra = Some c ->
  Json.checkValid (arr ++ extra) = inr Json.SyntaxError.
Proof.
  intros V F.
  destruct (checkValid_kind arr _ V) as (c0 & F0 & K0). cbn [kindOf] in K0.
  unfold Json.checkValid in *. rewrite scan_app.
  assert (R : reading KArray (Json.scan Json.reset arr)).
  { clear V. revert F0.
    assert (G : forall s, fresh s -> firstNonSpace arr = Some c0 ->
                     reading KArray (Json.scan s arr)).
    { induction arr as [|x rest IH]; intros s Fr F0; cbn [firstNonSpace Json.scan] in *.
      - discriminate.
      - pose proof (first_step s x Fr) as H.
        destruct (Json.isSpace x).
        + rewrite H. now apply IH.
        + injection F0 as ->. rewrite K0 in H. now apply scan_reading. }
    apply G. repeat split. }
  apply eof_error, (scan_after_top extra c); [|exact F].
  now apply (eof_container KArray _ _ R eq_refl V).
Qed.

(** ** Text around the array of sections *)

Lemma Execute_inner_not_taken (h : Host) (given : list (string * string))
      (flags : Pflag.FlagSet) (text body inner : string) (w : World) :
  Pflag.Parse analiseCmd_Flags given = Some flags ->
  network h (requests w) (segmentationRequest (llmHostOf h flags) text) = answers body ->
  envelopeOf body = Some inner ->
  taken_as_sections inner = false ->
  exists e,
    Execute h (mkCommandLine given [text]) w
    = (1%Z,
       extend w
         (notices h flags ++ ["Error parsing response array: " ++ errorText h e ++ newline])
         [segmentationRequest (llmHostOf h flags) text]).
Proof.
  intros P N E A.
  destruct (Unmarshal_strings_error inner A) as (s & e & U).
  exists e. apply Execute_segmentation_exits; [exact P|].
  intros w'. rewrite N. now apply (decodeSections_array_error h body inner s e w').
Qed.

(** X12. No text may come before the array: when the inner text of the
    segmentation answer starts, white space apart, with a byte other than
    an opening bracket and other than the [n] of [null] (prose, a code
    fence, a quoted string), or is empty, the run ends with status 1 after
    the diagnostic of the inner decoding; no extraction of the array is
    tried. *)
Theorem leading_text_is_refused (h : Host) (given : list (string * string))
        (flags : Pflag.FlagSet) (text body inner : string) (w : World) :
  Pflag.Parse analiseCmd_Flags given = Some flags ->
  network h (requests w) (segmentationRequest (llmHostOf h flags) text) = answers body ->
  envelopeOf body = Some inner ->
  firstNonSpace inner <> Some "["%char ->
  firstNonSpace inner <> Some "n"%char ->
  exists e,
    Execute h (mkCommandLine given [text]) w
    = (1%Z,
       extend w
         (notices h flags ++ ["Error parsing response array: " ++ errorText h e ++ newline])
         [segmentationRequest (llmHostOf h flags) text]).
Proof.
  intros P N E F1 F2.
  apply (Execute_inner_not_taken h given flags text body inner w P N E).
  destruct (taken_as_sections inner) eqn:T; [|reflexivity].
  destruct (taken_as_sections_start inner T); contradiction.
Qed.

Lemma leading_text_is_refused_witness :
  let body := q "{'response': 'Here are the sections: [\'a\', \'b\']'}" in
  exists e,
    Execute (scripted [answers body])
      (mkCommandLine [("llm-host", "http://x"); ("translation-language", "pt-BR")]
                     ["Hallo Welt"]) start
    = (1%Z,
       mkWorld ["Error parsing response array: " ++ e ++ newline]
               [segmentationRequest "http://x" "Hallo Welt"]).
Proof.
  intros body.
  destruct (leading_text_is_refused (scripted [answers body])
              [("llm-host", "http://x"); ("translation-language", "pt-BR")] _
              "Hallo Welt" body (q "Here are the sections: ['a', 'b']") start
              eq_refl eq_refl) as [e E].
  - vm_compute. reflexivity.
  - discriminate.
  - discriminate.
  - exists "json: error". rewrite E. reflexivity.
Defined.

(** X13. No text may come after the array: when the inner text of the
    segmentation answer is a JSON array followed by anything but white
    space, the run ends with status 1 after the diagnostic of the inner
    decoding. *)
Theorem trailing_text_is_refused (h : Host) (given : list (string * string))
        (flags : Pflag.FlagSet) (text body arr extra : string)
        (es : list Json.value) (c : byte) (w : World) :
  Pflag.Parse analiseCmd_Flags given = Some flags ->
  network h (requests w) (segmentationRequest (llmHostOf h flags) text) = answers body ->
  envelopeOf body = Some (arr ++ extra) ->
  Json.checkValid arr = inl (Json.Array es) ->
  firstNonSpace extra = Some c ->
  exists e,
    Execute h (mkCommandLine given [text]) w
    = (1%Z,
       extend w
         (notices h flags ++ ["Error parsing response array: " ++ errorText h e ++ newline])
         [segmentationRequest (llmHostOf h flags) text]).
Proof.
  intros P N E V F.
  apply (Execute_inner_not_taken h given flags text body (arr ++ extra) w P N E).
  unfold taken_as_sections.
  now rewrite (checkValid_array_then_text arr extra es c V F).
Qed.

Lemma trailing_text_is_refused_witness :
  let body := q "{'response': '[\'a\', \'b\'] I hope this helps.'}" in
  exists e,
    Execute (scripted [answers body])
      (mkCommandLine [("llm-host", "http://x"); ("translation-language", "pt-BR")]
                     ["Hallo Welt"]) start
    = (1%Z,
       mkWorld ["Error parsing response array: " ++ e ++ newline]
               [segmentationRequest "http://x" "Hallo Welt"]).
Proof.
  intros body.
  destruct (trailing_text_is_refused (scripted [answers body])
              [("llm-host", "http://x"); ("translation-language", "pt-BR")] _
              "Hallo Welt" body (q "['a', 'b']") " I hope this helps."
              [Json.Str "a"; Json.Str "b"] "I"%char start
              eq_refl eq_refl) as [e E].
  - vm_compute. reflexivity.
  - vm_compute. reflexivity.
  - reflexivity.
  - exists "json: error". rewrite E. reflexivity.
Defined.
(** ** UTF-8: what a well-formed encoding is made of *)

Lemma allBytes_all (c : byte) : In c allBytes.
Proof.
  unfold allBytes. apply in_map_iff. exists (N.to_nat (b2n c)). split.
  - rewrite N2Nat.id. apply ascii_N_embedding.
  - apply in_seq. pose proof (N_ascii_bounded c). unfold b2n. lia.
Qed.

Lemma forallb_allBytes (P : byte -> bool) :
  forallb P allBytes = true -> forall c, P c = true.
Proof. intros H c. rewrite forallb_forall in H. apply H, allBytes_all. Qed.

Lemma in_range_cont (c : byte) (lo hi : N) :
  (0x80 <= lo)%N -> (hi <= 0xBF)%N -> in_range c lo hi = true -> cont c = true.
Proof.
  unfold cont, in_range. intros L U H. apply andb_true_iff in H as [H1 H2].
  apply N.leb_le in H1, H2. apply andb_true_iff. split; apply N.leb_le; lia.
Qed.

Lemma cont_high (c : byte) : cont c = true -> (b2n c <? Utf8.RuneSelf)%N = false.
Proof.
  unfold cont, in_range, Utf8.RuneSelf. intros H. apply andb_true_iff in H as [H _].
  apply N.leb_le in H. apply N.ltb_ge. exact H.
Qed.

(** A byte outside ASCII either does not begin a well-formed encoding, or
    begins one whose other bytes [p] are continuation bytes; the bytes
    after [p] have no part in it. *)
Lemma DecodeRune_view (c : byte) (rest : string) :
  (b2n c <? Utf8.RuneSelf)%N = false ->
  Utf8.DecodeRune (String c rest) = (Utf8.RuneError, 1%nat)
  \/ exists r p rest',
       rest = p ++ rest' /\ (1 <= String.length p)%nat /\ allCont p = true
       /\ S (String.length p) = width c
       /\ forall X, Utf8.DecodeRune (String c (p ++ X)) = (r, S (String.length p)).
Proof.
  intros A. unfold Utf8.RuneSelf in A. unfold Utf8.DecodeRune, width. rewrite A. cbv zeta.
  destruct (b2n c <? 0xC2)%N; [now left|].
  destruct (b2n c <? 0xE0)%N.
  { destruct rest as [|b1 rest']; [now left|].
    destruct (in_range b1 0x80 0xBF) eqn:B1; [|now left].
    right. eexists _, (String b1 EmptyString), rest'.
    split; [reflexivity|]. split; [cbn; lia|]. split; [|split; [reflexivity|]].
    - cbn [allCont]. unfold cont. now rewrite B1.
    - intros X. cbn [String.append String.length]. now rewrite B1. }
  destruct (b2n c <? 0xF0)%N.
  { destruct rest as [|b1 [|b2 rest']]; [now left | now left |].
    destruct (in_range b1 _ _ && in_range b2 0x80 0xBF) eqn:B; [|now left].
    right. eexists _, (String b1 (String b2 EmptyString)), rest'.
    split; [reflexivity|]. split; [cbn; lia|]. split; [|split; [reflexivity|]].
    - apply andb_true_iff in B as [B1 B2]. cbn [allCont].
      unfold cont at 2. rewrite B2.
      erewrite in_range_cont; [reflexivity| | |exact B1].
      + destruct (b2n c =? 0xE0)%N; lia.
      + destruct (b2n c =? 0xED)%N; lia.
    - intros X. cbn [String.append String.length]. now rewrite B. }
  destruct (b2n c <? 0xF5)%N; [|now left].
  destruct rest as [|b1 [|b2 [|b3 rest']]]; [now left | now left | now left |].
  destruct (in_range b1 _ _ && in_range b2 0x80 0xBF && in_range b3 0x80 0xBF) eqn:B;
    [|now left].
  right. eexists _, (String b1 (String b2 (String b3 EmptyString))), rest'.
  split; [reflexivity|]. split; [cbn; lia|]. split; [|split; [reflexivity|]].
  - apply andb_true_iff in B as [B B3]. apply andb_true_iff in B as [B1 B2].
    cbn [allCont]. unfold cont at 2 3. rewrite B2, B3.
    erewrite in_range_cont; [reflexivity| | |exact B1].
    + destruct (b2n c =? 0xF0)%N; lia.
    + destruct (b2n c =? 0xF4)%N; lia.
  - intros X. cbn [String.append String.length]. now rewrite B.
Qed.

(** [lineSepCheck] over all encodings of two and of three bytes, and the
    fact that an encoding of four bytes gives a rune from 0x10000 on, over
    all its first two bytes. *)
Lemma lineSepTable2 :
  forallb (fun c =>
    if (width c =? 2)%nat
    then forallb (fun b1 => lineSepCheck (String c (String b1 EmptyString))) allBytes
    else true) allBytes = true.
Proof. vm_compute. reflexivity. Qed.

Lemma lineSepTable3 :
  forallb (fun c =>
    if (width c =? 3)%nat
    then forallb (fun b1 =>
           if cont b1
           then forallb (fun b2 =>
                  if cont b2
                  then lineSepCheck (String c (String b1 (String b2 EmptyString)))
                  else true) allBytes
           else true) allBytes
    else true) allBytes = true.
Proof. vm_compute. reflexivity. Qed.

Lemma lineSepTable4 :
  forallb (fun c =>
    if (width c =? 4)%nat
    then forallb (fun b1 =>
           if in_range b1 (if (b2n c =? 0xF0)%N then 0x90%N else 0x80%N)
                          (if (b2n c =? 0xF4)%N then 0x8F%N else 0xBF%N)
           then negb ((N.shiftr (N.shiftl (N.land (b2n c) 0x07) 18) 16 =? 0)%N
                      && (N.shiftr (N.shiftl (Utf8.contbits b1) 12) 16 =? 0)%N)
           else true) allBytes
    else true) allBytes = true.
Proof. vm_compute. reflexivity. Qed.

Lemma lineSep2 (c b1 : byte) :
  width c = 2%nat -> lineSepCheck (String c (String b1 EmptyString)) = true.
Proof.
  intros W. pose proof (forallb_allBytes _ lineSepTable2 c) as T. cbv beta in T.
  rewrite W in T. exact (forallb_allBytes _ T b1).
Qed.

Lemma lineSep3 (c b1 b2 : byte) :
  width c = 3%nat -> cont b1 = true -> cont b2 = true ->
  lineSepCheck (String c (String b1 (String b2 EmptyString))) = true.
Proof.
  intros W C1 C2. pose proof (forallb_allBytes _ lineSepTable3 c) as T. cbv beta in T.
  rewrite W in T. pose proof (forallb_allBytes _ T b1) as T1. cbv beta in T1.
  rewrite C1 in T1. pose proof (forallb_allBytes _ T1 b2) as T2. cbv beta in T2.
  now rewrite C2 in T2.
Qed.

Lemma lineSep4 (c b1 : byte) :
  width c = 4%nat ->
  in_range b1 (if (b2n c =? 0xF0)%N then 0x90%N else 0x80%N)
              (if (b2n c =? 0xF4)%N then 0x8F%N else 0xBF%N) = true ->
  N.shiftr (N.shiftl (N.land (b2n c) 0x07) 18) 16 = 0%N ->
  N.shiftr (N.shiftl (Utf8.contbits b1) 12) 16 = 0%N -> False.
Proof.
  intros W B Z1 Z2. pose proof (forallb_allBytes _ lineSepTable4 c) as T. cbv beta in T.
  rewrite W in T. pose proof (forallb_allBytes _ T b1) as T1. cbv beta in T1.
  rewrite B, Z1, Z2 in T1. discriminate T1.
Qed.

Lemma width_le (c : byte) : (width c <= 4)%nat.
Proof. unfold width. repeat (destruct (_ <? _)%N); lia. Qed.

(** U+2028 and U+2029 have one encoding each. *)
Lemma lineSep_bytes (c : byte) (p : string) (r : Utf8.rune) :
  allCont p = true -> (1 <= String.length p)%nat -> S (String.length p) = width c ->
  Utf8.DecodeRune (String c p) = (r, S (String.length p)) ->
  isLineSep r = true ->
  Utf8.EncodeRune r = String c p.
Proof.
  intros C L W D R.
  destruct p as [|b1 [|b2 [|b3 [|b4 p']]]]; cbn [String.length] in *.
  - lia.
  - pose proof (lineSep2 c b1 (eq_sym W)) as T.
    unfold lineSepCheck in T. rewrite D, R in T. now apply String.eqb_eq.
  - cbn [allCont] in C. apply andb_true_iff in C as [C1 C].
    apply andb_true_iff in C as [C2 _].
    pose proof (lineSep3 c b1 b2 (eq_sym W) C1 C2) as T.
    unfold lineSepCheck in T. rewrite D, R in T. now apply String.eqb_eq.
  - exfalso. pose proof (lineSep4 c b1 (eq_sym W)) as T.
    unfold Utf8.DecodeRune in D. unfold width in W. cbv zeta in D.
    destruct (b2n c <? 0x80)%N; [discriminate D|].
    destruct (b2n c <? 0xC2)%N; [discriminate D|].
    destruct (b2n c <? 0xE0)%N; [discriminate W|].
    destruct (b2n c <? 0xF0)%N; [discriminate W|].
    destruct (b2n c <? 0xF5)%N; [|discriminate D].
    destruct (in_range b1 _ _); [|discriminate D]. cbn [andb] in D.
    destruct (in_range b2 _ _ && in_range b3 _ _); [|discriminate D].
    injection D as D.
    assert (Z : N.shiftr r 16 = 0%N).
    { unfold isLineSep in R. apply orb_true_iff in R as [R|R];
        apply N.eqb_eq in R; rewrite R; reflexivity. }
    rewrite <- D, !N.shiftr_lor in Z.
    apply N.lor_eq_0_iff in Z as [Z1 Z]. apply N.lor_eq_0_iff in Z as [Z2 _].
    exact (T eq_refl Z1 Z2).
  - pose proof (width_le c). lia.
Qed.

(** ** String literals: what the encoder writes, the decoder reads back *)

Lemma append_nil_r (s : string) : s ++ EmptyString = s.
Proof. induction s as [|c s IH]; cbn; [reflexivity | now rewrite IH]. Qed.

Lemma length_append (a b : string) :
  String.length (a ++ b) = (String.length a + String.length b)%nat.
Proof. induction a as [|c a IH]; cbn; [reflexivity | now rewrite IH]. Qed.

Lemma prepend_prepend (a b : string) (o : option string) :
  Json.prepend a (Json.prepend b o) = Json.prepend (a ++ b) o.
Proof. destruct o as [t|]; cbn; [now rewrite append_assoc | reflexivity]. Qed.

Lemma prepend_nil (o : option string) : Json.prepend EmptyString o = o.
Proof. now destruct o. Qed.

Lemma appendString_flag (s : string) :
  Json.appendString 0 false s = Json.appendString 0 true s.
Proof. now destruct s. Qed.

Lemma appendString_copy (p X : string) :
  Json.appendString (String.length p) true (p ++ X) = p ++ Json.appendString 0 true X.
Proof.
  induction p as [|c p IH]; cbn [String.length String.append]; [reflexivity|].
  cbn [Json.appendString]. now rewrite IH.
Qed.

Lemma appendString_drop (p X : string) :
  Json.appendString (String.length p) false (p ++ X) = Json.appendString 0 true X.
Proof.
  induction p as [|c p IH]; cbn [String.length String.append];
    [apply appendString_flag|].
  cbn [Json.appendString]. exact IH.
Qed.

Lemma unquote_copy (p X : string) :
  Json.unquote (String.length p) (p ++ X) = Json.prepend p (Json.unquote 0 X).
Proof.
  induction p as [|c p IH]; cbn [String.length String.append];
    [now rewrite prepend_nil|].
  cbn [Json.unquote]. now rewrite IH, prepend_prepend.
Qed.

Lemma toValidUTF8_copy (p X : string) :
  toValidUTF8 (String.length p) (p ++ X) = p ++ toValidUTF8 0 X.
Proof.
  induction p as [|c p IH]; cbn [String.length String.append]; [reflexivity|].
  cbn [toValidUTF8]. now rewrite IH.
Qed.

Lemma ValidString_skip (p X : string) :
  ValidString (String.length p) (p ++ X) = ValidString 0 X.
Proof.
  induction p as [|c p IH]; cbn [String.length String.append]; [reflexivity|].
  cbn [ValidString]. exact IH.
Qed.

Lemma valid_size (r : Utf8.rune) (n : nat) :
  (1 <= n)%nat -> (r =? Utf8.RuneError)%N && (S n =? 1)%nat = false.
Proof. intros L. destruct n; [lia|]. apply andb_false_r. Qed.

(** The bytes that the encoder writes for one byte of ASCII are read back
    as that byte. *)
Lemma unquote_ascii (c : byte) (X : string) :
  (b2n c <? Utf8.RuneSelf)%N = true ->
  Json.unquote 0 ((if Json.htmlSafe c then String c EmptyString else Json.escapeByte c) ++ X)
  = Json.prepend (String c EmptyString) (Json.unquote 0 X).
Proof.
  destruct c as [[] [] [] [] [] [] [] []]; intros H;
    try discriminate H; reflexivity.
Qed.

Lemma unquote_replacement (X : string) :
  Json.unquote 0 ("\ufffd" ++ X)
  = Json.prepend (Utf8.EncodeRune Utf8.RuneError) (Json.unquote 0 X).
Proof. reflexivity. Qed.

Lemma unquote_lineSep (r : Utf8.rune) (X : string) :
  isLineSep r = true ->
  Json.unquote 0 ("\u202" ++ String (Json.hex (N.land r 0xF)) X)
  = Json.prepend (Utf8.EncodeRune r) (Json.unquote 0 X).
Proof.
  unfold isLineSep. intros R. apply orb_true_iff in R as [R|R];
    apply N.eqb_eq in R; subst r; reflexivity.
Qed.

Lemma high_plain (c : byte) :
  (b2n c <? Utf8.RuneSelf)%N = false ->
  (c =? "\")%char = false /\ (c =? dquote)%char = false /\ (b2n c <? 32)%N = false.
Proof.
  destruct c as [[] [] [] [] [] [] [] []]; intros H;
    try discriminate H; repeat split; reflexivity.
Qed.

Lemma unquote_high (c : byte) (X : string) :
  (b2n c <? Utf8.RuneSelf)%N = false ->
  Json.unquote 0 (String c X)
  = let (r, size) := Utf8.DecodeRune (String c X) in
    if (r =? Utf8.RuneError)%N && (size =? 1)%nat
    then Json.prepend (Utf8.EncodeRune Utf8.RuneError) (Json.unquote 0 X)
    else Json.prepend (String c EmptyString) (Json.unquote (size - 1) X).
Proof.
  intros H. destruct (high_plain c H) as (E1 & E2 & E3).
  cbn [Json.unquote]. now rewrite E1, E2, E3, H.
Qed.

Lemma appendString_ascii (c : byte) (rest : string) :
  (b2n c <? Utf8.RuneSelf)%N = true ->
  Json.appendString 0 true (String c rest)
  = (if Json.htmlSafe c then String c EmptyString else Json.escapeByte c)
      ++ Json.appendString 0 true rest.
Proof.
  intros H. cbn [Json.appendString]. rewrite H. now destruct (Json.htmlSafe c).
Qed.

Lemma appendString_ill (c : byte) (rest : string) :
  (b2n c <? Utf8.RuneSelf)%N = false ->
  Utf8.DecodeRune (String c rest) = (Utf8.RuneError, 1%nat) ->
  Json.appendString 0 true (String c rest) = "\ufffd" ++ Json.appendString 0 true rest.
Proof. intros H D. cbn [Json.appendString]. now rewrite H, D. Qed.

Lemma appendString_rune (c : byte) (p rest : string) (r : Utf8.rune) :
  (b2n c <? Utf8.RuneSelf)%N = false -> (1 <= String.length p)%nat ->
  Utf8.DecodeRune (String c (p ++ rest)) = (r, S (String.length p)) ->
  Json.appendString 0 true (String c (p ++ rest))
  = if isLineSep r
    then "\u202" ++ String (Json.hex (N.land r 0xF)) (Json.appendString 0 true rest)
    else String c (p ++ Json.appendString 0 true rest).
Proof.
  intros H L D. cbn [Json.appendString]. rewrite H, D, (valid_size r _ L).
  cbn [Nat.sub]. rewrite Nat.sub_0_r. fold (isLineSep r).
  destruct (isLineSep r); [now rewrite appendString_drop | now rewrite appendString_copy].
Qed.

Lemma toValidUTF8_rune (c : byte) (p rest : string) (r : Utf8.rune) :
  (b2n c <? Utf8.RuneSelf)%N = false -> (1 <= String.length p)%nat ->
  Utf8.DecodeRune (String c (p ++ rest)) = (r, S (String.length p)) ->
  toValidUTF8 0 (String c (p ++ rest)) = String c (p ++ toValidUTF8 0 rest).
Proof.
  intros H L D. cbn [toValidUTF8]. rewrite H, D, (valid_size r _ L).
  cbn [Nat.sub]. now rewrite Nat.sub_0_r, toValidUTF8_copy.
Qed.

(** Decoding what the encoder wrote for [x] gives [x] with its ill-formed
    bytes replaced. *)
Lemma unquote_appendString (n : nat) :
  forall x, (String.length x <= n)%nat ->
  Json.unquote 0 (Json.appendString 0 true x) = Some (toValidUTF8 0 x).
Proof.
  induction n as [|n IH]; intros [|c rest] L; cbn [String.length] in L;
    try reflexivity; try lia.
  destruct (b2n c <? Utf8.RuneSelf)%N eqn:A.
  - rewrite (appendString_ascii c rest A), (unquote_ascii c _ A), IH by lia.
    cbn [toValidUTF8]. now rewrite A.
  - destruct (DecodeRune_view c rest A) as [D | (r & p & rest' & -> & Lp & C & W & D)].
    + rewrite (appendString_ill c rest A D), unquote_replacement, IH by lia.
      cbn [toValidUTF8]. now rewrite A, D.
    + rewrite length_append in L.
      rewrite (appendString_rune c p rest' r A Lp (D rest')),
        (toValidUTF8_rune c p rest' r A Lp (D rest')).
      destruct (isLineSep r) eqn:R.
      * rewrite (unquote_lineSep r _ R), IH by lia.
        specialize (D EmptyString). rewrite append_nil_r in D.
        rewrite (lineSep_bytes c p r C Lp W D R). reflexivity.
      * rewrite (unquote_high c _ A), (D (Json.appendString 0 true rest')),
          (valid_size r _ Lp).
        cbn [Nat.sub]. rewrite Nat.sub_0_r, unquote_copy, IH by lia. reflexivity.
Qed.

Lemma toValidUTF8_valid (s : string) :
  forall k, ValidString k s = true -> toValidUTF8 k s = s.
Proof.
  induction s as [|c rest IH]; intros k V; [now destruct k|].
  destruct k as [|k]; cbn [ValidString toValidUTF8] in *.
  - destruct (b2n c <? Utf8.RuneSelf)%N; [now rewrite IH|].
    destruct (Utf8.DecodeRune (String c rest)) as [r size].
    destruct ((r =? Utf8.RuneError)%N && (size =? 1)%nat); [discriminate V|].
    now rewrite IH.
  - now rewrite IH.
Qed.

(** A well-formed text followed by a text is well formed when the
    second is. *)
Lemma ValidString_app (n : nat) :
  forall a b, (String.length a <= n)%nat -> ValidString 0 a = true ->
  ValidString 0 (a ++ b) = ValidString 0 b.
Proof.
  induction n as [|n IH]; intros [|c rest] b L V; cbn [String.length] in L;
    try reflexivity; try lia.
  cbn [String.append]. destruct (b2n c <? Utf8.RuneSelf)%N eqn:A.
  - cbn [ValidString] in *. rewrite A in *. apply IH; [lia | exact V].
  - destruct (DecodeRune_view c rest A) as [D | (r & p & rest' & -> & Lp & C & W & D)].
    + cbn [ValidString] in V. rewrite A, D in V. discriminate V.
    + rewrite length_append in L. rewrite append_assoc.
      cbn [ValidString] in *. rewrite A in *.
      rewrite (D rest'), (valid_size r _ Lp) in V.
      rewrite (D (rest' ++ b)), (valid_size r _ Lp).
      cbn [Nat.sub] in *. rewrite Nat.sub_0_r in *.
      rewrite ValidString_skip in *. apply IH; [lia | exact V].
Qed.

Lemma push_app (a b : string) : forall l, push (a ++ b) l = push b (push a l).
Proof. induction a as [|c a IH]; intros l; cbn; [reflexivity | apply IH]. Qed.

Lemma rev_string_push (t : string) :
  forall l tail, rev_string (push t l) tail = rev_string l (t ++ tail).
Proof.
  induction t as [|c t IH]; intros l tail; cbn [push String.append]; [reflexivity|].
  now rewrite IH.
Qed.

(** Inside a string literal, the scanner keeps what the encoder writes
    for one byte of ASCII and goes on inside the literal. *)
Lemma scan_ascii (c : byte) (ps : list Json.frame) (e : bool) (l : list byte)
      (t : option Json.value) :
  (b2n c <? Utf8.RuneSelf)%N = true ->
  Json.scan (Json.mkScanner Json.stateInString ps e l t)
            (if Json.htmlSafe c then String c EmptyString else Json.escapeByte c)
  = Json.mkScanner Json.stateInString ps e
      (push (if Json.htmlSafe c then String c EmptyString else Json.escapeByte c) l) t.
Proof.
  destruct c as [[] [] [] [] [] [] [] []]; intros H;
    try discriminate H; reflexivity.
Qed.

Lemma scan_escape (w : string) (ps : list Json.frame) (e : bool) (l : list byte)
      (t : option Json.value) :
  w = "\ufffd" \/ w = "\u2028" \/ w = "\u2029" ->
  Json.scan (Json.mkScanner Json.stateInString ps e l t) w
  = Json.mkScanner Json.stateInString ps e (push w l) t.
Proof. intros [->|[->| ->]]; reflexivity. Qed.

Lemma scan_step_high (c : byte) (ps : list Json.frame) (e : bool) (l : list byte)
      (t : option Json.value) :
  (b2n c <? Utf8.RuneSelf)%N = false ->
  Json.scan_step (Json.mkScanner Json.stateInString ps e l t) c
  = Json.mkScanner Json.stateInString ps e (c :: l) t.
Proof.
  intros H. destruct (high_plain c H) as (E1 & E2 & E3).
  unfold Json.scan_step. cbn [Json.step]. now rewrite E1, E2, E3.
Qed.

Lemma scan_cont (p : string) (ps : list Json.frame) (e : bool) (t : option Json.value) :
  forall l, allCont p = true ->
  Json.scan (Json.mkScanner Json.stateInString ps e l t) p
  = Json.mkScanner Json.stateInString ps e (push p l) t.
Proof.
  induction p as [|c p IH]; intros l C; [reflexivity|].
  cbn [allCont] in C. apply andb_true_iff in C as [C1 C].
  cbn [Json.scan push]. rewrite (scan_step_high c ps e l t (cont_high c C1)).
  now apply IH.
Qed.

Lemma lineSep_escape (r : Utf8.rune) :
  isLineSep r = true ->
  "\u202" ++ String (Json.hex (N.land r 0xF)) EmptyString = "\u2028"
  \/ "\u202" ++ String (Json.hex (N.land r 0xF)) EmptyString = "\u2029".
Proof.
  unfold isLineSep. intros R. apply orb_true_iff in R as [R|R];
    apply N.eqb_eq in R; subst r; [left | right]; reflexivity.
Qed.

(** The scanner takes what the encoder wrote for [x] as the inside of a
    string literal. *)
Lemma scan_appendString (ps : list Json.frame) (e : bool) (t : option Json.value)
      (n : nat) :
  forall x l, (String.length x <= n)%nat ->
  Json.scan (Json.mkScanner Json.stateInString ps e l t) (Json.appendString 0 true x)
  = Json.mkScanner Json.stateInString ps e (push (Json.appendString 0 true x) l) t.
Proof.
  induction n as [|n IH]; intros [|c rest] l L; cbn [String.length] in L;
    try reflexivity; try lia.
  destruct (b2n c <? Utf8.RuneSelf)%N eqn:A.
  - rewrite (appendString_ascii c rest A), scan_app, push_app, (scan_ascii c ps e l t A).
    apply IH. lia.
  - destruct (DecodeRune_view c rest A) as [D | (r & p & rest' & -> & Lp & C & W & D)].
    + rewrite (appendString_ill c rest A D), scan_app, push_app, scan_escape by auto.
      apply IH. lia.
    + rewrite length_append in L.
      rewrite (appendString_rune c p rest' r A Lp (D rest')).
      destruct (isLineSep r) eqn:R.
      * change ("\u202" ++ String (Json.hex (N.land r 0xF)) (Json.appendString 0 true rest'))
          with (("\u202" ++ String (Json.hex (N.land r 0xF)) EmptyString)
                  ++ Json.appendString 0 true rest').
        rewrite scan_app, push_app, scan_escape by (right; now apply lineSep_escape).
        apply IH. lia.
      * change (String c (p ++ Json.appendString 0 true rest'))
          with (String c EmptyString ++ (p ++ Json.appendString 0 true rest')).
        rewrite !scan_app, !push_app. cbn [Json.scan push String.append].
        rewrite (scan_step_high c ps e l t A), (scan_cont p ps e t _ C).
        apply IH. lia.
Qed.

(** A string literal as the encoder writes it is read as the string
    [toValidUTF8 0 x], in every state in which a string may begin. *)
Lemma scan_quote (st : Json.stepfn) (ps : list Json.frame) (e : bool) (l : list byte)
      (t : option Json.value) (x : string) :
  beginsString st = true ->
  Json.scan (Json.mkScanner st ps e l t) (Json.quote x)
  = Json.finish (Json.Str (toValidUTF8 0 x))
      (Json.mkScanner Json.stateInString ps e (push (Json.appendString 0 true x) []) t).
Proof.
  intros B. unfold Json.quote. cbn [Json.scan].
  replace (Json.scan_step (Json.mkScanner st ps e l t) dquote)
    with (Json.mkScanner Json.stateInString ps e [] t)
    by (destruct st; try discriminate B; reflexivity).
  rewrite scan_app, (scan_appendString ps e t _ x [] (le_n _)).
  cbn [Json.scan]. unfold Json.scan_step. cbn [Json.step].
  replace (dquote =? dquote)%char with true by reflexivity.
  unfold Json.finishString. cbn [Json.lit].
  rewrite rev_string_push. cbn [rev_string]. rewrite append_nil_r.
  rewrite (unquote_appendString _ x (le_n _)). reflexivity.
Qed.

Ltac scan_strings :=
  rewrite ?scan_app;
  repeat (cbn -[Json.quote toValidUTF8 Json.appendString push Json.unquote];
          rewrite scan_quote by reflexivity).

(** The compact encoding of a struct of two strings and a bool is read
    back as an object with these members, in their order. *)
Lemma checkValid_payload (k1 k2 k3 m p : string) (b : bool) :
  Json.checkValid
    (Json.encode (Json.Object [(k1, Json.Str m); (k2, Json.Str p); (k3, Json.Bool b)]))
  = inl (Json.Object [(toValidUTF8 0 k1, Json.Str (toValidUTF8 0 m));
                      (toValidUTF8 0 k2, Json.Str (toValidUTF8 0 p));
                      (toValidUTF8 0 k3, Json.Bool b)]).
Proof.
  unfold Json.checkValid. cbn [Json.encode map Json.join fst snd].
  destruct b; scan_strings. 
  all: reflexivity.
Qed.

(** ** The printed document read back *)

Lemma scan_item (r : ResultItem) (st : Json.stepfn) (es : list Json.value) (e : bool)
      (l : list byte) (t : option Json.value) :
  st = Json.stateBeginValue \/ st = Json.stateBeginValueOrEmpty ->
  Json.scan (Json.mkScanner st [Json.parseArrayValue es] e l t)
            (Json.encode_indent EmptyString "    " 1 (ResultItem_json r))
  = Json.mkScanner Json.stateEndValue
      [Json.parseArrayValue (ResultItem_json (toValidItem r) :: es)] e [] t.
Proof.
  unfold ResultItem_json, toValidItem.
  cbn [Json.encode_indent Json.encode map Json.join fst snd Source Translation].
  intros [-> | ->]; scan_strings; reflexivity.
Qed.

Lemma scan_items (e : bool) (t : option Json.value) (items : list ResultItem) :
  forall st es l,
  items <> [] ->
  st = Json.stateBeginValue \/ st = Json.stateBeginValueOrEmpty ->
  Json.scan (Json.mkScanner st [Json.parseArrayValue es] e l t)
            (Json.join ("," ++ Json.newline_at EmptyString "    " 1)
               (map (Json.encode_indent EmptyString "    " 1) (map ResultItem_json items)))
  = Json.mkScanner Json.stateEndValue
      [Json.parseArrayValue (rev (map ResultItem_json (map toValidItem items)) ++ es)%list]
      e [] t.
Proof.
  induction items as [|r rest IH]; intros st es l NE B; [congruence|].
  destruct rest as [|r' rest].
  - cbn [map Json.join rev app]. now apply scan_item.
  - set (tl := r' :: rest) in *.
    change (Json.join ("," ++ Json.newline_at EmptyString "    " 1)
              (map (Json.encode_indent EmptyString "    " 1) (map ResultItem_json (r :: tl))))
      with (Json.encode_indent EmptyString "    " 1 (ResultItem_json r)
              ++ ("," ++ Json.newline_at EmptyString "    " 1)
              ++ Json.join ("," ++ Json.newline_at EmptyString "    " 1)
                   (map (Json.encode_indent EmptyString "    " 1) (map ResultItem_json tl))).
    rewrite scan_app, (scan_item r st es e l t B), scan_app.
    replace (Json.scan (Json.mkScanner Json.stateEndValue
                          [Json.parseArrayValue (ResultItem_json (toValidItem r) :: es)] e [] t)
                       ("," ++ Json.newline_at EmptyString "    " 1))
      with (Json.mkScanner Json.stateBeginValue
              [Json.parseArrayValue (ResultItem_json (toValidItem r) :: es)] e [] t)
      by reflexivity.
    rewrite IH by (subst tl; auto; discriminate).
    cbn [map rev]. now rewrite <- !app_assoc.
Qed.

(** The line that a run prints for its result list is a JSON text, and
    reading it gives the list back. *)
Lemma checkValid_document (items : list ResultItem) :
  Json.checkValid
    (Json.encode_indent EmptyString "    " 0 (results_json (appended Nil items)) ++ newline)
  = inl (results_json (appended Nil (map toValidItem items))).
Proof.
  rewrite !appended_Nil. destruct items as [|r rest]; [reflexivity|].
  set (l := r :: rest). cbn [map]. unfold Json.checkValid. cbn [results_json].
  change (Json.encode_indent EmptyString "    " 0 (Json.Array (map ResultItem_json l)))
    with ("[" ++ Json.newline_at EmptyString "    " 1
              ++ Json.join ("," ++ Json.newline_at EmptyString "    " 1)
                   (map (Json.encode_indent EmptyString "    " 1) (map ResultItem_json l))
              ++ Json.newline_at EmptyString "    " 0 ++ "]").
  rewrite !scan_app.
  replace (Json.scan (Json.scan Json.reset "[") (Json.newline_at EmptyString "    " 1))
    with (Json.mkScanner Json.stateBeginValueOrEmpty [Json.parseArrayValue []] false [] None)
    by reflexivity.
  rewrite scan_items by (subst l; auto; discriminate).
  rewrite app_nil_r.
  cbn -[rev map]. rewrite rev_involutive. reflexivity.
Qed.

(** ** The requests are JSON *)

Lemma ValidString_append (a b : string) :
  ValidString 0 a = true -> ValidString 0 b = true -> ValidString 0 (a ++ b) = true.
Proof. intros A B. now rewrite (ValidString_app _ a b (le_n _) A). Qed.

Lemma ValidString_join (sep : string) (l : list string) :
  ValidString 0 sep = true -> Forall (fun s => ValidString 0 s = true) l ->
  ValidString 0 (Json.join sep l) = true.
Proof.
  intros S F. induction F as [|x rest X F IH]; [reflexivity|].
  destruct rest as [|y rest]; [exact X|].
  change (Json.join sep (x :: y :: rest)) with (x ++ sep ++ Json.join sep (y :: rest)).
  now repeat apply ValidString_append.
Qed.

Lemma segmentationPrompt_valid (text : string) :
  ValidString 0 text = true -> ValidString 0 (segmentationPrompt text) = true.
Proof.
  intros V. unfold segmentationPrompt, Fmt.lines.
  apply ValidString_join; [reflexivity|].
  repeat (constructor; [first [exact V | vm_compute; reflexivity]|]). constructor.
Qed.

Lemma translationPrompt_valid (lang section : string) :
  ValidString 0 lang = true -> ValidString 0 section = true ->
  ValidString 0 (translationPrompt lang section) = true.
Proof.
  intros L V. unfold translationPrompt, Fmt.lines.
  apply ValidString_join; [reflexivity|].
  constructor; [repeat apply ValidString_append; (exact L || reflexivity)|].
  repeat (constructor; [first [exact V | vm_compute; reflexivity]|]). constructor.
Qed.

(** X14. The body of the segmentation request and the body of a
    translation request are JSON texts whatever bytes the text, the
    language and the section hold: each is read as an object with the
    members [model], [prompt] and [stream], in this order, holding
    [llama3], the prompt that the code builds, in which a byte that is
    not part of a well-formed UTF-8 encoding has become U+FFFD, and
    [false]. *)
Theorem request_payloads_are_json (llmHost text lang section : string) :
  Json.checkValid (Payload (segmentationRequest llmHost text))
  = inl (RequestPayload_json
           (mkRequestPayload "llama3" (toValidUTF8 0 (segmentationPrompt text)) false))
  /\ Json.checkValid (Payload (translationRequest llmHost lang section))
     = inl (TranslationPayload_json
              (mkTranslationPayload "llama3"
                 (toValidUTF8 0 (translationPrompt lang section)) false)).
Proof.
  split.
  - exact (checkValid_payload "model" "prompt" "stream" "llama3"
             (segmentationPrompt text) false).
  - exact (checkValid_payload "model" "prompt" "stream" "llama3"
             (translationPrompt lang section) false).
Qed.

(** X15. When the text given on the command line is well-formed UTF-8,
    the endpoint reads in the segmentation request exactly the prompt
    built from it, whatever quotes, backslashes, control characters or
    angle brackets the text holds; so for a translation request, when the
    language and the section are well formed. *)
Theorem well_formed_text_is_sent_unchanged (llmHost text lang section : string) :
  ValidString 0 text = true -> ValidString 0 lang = true -> ValidString 0 section = true ->
  Json.checkValid (Payload (segmentationRequest llmHost text))
  = inl (RequestPayload_json (mkRequestPayload "llama3" (segmentationPrompt text) false))
  /\ Json.checkValid (Payload (translationRequest llmHost lang section))
     = inl (TranslationPayload_json
              (mkTranslationPayload "llama3" (translationPrompt lang section) false)).
Proof.
  intros T L S.
  rewrite <- (toValidUTF8_valid _ 0 (segmentationPrompt_valid text T)).
  rewrite <- (toValidUTF8_valid _ 0 (translationPrompt_valid lang section L S)).
  split.
  - exact (checkValid_payload "model" "prompt" "stream" "llama3"
             (segmentationPrompt text) false).
  - exact (checkValid_payload "model" "prompt" "stream" "llama3"
             (translationPrompt lang section) false).
Qed.

Lemma well_formed_text_is_sent_unchanged_witness :
  let text := q "Er sagte: 'Grüße' <b>\n" ++ newline in
  Json.checkValid (Payload (segmentationRequest "http://x" text))
  = inl (RequestPayload_json (mkRequestPayload "llama3" (segmentationPrompt text) false))
  /\ Json.checkValid (Payload (translationRequest "http://x" "pt-BR" "Grüße"))
     = inl (TranslationPayload_json
              (mkTranslationPayload "llama3" (translationPrompt "pt-BR" "Grüße") false)).
Proof.
  intros text.
  apply (well_formed_text_is_sent_unchanged "http://x" text "pt-BR" "Grüße");
    reflexivity.
Defined.

(** ** Answers written by [json.Marshal] *)

Lemma ValidString_ascii (c : byte) :
  (b2n c <? Utf8.RuneSelf)%N = true ->
  ValidString 0 (if Json.htmlSafe c then String c EmptyString else Json.escapeByte c) = true.
Proof.
  destruct c as [[] [] [] [] [] [] [] []]; intros H;
    try discriminate H; reflexivity.
Qed.

(** What the encoder writes is well formed. *)
Lemma ValidString_appendString (n : nat) :
  forall x, (String.length x <= n)%nat -> ValidString 0 (Json.appendString 0 true x) = true.
Proof.
  induction n as [|n IH]; intros [|c rest] L; cbn [String.length] in L;
    try reflexivity; try lia.
  destruct (b2n c <? Utf8.RuneSelf)%N eqn:A.
  - rewrite (appendString_ascii c rest A).
    apply ValidString_append; [now apply ValidString_ascii | apply IH; lia].
  - destruct (DecodeRune_view c rest A) as [D | (r & p & rest' & -> & Lp & C & W & D)].
    + rewrite (appendString_ill c rest A D).
      apply ValidString_append; [reflexivity | apply IH; lia].
    + rewrite length_append in L.
      rewrite (appendString_rune c p rest' r A Lp (D rest')).
      destruct (isLineSep r) eqn:R.
      * change ("\u202" ++ String (Json.hex (N.land r 0xF)) (Json.appendString 0 true rest'))
          with (("\u202" ++ String (Json.hex (N.land r 0xF)) EmptyString)
                  ++ Json.appendString 0 true rest').
        apply ValidString_append; [|apply IH; lia].
        destruct (lineSep_escape r R) as [-> | ->]; reflexivity.
      * cbn [ValidString]. rewrite A, (D (Json.appendString 0 true rest')),
          (valid_size r _ Lp).
        cbn [Nat.sub]. rewrite Nat.sub_0_r, ValidString_skip. apply IH. lia.
Qed.

Lemma ValidString_quote (x : string) : ValidString 0 (Json.quote x) = true.
Proof.
  unfold Json.quote.
  change (String dquote (Json.appendString 0 true x ++ String dquote EmptyString))
    with (String dquote EmptyString
            ++ Json.appendString 0 true x ++ String dquote EmptyString).
  repeat apply ValidString_append; try reflexivity.
  apply (ValidString_appendString _ x (le_n _)).
Qed.

Lemma ValidString_arrayText (sections : list string) :
  ValidString 0 (arrayText sections) = true.
Proof.
  unfold arrayText. cbn [Json.encode].
  repeat apply ValidString_append; try reflexivity.
  apply ValidString_join; [reflexivity|].
  rewrite map_map. apply Forall_forall. intros s I.
  apply in_map_iff in I as (x & <- & _). apply ValidString_quote.
Qed.

Lemma checkValid_envelope (t : string) :
  Json.checkValid (envelope t) = inl (Json.Object [("response", Json.Str (toValidUTF8 0 t))]).
Proof.
  unfold Json.checkValid, envelope. cbn [Json.encode map Json.join fst snd].
  scan_strings. reflexivity.
Qed.

Lemma scan_strings_list (e : bool) (t : option Json.value) (sections : list string) :
  forall st es l,
  sections <> [] ->
  st = Json.stateBeginValue \/ st = Json.stateBeginValueOrEmpty ->
  Json.scan (Json.mkScanner st [Json.parseArrayValue es] e l t)
            (Json.join "," (map Json.encode (map Json.Str sections)))
  = Json.mkScanner Json.stateEndValue
      [Json.parseArrayValue (rev (map Json.Str (map (toValidUTF8 0) sections)) ++ es)%list]
      e [] t.
Proof.
  induction sections as [|s rest IH]; intros st es l NE B; [congruence|].
  assert (Q : Json.scan (Json.mkScanner st [Json.parseArrayValue es] e l t) (Json.quote s)
              = Json.mkScanner Json.stateEndValue
                  [Json.parseArrayValue (Json.Str (toValidUTF8 0 s) :: es)] e [] t).
  { rewrite scan_quote by (destruct B as [-> | ->]; reflexivity). reflexivity. }
  destruct rest as [|s' rest].
  - cbn [map Json.join rev app Json.encode]. exact Q.
  - set (tl := s' :: rest) in *.
    change (Json.join "," (map Json.encode (map Json.Str (s :: tl))))
      with (Json.quote s ++ "," ++ Json.join "," (map Json.encode (map Json.Str tl))).
    rewrite scan_app, Q, scan_app.
    replace (Json.scan (Json.mkScanner Json.stateEndValue
                          [Json.parseArrayValue (Json.Str (toValidUTF8 0 s) :: es)] e [] t) ",")
      with (Json.mkScanner Json.stateBeginValue
              [Json.parseArrayValue (Json.Str (toValidUTF8 0 s) :: es)] e [] t)
      by reflexivity.
    rewrite IH by (subst tl; auto; discriminate).
    cbn [map rev]. now rewrite <- !app_assoc.
Qed.

Lemma checkValid_arrayText (sections : list string) :
  Json.checkValid (arrayText sections)
  = inl (Json.Array (map Json.Str (map (toValidUTF8 0) sections))).
Proof.
  destruct sections as [|s rest]; [reflexivity|].
  set (l := s :: rest). unfold Json.checkValid, arrayText. cbn [Json.encode].
  rewrite !scan_app.
  replace (Json.scan Json.reset "[")
    with (Json.mkScanner Json.stateBeginValueOrEmpty [Json.parseArrayValue []] false [] None)
    by reflexivity.
  rewrite scan_strings_list by (subst l; auto; discriminate).
  rewrite app_nil_r. cbn -[rev map]. rewrite rev_involutive. reflexivity.
Qed.

Lemma array_into_strings_Str (l : list string) :
  Json.array_into_strings (map Json.Str l) = (l, true).
Proof.
  induction l as [|s l IH]; [reflexivity|].
  cbn [map Json.array_into_strings Json.store_string]. now rewrite IH.
Qed.

(** The two decodings of the segmentation answer undo the two encodings
    of a list of sections. *)
Lemma sectionsOf_envelope (sections : list string) :
  sectionsOf (envelope (arrayText sections)) = Some (Slice (map (toValidUTF8 0) sections)).
Proof.
  unfold sectionsOf, envelopeOf, Unmarshal_ResponsePayload, Json.Unmarshal_struct.
  rewrite checkValid_envelope.
  replace (Json.object_into_field "response"
             [("response", Json.Str (toValidUTF8 0 (arrayText sections)))]
             (Response_ (mkResponsePayload EmptyString)))
    with (toValidUTF8 0 (arrayText sections), true) by reflexivity.
  cbn [Response_]. rewrite (toValidUTF8_valid _ 0 (ValidString_arrayText sections)).
  unfold Json.Unmarshal_strings. rewrite checkValid_arrayText, array_into_strings_Str.
  reflexivity.
Qed.

Lemma translationOf_envelope (t : string) :
  translationOf (envelope t) = Some (toValidUTF8 0 t).
Proof.
  unfold translationOf, Unmarshal_TranslationResponse, Json.Unmarshal_struct.
  rewrite checkValid_envelope. reflexivity.
Qed.

Lemma AllTranslated_envelopes (h : Host) (llmHost lang : string) (T : string -> string)
      (sections : list string) :
  (forall hist s, In s sections ->
     network h hist (translationRequest llmHost lang s) = answers (envelope (T s))) ->
  forall hist,
    AllTranslated h llmHost lang hist sections
      (map (fun s => mkResultItem s (toValidUTF8 0 (T s))) sections).
Proof.
  induction sections as [|s rest IH]; intros N hist; [constructor|].
  cbn [map]. apply AllTranslated_cons with (body := envelope (T s)).
  - apply N. now left.
  - apply translationOf_envelope.
  - apply IH. intros hist' s' I. apply N. now right.
Qed.

(** X17. Against an endpoint that answers as [json.Marshal] writes, the
    two decodings of the segmentation answer and the decoding of each
    translation answer undo the encodings, for every list of sections and
    every translation: the run ends with status 0, asks for the
    translation of each section in turn and prints the items that pair
    each section with its translation, nothing being trimmed or altered
    (apart from bytes that are not part of a well-formed UTF-8 encoding,
    which become U+FFFD). *)
Theorem marshalled_answers_are_read_back (h : Host) (given : list (string * string))
        (flags : Pflag.FlagSet) (text : string) (sections : list string)
        (T : string -> string) (w : World) :
  let llmHost := llmHostOf h flags in
  let lang := languageOf h flags in
  let r0 := segmentationRequest llmHost text in
  let read := map (toValidUTF8 0) sections in
  let items := map (fun s => mkResultItem s (toValidUTF8 0 (T s))) read in
  Pflag.Parse analiseCmd_Flags given = Some flags ->
  network h (requests w) r0 = answers (envelope (arrayText sections)) ->
  (forall hist s, In s read ->
     network h hist (translationRequest llmHost lang s) = answers (envelope (T s))) ->
  Execute h (mkCommandLine given [text]) w
  = (0%Z,
     extend w
       (notices h flags
          ++ [Json.encode_indent EmptyString "    " 0 (results_json (appended Nil items))
              ++ newline])
       (r0 :: map (translationRequest llmHost lang) read)).
Proof.
  intros llmHost lang r0 read items. subst llmHost lang r0 read items. intros P N A.
  destruct (Parse_defined _ _ P) as [D1 D2].
  rewrite (Execute_Run h given flags text w P).
  rewrite (Run_ok h flags text (envelope (arrayText sections))
             (Slice (map (toValidUTF8 0) sections))
             (map (fun s => mkResultItem s (toValidUTF8 0 (T s)))
                  (map (toValidUTF8 0) sections))
             w D1 D2 N (sectionsOf_envelope sections)); [reflexivity|].
  cbn [elements]. now apply AllTranslated_envelopes.
Qed.

Lemma marshalled_answers_are_read_back_witness :
  let sections := [q "Grüße, 'Welt'"; "a < b\n"; "  c" ++ newline] in
  let T := fun s => "<" ++ s ++ ">" ++ newline in
  let h := faithful "http://x" "pt-BR" "Hallo Welt" sections T in
  Execute h (mkCommandLine [("llm-host", "http://x"); ("translation-language", "pt-BR")]
                           ["Hallo Welt"]) start
  = (0%Z,
     mkWorld
       [Json.encode_indent EmptyString "    " 0
          (Json.Array (map (fun s => ResultItem_json (mkResultItem s (T s))) sections))
        ++ newline]
       (segmentationRequest "http://x" "Hallo Welt"
          :: map (translationRequest "http://x" "pt-BR") sections)).
Proof.
  intros sections T h.
  rewrite (marshalled_answers_are_read_back h
             [("llm-host", "http://x"); ("translation-language", "pt-BR")] _
             "Hallo Welt" sections T start eq_refl).
  - vm_compute. reflexivity.
  - vm_compute. reflexivity.
  - intros hist s I. vm_compute in I.
    destruct I as [<- | [<- | [<- | []]]]; vm_compute; reflexivity.
Defined.

(** ** Envelopes with several [response] members *)

Lemma object_into_field_nulls (name : string) (ms : list (string * Json.value))
      (cur : string) :
  (forall k v, In (k, v) ms -> Json.matches_field name k = true -> v = Json.Null) ->
  Json.object_into_field name ms cur = (cur, true).
Proof.
  induction ms as [|[k v] rest IH]; intros A; [reflexivity|].
  cbn [Json.object_into_field].
  destruct (Json.matches_field name k) eqn:K.
  - rewrite (A k v (or_introl eq_refl) K). cbn [Json.store_string].
    rewrite IH; [reflexivity|]. intros k' v' I. apply A. now right.
  - apply IH. intros k' v' I. apply A. now right.
Qed.

Lemma object_into_field_last (name : string) (before after : list (string * Json.value))
      (k t : string) :
  Json.matches_field name k = true ->
  (forall k' v, In (k', v) before -> Json.matches_field name k' = true ->
     v = Json.Null \/ exists s, v = Json.Str s) ->
  (forall k' v, In (k', v) after -> Json.matches_field name k' = true -> v = Json.Null) ->
  forall cur,
    Json.object_into_field name (before ++ (k, Json.Str t) :: after)%list cur = (t, true).
Proof.
  intros K B A. induction before as [|[k' v] rest IH]; intros cur.
  - cbn [app Json.object_into_field]. rewrite K. cbn [Json.store_string].
    now rewrite (object_into_field_nulls name after t A).
  - cbn [app Json.object_into_field].
    assert (R : forall k'' v', In (k'', v') rest -> Json.matches_field name k'' = true ->
                  v' = Json.Null \/ exists s, v' = Json.Str s)
      by (intros k'' v' I; apply B; now right).
    destruct (Json.matches_field name k') eqn:K'; [|now apply IH].
    destruct (B k' v (or_introl eq_refl) K') as [-> | [s ->]];
      cbn [Json.store_string]; now rewrite IH.
Qed.

(** X18. When the envelope of an answer has several members that select
    the field [response] (by the name itself or by a name that differs
    from it in case only), the text taken is that of the last of them
    that holds a string: a later member that holds [null] does not erase
    it, and the members before it are overwritten. *)
Theorem last_response_member_is_taken (body : string)
        (before after : list (string * Json.value)) (k t : string) :
  Json.checkValid body = inl (Json.Object (before ++ (k, Json.Str t) :: after)%list) ->
  Json.matches_field "response" k = true ->
  (forall k' v, In (k', v) before -> Json.matches_field "response" k' = true ->
     v = Json.Null \/ exists s, v = Json.Str s) ->
  (forall k' v, In (k', v) after -> Json.matches_field "response" k' = true ->
     v = Json.Null) ->
  envelopeOf body = Some t /\ translationOf body = Some t.
Proof.
  intros V K B A.
  unfold envelopeOf, translationOf, Unmarshal_ResponsePayload,
    Unmarshal_TranslationResponse, Json.Unmarshal_struct.
  rewrite V, !(object_into_field_last "response" before after k t K B A). now split.
Qed.

Lemma last_response_member_is_taken_witness :
  let body := q "{'response':'a','Response':'b','done':true,'RESPONSE':null}" in
  envelopeOf body = Some "b" /\ translationOf body = Some "b".
Proof.
  intros body.
  apply (last_response_member_is_taken body [("response", Json.Str "a")]
           [("done", Json.Bool true); ("RESPONSE", Json.Null)] "Response" "b").
  - vm_compute. reflexivity.
  - vm_compute. reflexivity.
  - intros k' v [E | []] _. injection E as <- <-. right. now exists "a".
  - intros k' v [E | [E | []]] M; injection E as <- <-.
    + vm_compute in M. discriminate M.
    + reflexivity.
Defined.

(** ** The decoder gives well-formed text *)

Lemma forallb_below (P : N -> bool) (k : nat) :
  forallb P (below k) = true -> forall n, (n < N.of_nat k)%N -> P n = true.
Proof.
  intros H n L. rewrite forallb_forall in H. apply H. unfold below.
  apply in_map_iff. exists (N.to_nat n). split; [apply N2Nat.id|].
  apply in_seq. lia.
Qed.

Lemma land_63 (n : N) : (N.land n 0x3F < 64)%N.
Proof.
  change 0x3F%N with (N.ones 6). rewrite N.land_ones. now apply N.mod_lt.
Qed.

Lemma tx_cont (n : N) : cont (Utf8.tx n) = true.
Proof.
  unfold Utf8.tx. generalize (land_63 n). generalize (N.land n 0x3F). intros m L.
  revert m L.
  apply (forallb_below (fun m => cont (n2b (N.lor 0x80 m))) 64). vm_compute. reflexivity.
Qed.

Lemma ValidString_3 (a b c : byte) :
  lead3 a b = true -> cont c = true ->
  ValidString 0 (String a (String b (String c EmptyString))) = true.
Proof.
  unfold lead3, cont. intros L C.
  apply andb_true_iff in L as [L B]. apply andb_true_iff in L as [L1 L2].
  apply N.leb_le in L1. pose proof L2 as L2'. apply N.ltb_lt in L2'.
  cbn [ValidString]. unfold Utf8.DecodeRune, Utf8.RuneSelf.
  replace (b2n a <? 0x80)%N with false by (symmetry; apply N.ltb_ge; lia).
  replace (b2n a <? 0xC2)%N with false by (symmetry; apply N.ltb_ge; lia).
  replace (b2n a <? 0xE0)%N with false by (symmetry; apply N.ltb_ge; lia).
  rewrite L2. cbv zeta. rewrite B, C. cbn [andb].
  now rewrite andb_false_r.
Qed.

Lemma ValidString_4 (a b c d : byte) :
  lead4 a b = true -> cont c = true -> cont d = true ->
  ValidString 0 (String a (String b (String c (String d EmptyString)))) = true.
Proof.
  unfold lead4, cont. intros L C D.
  apply andb_true_iff in L as [L B]. apply andb_true_iff in L as [L1 L2].
  apply N.leb_le in L1. pose proof L2 as L2'. apply N.ltb_lt in L2'.
  cbn [ValidString]. unfold Utf8.DecodeRune, Utf8.RuneSelf.
  replace (b2n a <? 0x80)%N with false by (symmetry; apply N.ltb_ge; lia).
  replace (b2n a <? 0xC2)%N with false by (symmetry; apply N.ltb_ge; lia).
  replace (b2n a <? 0xE0)%N with false by (symmetry; apply N.ltb_ge; lia).
  replace (b2n a <? 0xF0)%N with false by (symmetry; apply N.ltb_ge; lia).
  rewrite L2. cbv zeta. rewrite B, C, D. cbn [andb].
  now rewrite andb_false_r.
Qed.

Lemma shiftr_bounds (r : N) (k : N) (lo hi : N) :
  (lo * 2 ^ k <= r)%N -> (r < hi * 2 ^ k)%N ->
  (lo <= N.shiftr r k)%N /\ (N.shiftr r k < hi)%N.
Proof.
  intros L H. rewrite N.shiftr_div_pow2.
  assert (P : (2 ^ k <> 0)%N) by (apply N.pow_nonzero; discriminate).
  split.
  - apply N.div_le_lower_bound; [exact P | lia].
  - apply N.Div0.div_lt_upper_bound. lia.
Qed.

(** What [utf8.EncodeRune] writes is well formed, for every rune. *)
Lemma EncodeRune_valid (r : Utf8.rune) : ValidString 0 (Utf8.EncodeRune r) = true.
Proof.
  unfold Utf8.EncodeRune.
  destruct (r <=? 0x7F)%N eqn:R1.
  { apply N.leb_le in R1. revert r R1.
    enough (H : forall r, (r < N.of_nat 128)%N ->
                ValidString 0 (String (n2b r) EmptyString) = true)
      by (intros r R; apply H; change (N.of_nat 128) with 128%N; lia).
    apply (forallb_below (fun r => ValidString 0 (String (n2b r) EmptyString)) 128).
    vm_compute. reflexivity. }
  destruct (r <=? 0x7FF)%N eqn:R2.
  { apply N.leb_le in R2. apply N.leb_gt in R1. revert r R1 R2.
    enough (H : forall r, (r < N.of_nat 2048)%N ->
                (0x7F <? r)%N = true ->
                ValidString 0 (String (n2b (N.lor 0xC0 (N.shiftr r 6)))
                                 (String (Utf8.tx r) EmptyString)) = true)
      by (intros r R1 R2; apply H;
          [change (N.of_nat 2048) with 2048%N; lia | now apply N.ltb_lt]).
    intros r L.
    apply (forallb_below
             (fun r => implb (0x7F <? r)%N
                         (ValidString 0 (String (n2b (N.lor 0xC0 (N.shiftr r 6)))
                                           (String (Utf8.tx r) EmptyString)))) 2048) in L.
    - intros G. now rewrite G in L.
    - vm_compute. reflexivity. }
  apply N.leb_gt in R1, R2.
  destruct ((Utf8.MaxRune <? r)%N
            || ((Utf8.surrogateMin <=? r)%N && (r <=? Utf8.surrogateMax)%N)) eqn:R3;
    [reflexivity|].
  apply orb_false_iff in R3 as [R3 R4]. apply N.ltb_ge in R3.
  unfold Utf8.MaxRune, Utf8.surrogateMin, Utf8.surrogateMax in *.
  destruct (r <=? 0xFFFF)%N eqn:R5.
  { apply N.leb_le in R5. unfold Utf8.encode3.
    apply ValidString_3; [|apply tx_cont].
    replace (N.shiftr r 12) with (N.shiftr (N.shiftr r 6) 6)
      by (now rewrite N.shiftr_shiftr).
    assert (U : (0x20 <= N.shiftr r 6 < 0x400)%N
                /\ ((N.shiftr r 6 <? 0x360) || (0x380 <=? N.shiftr r 6))%N = true).
    { split; [apply (shiftr_bounds r 6 0x20 0x400); cbn; lia|].
      apply andb_false_iff in R4 as [R4 | R4].
      - apply N.leb_gt in R4. apply orb_true_iff. left. apply N.ltb_lt.
        apply (shiftr_bounds r 6 0 0x360); cbn; lia.
      - apply N.leb_gt in R4. apply orb_true_iff. right. apply N.leb_le.
        apply (shiftr_bounds r 6 0x380 0x400); cbn; lia. }
    destruct U as [[U1 U2] U3]. revert U1 U3.
    generalize dependent (N.shiftr r 6). intros u U2 U1 U3.
    assert (L : (u < N.of_nat 1024)%N) by (change (N.of_nat 1024) with 1024%N; lia).
    apply (forallb_below
             (fun u => implb ((0x20 <=? u)%N && ((u <? 0x360) || (0x380 <=? u))%N)
                         (lead3 (n2b (N.lor 0xE0 (N.shiftr u 6))) (Utf8.tx u))) 1024) in L.
    - rewrite U3, andb_true_r in L.
      replace (0x20 <=? u)%N with true in L by (symmetry; now apply N.leb_le).
      exact L.
    - vm_compute. reflexivity. }
  apply N.leb_gt in R5.
  apply ValidString_4; [|apply tx_cont|apply tx_cont].
  replace (N.shiftr r 18) with (N.shiftr (N.shiftr r 12) 6)
    by (now rewrite N.shiftr_shiftr).
  assert (U : (0x10 <= N.shiftr r 12 < 0x110)%N)
    by (apply (shiftr_bounds r 12 0x10 0x110); cbn; lia).
  destruct U as [U1 U2]. revert U1.
  generalize dependent (N.shiftr r 12). intros u U2 U1.
  assert (L : (u < N.of_nat 272)%N) by (change (N.of_nat 272) with 272%N; lia).
  apply (forallb_below
           (fun u => implb (0x10 <=? u)%N
                       (lead4 (n2b (N.lor 0xF0 (N.shiftr u 6))) (Utf8.tx u))) 272) in L.
  - replace (0x10 <=? u)%N with true in L by (symmetry; now apply N.leb_le).
    exact L.
  - vm_compute. reflexivity.
Qed.

Lemma prepend_Some (x : string) (o : option string) (t : string) :
  Json.prepend x o = Some t -> exists t', o = Some t' /\ t = x ++ t'.
Proof. destruct o as [t'|]; [|discriminate]. intros [= <-]. now exists t'. Qed.

Lemma escaped_ascii (e x : byte) :
  Json.escaped e = Some x -> ValidString 0 (String x EmptyString) = true.
Proof.
  unfold Json.escaped. intros H.
  destruct ((e =? dquote)%char || (e =? "\")%char || (e =? "/")%char || (e =? "'")%char)
    eqn:E.
  - injection H as <-.
    repeat (apply orb_true_iff in E as [E|E]); apply Ascii.eqb_eq in E; subst e; reflexivity.
  - repeat (match type of H with
            | (if ?c then _ else _) = _ => destruct c
            end; [injection H as <-; reflexivity|]).
    discriminate H.
Qed.

(** The text of a string literal is well formed, whatever bytes the
    literal holds. *)
Lemma unquote_valid (n : nat) :
  forall s t, (String.length s <= n)%nat -> Json.unquote 0 s = Some t ->
  ValidString 0 t = true.
Proof.
  induction n as [|n IH]; intros [|c r1] t L U; cbn [String.length] in L; try lia;
    try (injection U as <-; reflexivity).
  assert (step : forall x r,
                   Json.prepend x (Json.unquote 0 r) = Some t ->
                   ValidString 0 x = true -> (String.length r <= n)%nat ->
                   ValidString 0 t = true).
  { intros x r P X Lr. apply prepend_Some in P as (t' & P & ->).
    apply ValidString_append; [exact X | now apply (IH r)]. }
  destruct (b2n c <? Utf8.RuneSelf)%N eqn:A.
  - cbn [Json.unquote] in U.
    destruct (c =? "\")%char eqn:C1.
    + destruct r1 as [|e r2]; [discriminate U|].
      destruct (e =? "u")%char.
      * destruct r2 as [|h0 [|h1 [|h2 [|h3 r6]]]]; try discriminate U.
        destruct (Json.getu4 _) as [rr|]; [|discriminate U].
        cbn [String.length] in L.
        destruct (Utf16.IsSurrogate rr).
        -- destruct (Json.getu4 r6) as [rr1|].
           ++ destruct r6 as [|a0 [|a1 [|a2 [|a3 [|a4 [|a5 r12]]]]]];
                [apply (step _ _ U); [apply EncodeRune_valid | cbn [String.length] in *; lia]..|].
              destruct (Utf16.DecodeRune rr rr1 =? Utf8.RuneError)%N;
                (apply (step _ _ U); [apply EncodeRune_valid | cbn [String.length] in *; lia]).
           ++ destruct r6 as [|a0 [|a1 [|a2 [|a3 [|a4 [|a5 r12]]]]]];
                (apply (step _ _ U); [apply EncodeRune_valid | cbn [String.length] in *; lia]).
        -- apply (step _ _ U); [apply EncodeRune_valid | cbn [String.length] in *; lia].
      * destruct (Json.escaped e) as [x|] eqn:E; [|discriminate U].
        cbn [String.length] in L.
        apply (step _ _ U); [exact (escaped_ascii e x E) | lia].
    + destruct ((c =? dquote)%char || (b2n c <? 32)%N); [discriminate U|].
      rewrite A in U. apply (step _ _ U); [|lia].
      cbn [ValidString]. now rewrite A.
  - rewrite (unquote_high c r1 A) in U.
    destruct (DecodeRune_view c r1 A) as [D | (r & p & rest' & -> & Lp & C & W & D)].
    + rewrite D in U.
      replace ((Utf8.RuneError =? Utf8.RuneError)%N && (1 =? 1)%nat) with true in U
        by reflexivity.
      apply (step _ _ U); [apply EncodeRune_valid | lia].
    + rewrite (D rest'), (valid_size r _ Lp) in U. cbn [Nat.sub] in U.
      rewrite Nat.sub_0_r, unquote_copy, prepend_prepend in U.
      rewrite length_append in L.
      apply (step _ _ U); [|lia].
      cbn [String.append ValidString]. rewrite A.
      specialize (D EmptyString). rewrite append_nil_r in D.
      rewrite D, (valid_size r _ Lp).
      cbn [Nat.sub]. rewrite Nat.sub_0_r.
      rewrite <- (append_nil_r p) at 2. now rewrite ValidString_skip.
Qed.

Lemma forallb_rev {A} (f : A -> bool) (l : list A) : forallb f (rev l) = forallb f l.
Proof.
  induction l as [|x l IH]; [reflexivity|].
  cbn [rev forallb]. rewrite forallb_app, IH. cbn [forallb].
  rewrite andb_true_r. apply andb_comm.
Qed.

Lemma validScanner_same (s s' : Json.scanner) :
  Json.parseState s' = Json.parseState s -> Json.top s' = Json.top s ->
  validScanner s = true -> validScanner s' = true.
Proof. unfold validScanner. now intros -> ->. Qed.

Lemma deliver_valid (v : Json.value) (ps ps' : list Json.frame)
      (t t' : option Json.value) :
  validValue v = true -> forallb validFrame ps = true -> validTop t = true ->
  Json.deliver v ps t = Some (ps', t') ->
  forallb validFrame ps' = true /\ validTop t' = true.
Proof.
  intros V P T D. destruct ps as [|f st]; cbn [Json.deliver] in D.
  - injection D as <- <-. now split.
  - cbn [forallb] in P. apply andb_true_iff in P as [F P].
    destruct f as [ms [k|] | ms [k|] | es]; try discriminate D.
    + destruct v; try discriminate D. injection D as <- <-. split; [|exact T].
      cbn [forallb validFrame validKey] in *. cbn [validValue] in V.
      apply andb_true_iff in F as [F _]. now rewrite F, V, P.
    + injection D as <- <-. split; [|exact T].
      cbn [forallb validFrame validKey] in *. apply andb_true_iff in F as [F K].
      unfold validMember at 1. cbn [fst snd]. now rewrite K, V, F, P.
    + injection D as <- <-. split; [|exact T].
      cbn [forallb validFrame] in *. now rewrite V, F, P.
Qed.

Lemma scanError_valid (s : Json.scanner) :
  validScanner s = true -> validScanner (Json.scanError s) = true.
Proof. now apply validScanner_same. Qed.

Lemma finish_valid (v : Json.value) (s : Json.scanner) :
  validValue v = true -> validScanner s = true -> validScanner (Json.finish v s) = true.
Proof.
  intros V S. unfold Json.finish.
  destruct (Json.deliver v _ _) as [[ps t]|] eqn:D; [|now apply scanError_valid].
  unfold validScanner in *. apply andb_true_iff in S as [P T].
  destruct (deliver_valid _ _ _ _ _ V P T D) as [P' T'].
  cbn [Json.parseState Json.top]. now rewrite P', T'.
Qed.

Lemma popParseState_valid (v : Json.value) (s : Json.scanner) :
  validValue v = true -> validScanner s = true ->
  validScanner (Json.popParseState v s) = true.
Proof.
  intros V S. unfold Json.popParseState.
  destruct (Json.parseState s) as [|f st] eqn:E; [now apply scanError_valid|].
  destruct (Json.deliver v st _) as [[ps t]|] eqn:D; [|now apply scanError_valid].
  unfold validScanner in S. rewrite E in S. cbn [forallb] in S.
  apply andb_true_iff in S as [P T]. apply andb_true_iff in P as [_ P].
  destruct (deliver_valid _ _ _ _ _ V P T D) as [P' T'].
  unfold validScanner. destruct st; cbn [Json.parseState Json.top]; now rewrite P', T'.
Qed.

Lemma stepEndTop_valid (s : Json.scanner) (c : byte) :
  validScanner s = true -> validScanner (Json.stepEndTop s c) = true.
Proof.
  intros S. unfold Json.stepEndTop. destruct (Json.isSpace c);
    [exact S | now apply scanError_valid].
Qed.

Lemma stepEndValue_valid (s : Json.scanner) (c : byte) :
  validScanner s = true -> validScanner (Json.stepEndValue s c) = true.
Proof.
  intros S. unfold Json.stepEndValue.
  destruct (Json.parseState s) as [|f st] eqn:E.
  - apply stepEndTop_valid. unfold validScanner in *. now rewrite E in S.
  - destruct (Json.isSpace c); [now apply (validScanner_same s)|].
    assert (F : validFrame f = true /\ forallb validFrame st = true
                /\ validTop (Json.top s) = true).
    { unfold validScanner in S. rewrite E in S. cbn [forallb] in S.
      apply andb_true_iff in S as [P T]. apply andb_true_iff in P as [F P]. auto. }
    destruct F as (F & P & T).
    destruct f as [ms k | ms k | es].
    + destruct (c =? ":")%char; [|now apply scanError_valid].
      unfold validScanner. cbn [Json.parseState Json.top forallb validFrame] in *.
      now rewrite F, P, T.
    + cbn [validFrame] in F. apply andb_true_iff in F as [F _].
      destruct (c =? ",")%char.
      * unfold validScanner. cbn [Json.parseState Json.top forallb validFrame validKey].
        now rewrite F, P, T.
      * destruct (c =? "}")%char; [|now apply scanError_valid].
        apply popParseState_valid; [|exact S].
        cbn [validValue]. now rewrite forallb_rev.
    + destruct (c =? ",")%char; [now apply (validScanner_same s)|].
      destruct (c =? "]")%char; [|now apply scanError_valid].
      apply popParseState_valid; [|exact S].
      cbn [validValue]. now rewrite forallb_rev.
Qed.

Lemma pushParseState_valid (f : Json.frame) (st : Json.stepfn) (s : Json.scanner) :
  validFrame f = true -> validScanner s = true ->
  validScanner (Json.pushParseState f st s) = true.
Proof.
  intros F S. unfold Json.pushParseState. cbv zeta.
  destruct (_ <=? _)%N; [|now apply scanError_valid].
  unfold validScanner in *. cbn [Json.parseState Json.top forallb]. now rewrite F.
Qed.

Lemma stepBeginValue_valid (s : Json.scanner) (c : byte) :
  validScanner s = true -> validScanner (Json.stepBeginValue s c) = true.
Proof.
  intros S. unfold Json.stepBeginValue.
  repeat match goal with
         | |- context [if ?b then _ else _] => destruct b
         end;
    first [ exact S | now apply pushParseState_valid | now apply (validScanner_same s) ].
Qed.

Lemma stepBeginString_valid (s : Json.scanner) (c : byte) :
  validScanner s = true -> validScanner (Json.stepBeginString s c) = true.
Proof.
  intros S. unfold Json.stepBeginString.
  repeat match goal with
         | |- context [if ?b then _ else _] => destruct b
         end;
    first [ exact S | now apply (validScanner_same s) ].
Qed.

Lemma stepBeginStringOrEmpty_valid (s : Json.scanner) (c : byte) :
  validScanner s = true -> validScanner (Json.stepBeginStringOrEmpty s c) = true.
Proof.
  intros S. unfold Json.stepBeginStringOrEmpty.
  destruct (Json.isSpace c); [exact S|].
  destruct (c =? "}")%char; [|now apply stepBeginString_valid].
  destruct (Json.parseState s) as [|[ms k | ms k | es] st] eqn:E;
    try now apply scanError_valid.
  apply stepEndValue_valid.
  unfold validScanner in *. rewrite E in S.
  cbn [Json.parseState Json.top forallb validFrame validKey] in *.
  apply andb_true_iff in S as [P T]. apply andb_true_iff in P as [F P].
  apply andb_true_iff in F as [F _]. now rewrite F, P, T.
Qed.

Lemma finishString_valid (s : Json.scanner) :
  validScanner s = true -> validScanner (Json.finishString s) = true.
Proof.
  intros S. unfold Json.finishString.
  destruct (Json.unquote 0 _) as [str|] eqn:U; [|now apply scanError_valid].
  apply finish_valid; [|exact S].
  cbn [validValue]. exact (unquote_valid _ _ _ (le_n _) U).
Qed.

Lemma finishNumber_valid (s : Json.scanner) (c : byte) :
  validScanner s = true -> validScanner (Json.finishNumber s c) = true.
Proof.
  intros S. unfold Json.finishNumber. apply stepEndValue_valid. now apply finish_valid.
Qed.

(** The strings that the scanner holds stay well formed from byte to
    byte. *)
Lemma scan_step_valid (s : Json.scanner) (c : byte) :
  validScanner s = true -> validScanner (Json.scan_step s c) = true.
Proof.
  intros S.
  unfold Json.scan_step, Json.stepState0, Json.stepStateESign, Json.expect.
  destruct (Json.step s);
    repeat match goal with
           | |- context [if ?b then _ else _] => destruct b
           end;
    first [ exact S
          | now apply (validScanner_same s)
          | now apply stepBeginValue_valid
          | now apply stepEndValue_valid
          | now apply stepBeginStringOrEmpty_valid
          | now apply stepBeginString_valid
          | now apply stepEndTop_valid
          | now apply finishString_valid
          | now apply finishNumber_valid
          | now apply finish_valid ].
Qed.

Lemma scan_valid (data : string) :
  forall s, validScanner s = true -> validScanner (Json.scan s data) = true.
Proof.
  induction data as [|c rest IH]; intros s S; [exact S|].
  cbn [Json.scan]. apply IH. now apply scan_step_valid.
Qed.

(** Every string of a value that has been read is well formed, whatever
    bytes the text held. *)
Lemma checkValid_valid (data : string) (v : Json.value) :
  Json.checkValid data = inl v -> validValue v = true.
Proof.
  unfold Json.checkValid, Json.eof. set (s := Json.scan Json.reset data).
  assert (S : validScanner s = true) by (apply scan_valid; reflexivity).
  destruct (Json.isError s); [discriminate|]. cbv zeta.
  set (s' := if Json.endTop s then s else Json.scan_step s " "%char).
  assert (S' : validScanner s' = true)
    by (subst s'; destruct (Json.endTop s); [exact S | now apply scan_step_valid]).
  destruct (Json.isError s'); [discriminate|].
  destruct (Json.endTop s'); [|discriminate].
  destruct (Json.top s') as [v'|] eqn:T; [|discriminate]. intros [= <-].
  unfold validScanner in S'. rewrite T in S'. now apply andb_true_iff in S' as [_ S'].
Qed.

Lemma array_into_strings_valid (es : list Json.value) :
  forallb validValue es = true ->
  Forall (fun s => ValidString 0 s = true) (fst (Json.array_into_strings es)).
Proof.
  induction es as [|v rest IH]; intros V; [constructor|].
  cbn [forallb] in V. apply andb_true_iff in V as [V R].
  cbn [Json.array_into_strings].
  destruct (Json.store_string v EmptyString) as [s ok] eqn:E.
  destruct (Json.array_into_strings rest) as [l ok'].
  cbn [fst] in *. constructor; [|now apply IH].
  destruct v; cbn [Json.store_string] in E; injection E as <- _;
    first [reflexivity | exact V].
Qed.

Lemma object_into_field_valid (name : string) (ms : list (string * Json.value)) :
  forallb validMember ms = true ->
  forall cur, ValidString 0 cur = true ->
  ValidString 0 (fst (Json.object_into_field name ms cur)) = true.
Proof.
  induction ms as [|[k v] rest IH]; intros V cur C; [exact C|].
  cbn [forallb] in V. apply andb_true_iff in V as [M R].
  cbn [Json.object_into_field].
  destruct (Json.matches_field name k); [|now apply IH].
  destruct (Json.store_string v cur) as [cur' ok] eqn:E.
  specialize (IH R cur').
  destruct (Json.object_into_field name rest cur') as [final ok'].
  cbn [fst] in *. apply IH.
  unfold validMember in M. cbn [fst snd] in M. apply andb_true_iff in M as [_ M].
  destruct v; cbn [Json.store_string] in E; injection E as <- _;
    first [exact C | exact M].
Qed.

Lemma Unmarshal_struct_valid (name data cur : string) :
  ValidString 0 cur = true ->
  ValidString 0 (fst (Json.Unmarshal_struct name data cur)) = true.
Proof.
  intros C. unfold Json.Unmarshal_struct.
  destruct (Json.checkValid data) as [v|e] eqn:V; [|exact C].
  apply checkValid_valid in V.
  destruct v; try exact C.
  pose proof (object_into_field_valid name members V cur C) as F.
  now destruct (Json.object_into_field name members cur).
Qed.

Lemma envelopeOf_valid (body inner : string) :
  envelopeOf body = Some inner -> ValidString 0 inner = true.
Proof.
  unfold envelopeOf, Unmarshal_ResponsePayload. cbn [Response_].
  pose proof (Unmarshal_struct_valid "response" body EmptyString eq_refl) as V.
  destruct (Json.Unmarshal_struct "response" body EmptyString) as [s [e|]];
    [discriminate|].
  now intros [= <-].
Qed.

Lemma translationOf_valid (body t : string) :
  translationOf body = Some t -> ValidString 0 t = true.
Proof.
  unfold translationOf, Unmarshal_TranslationResponse.
  cbn [TranslationResponse_Translation].
  pose proof (Unmarshal_struct_valid "response" body EmptyString eq_refl) as V.
  destruct (Json.Unmarshal_struct "response" body EmptyString) as [s [e|]];
    [discriminate|].
  now intros [= <-].
Qed.

Lemma sectionsOf_valid (body : string) (sections : slice string) :
  sectionsOf body = Some sections ->
  Forall (fun s => ValidString 0 s = true) (elements sections).
Proof.
  unfold sectionsOf. destruct (envelopeOf body) as [inner|]; [|discriminate].
  unfold Json.Unmarshal_strings.
  destruct (Json.checkValid inner) as [v|e] eqn:V; [|discriminate].
  apply checkValid_valid in V.
  destruct v; try discriminate.
  - intros [= <-]. constructor.
  - pose proof (array_into_strings_valid elems V) as F.
    destruct (Json.array_into_strings elems) as [l [|]]; [|discriminate].
    now intros [= <-].
Qed.

Lemma toValidItem_valid (r : ResultItem) :
  ValidString 0 (Source r) = true -> ValidString 0 (Translation r) = true ->
  toValidItem r = r.
Proof.
  intros S T. destruct r as [s t]. unfold toValidItem. cbn [Source Translation] in *.
  now rewrite !toValidUTF8_valid.
Qed.

Lemma AllTranslated_valid (h : Host) (llmHost lang : string) (hist : list Request)
      (sections : list string) (items : list ResultItem) :
  Forall (fun s => ValidString 0 s = true) sections ->
  AllTranslated h llmHost lang hist sections items ->
  Forall (fun r => ValidString 0 (Source r) = true /\ ValidString 0 (Translation r) = true)
         items.
Proof.
  intros F A. induction A as [|hist s rest body t items N D A IH]; [constructor|].
  inversion F as [|? ? Fs Fr]; subst. constructor; [|now apply IH].
  cbn [Source Translation]. split; [exact Fs | exact (translationOf_valid body t D)].
Qed.

(** X19. Whatever bytes the endpoint sends, the texts the run takes from
    its answers are well-formed UTF-8: every section detected, and with
    it the source and the translation of every item.  A byte of an
    answer that is not part of a well-formed encoding has become U+FFFD
    when the answer was decoded. *)
Theorem received_text_is_well_formed (h : Host) (llmHost lang body : string)
        (hist : list Request) (sections : slice string) (items : list ResultItem) :
  sectionsOf body = Some sections ->
  AllTranslated h llmHost lang hist (elements sections) items ->
  Forall (fun s => ValidString 0 s = true) (elements sections)
  /\ Forall (fun r => ValidString 0 (Source r) = true
                      /\ ValidString 0 (Translation r) = true) items.
Proof.
  intros S A. pose proof (sectionsOf_valid body sections S) as F.
  split; [exact F | exact (AllTranslated_valid _ _ _ _ _ _ F A)].
Qed.

Lemma received_text_is_well_formed_witness :
  let ill := String (n2b 255) EmptyString in
  let body := q "{'response': '[\'a" ++ ill ++ q "\']'}" in
  let tbody := q "{'response': 'A" ++ ill ++ ill ++ q "'}" in
  let replaced := Utf8.EncodeRune Utf8.RuneError in
  sectionsOf body = Some (Slice ["a" ++ replaced])
  /\ Forall (fun s => ValidString 0 s = true) ["a" ++ replaced]
  /\ Forall (fun r => ValidString 0 (Source r) = true
                      /\ ValidString 0 (Translation r) = true)
            [mkResultItem ("a" ++ replaced) ("A" ++ replaced ++ replaced)].
Proof.
  intros ill body tbody replaced.
  assert (S : sectionsOf body = Some (Slice ["a" ++ replaced])) by (vm_compute; reflexivity).
  split; [exact S|].
  apply (received_text_is_well_formed (scripted [answers body; answers tbody])
           "http://x" "pt-BR" body [segmentationRequest "http://x" "Hallo"] _ _ S).
  econstructor; [reflexivity | vm_compute; reflexivity | constructor].
Defined.

(** X16. The line that a successful run prints last is a JSON text, and
    reading it gives the result list back exactly: [null] when there is
    no item, and otherwise the array of the items in the order of the
    sections, each an object with the members [source] and [translation]
    holding the section and its translation. *)
Theorem printed_document_reads_back (h : Host) (given : list (string * string))
        (flags : Pflag.FlagSet) (text body : string) (sections : slice string)
        (items : list ResultItem) (w : World) :
  let llmHost := llmHostOf h flags in
  let lang := languageOf h flags in
  let r0 := segmentationRequest llmHost text in
  Pflag.Parse analiseCmd_Flags given = Some flags ->
  network h (requests w) r0 = answers body ->
  sectionsOf body = Some sections ->
  AllTranslated h llmHost lang (requests w ++ [r0]) (elements sections) items ->
  exists line,
    Execute h (mkCommandLine given [text]) w
    = (0%Z,
       extend w (notices h flags ++ [line])
         (r0 :: map (translationRequest llmHost lang) (elements sections)))
    /\ Json.checkValid line
       = inl (match items with
              | [] => Json.Null
              | _ => Json.Array (map ResultItem_json items)
              end).
Proof.
  intros llmHost lang r0. subst llmHost lang r0. intros P N S T.
  destruct (Parse_defined _ _ P) as [D1 D2].
  eexists. split.
  - rewrite (Execute_Run h given flags text w P).
    rewrite (Run_ok h flags text body sections items w D1 D2 N S T). reflexivity.
  - rewrite checkValid_document, appended_Nil.
    replace (map toValidItem items) with items; [now destruct items|].
    pose proof (AllTranslated_valid _ _ _ _ _ _ (sectionsOf_valid _ _ S) T) as V.
    clear - V. induction V as [|r rest [V1 V2] V IH]; [reflexivity|].
    cbn [map]. now rewrite <- IH, toValidItem_valid.
Qed.

Lemma printed_document_reads_back_witness :
  let h := scripted [answers (q "{'response': '[\'a<b\', \'c\']'}");
                     answers (q "{'response': 'A \'quoted\''}");
                     answers (q "{'response': '\tC\n'}")] in
  exists line,
    Execute h (mkCommandLine [("llm-host", "http://x"); ("translation-language", "pt-BR")]
                             ["Hallo Welt"]) start
    = (0%Z,
       mkWorld [line]
         [ segmentationRequest "http://x" "Hallo Welt";
           translationRequest "http://x" "pt-BR" "a<b";
           translationRequest "http://x" "pt-BR" "c" ])
    /\ Json.checkValid line
       = inl (Json.Array
                [ Json.Object [("source", Json.Str "a<b");
                               ("translation", Json.Str (q "A 'quoted'"))];
                  Json.Object [("source", Json.Str "c");
                               ("translation",
                                Json.Str (String (n2b 9) ("C" ++ newline)))] ]).
Proof.
  intros h.
  destruct (printed_document_reads_back h
              [("llm-host", "http://x"); ("translation-language", "pt-BR")] _ "Hallo Welt"
              (q "{'response': '[\'a<b\', \'c\']'}") (Slice ["a<b"; "c"])
              [mkResultItem "a<b" (q "A 'quoted'");
               mkResultItem "c" (String (n2b 9) ("C" ++ newline))]
              start eq_refl eq_refl) as (line & E & V).
  - vm_compute. reflexivity.
  - econstructor; [reflexivity | vm_compute; reflexivity |].
    econstructor; [reflexivity | vm_compute; reflexivity | constructor].
  - exists line. split; [exact E | exact V].
Defined.

(** X20. What the run has detected as a section is what the endpoint
    is asked to translate, byte for byte: when the language is
    well-formed UTF-8, the translation request made for a section of the
    segmentation answer is read back as the payload with exactly the
    prompt built from the language and that section, whatever bytes the
    answer held. *)
Theorem detected_sections_are_sent_unchanged (body llmHost lang : string)
        (sections : slice string) :
  sectionsOf body = Some sections -> ValidString 0 lang = true ->
  Forall (fun s =>
            Json.checkValid (Payload (translationRequest llmHost lang s))
            = inl (TranslationPayload_json
                     (mkTranslationPayload "llama3" (translationPrompt lang s) false)))
         (elements sections).
Proof.
  intros S L. apply (Forall_impl _ (P := fun s => ValidString 0 s = true));
    [|exact (sectionsOf_valid body sections S)].
  intros s V.
  rewrite <- (toValidUTF8_valid _ 0 (translationPrompt_valid lang s L V)).
  exact (checkValid_payload "model" "prompt" "stream" "llama3" (translationPrompt lang s) false).
Qed.

Lemma detected_sections_are_sent_unchanged_witness :
  let ill := String (n2b 255) EmptyString in
  let body := q "{'response': '[\'a<b" ++ ill ++ q "\', \'\\n\']'}" in
  let replaced := Utf8.EncodeRune Utf8.RuneError in
  sectionsOf body = Some (Slice ["a<b" ++ replaced; newline])
  /\ Forall (fun s =>
               Json.checkValid (Payload (translationRequest "http://x" "pt-BR" s))
               = inl (TranslationPayload_json
                        (mkTranslationPayload "llama3" (translationPrompt "pt-BR" s) false)))
            ["a<b" ++ replaced; newline].
Proof.
  intros ill body replaced.
  assert (S : sectionsOf body = Some (Slice ["a<b" ++ replaced; newline]))
    by (vm_compute; reflexivity).
  split; [exact S|].
  exact (detected_sections_are_sent_unchanged body "http://x" "pt-BR" _ S eq_refl).
Defined.
